(** * Expense tracker: a shallow embedding of [src/index.js]

    The React component [App] keeps an ordered collection of expense
    objects, mirrors it to [localStorage], derives a filtered view and
    three totals from it, and feeds a category breakdown to a pie chart.
    The form component [ExpenseForm] validates a draft and hands it to
    [addExpense] or [updateExpense].

    The embedding follows the JavaScript as it is written:
    - a JavaScript number is an IEEE 754 binary64 value ([spec_float] at
      precision 53), with its NaN, its infinities and its two zeros;
    - a property value is a dynamically typed primitive ([prim]);
    - an expense object is a finite map from property names to values,
      so that the spread syntax is map insertion and map union;
    - [useState] cells are fields of a state record, and a handler is a
      function from the state before the event to the state after it;
    - what the browser supplies ([Date], [localStorage], [JSON.parse],
      [Date.now], [window.confirm]) is an explicit argument or a host
      record.

    Of the components that display the collection, what they compute
    is embedded: the entries of the year and month dropdowns, the order
    of the rows, the colours and the texts of a row, and the texts of
    the summary cards ([toFixed]).

    The effect that writes the collection back to [localStorage] after
    a change (lines 28-34), the date a row shows
    ([toLocaleDateString]) and the markup of the components are not
    part of the embedding: nothing stated below reads them. *)

From Stdlib Require Import ZArith Bool List Ascii String Lia.
From Stdlib Require Import Floats.SpecFloat.
From Stdlib Require Import Sorting.Sorted.
From Stdlib Require Import QArith Qabs Qpower Lqa.
From stdpp Require Import gmap strings list.

Open Scope Z_scope.

(** ** JavaScript numbers *)

Module JsNum.

Definition prec : Z := 53.
Definition emax : Z := 1024.

Abbreviation number := spec_float.

Definition NaN : number := S754_nan.
Definition zero : number := S754_zero false.
Definition Infinity : number := S754_infinity false.

(** [x + y], [x - y], [x <= y], [x === y] and the global [isNaN] on numbers. *)
Definition add (x y : number) : number := SFadd prec emax x y.
Definition sub (x y : number) : number := SFsub prec emax x y.
Definition leb (x y : number) : bool := SFleb x y.
Definition eqb (x y : number) : bool := SFeqb x y.

Definition isNaN (x : number) : bool :=
  match x with S754_nan => true | _ => false end.

Definition is_zero (x : number) : bool :=
  match x with S754_zero _ => true | _ => false end.

Definition is_finite (x : number) : bool :=
  match x with S754_zero _ | S754_finite _ _ _ => true | _ => false end.

Definition is_infinite (x : number) : bool :=
  match x with S754_infinity _ => true | _ => false end.

(** The number nearest to an integer (ties to even). *)
Definition of_Z (z : Z) : number := binary_normalize prec emax z 0 false.

(** The number nearest to [m * 10 ^ e10], negated when [neg]: the value
    of a decimal literal with digits [m] and decimal exponent [e10]. *)
Definition of_decimal (neg : bool) (m : N) (e10 : Z) : number :=
  match m with
  | N0 => S754_zero neg
  | Npos p =>
      match e10 with
      | Z0 => binary_round prec emax neg p 0
      | Zpos k => binary_round prec emax neg (p * Pos.pow 10 k) 0
      | Zneg k =>
          SFdiv prec emax (S754_finite neg p 0) (S754_finite false (Pos.pow 10 k) 0)
      end
  end.

(** [ToIntegerOrInfinity] restricted to what has an integer value:
    truncation towards zero; [None] for NaN and the infinities. *)
Definition truncate (x : number) : option Z :=
  match x with
  | S754_zero _ => Some 0
  | S754_finite s m (Zneg k) => Some (cond_Zopp s (Z.pos m / Z.pow_pos 2 k))
  | S754_finite s m e => Some (cond_Zopp s (Z.pos m * 2 ^ e))
  | _ => None
  end.

End JsNum.

Export JsNum.

(** ** Reading numbers out of strings *)

Module JsText.

Definition is_digit (c : ascii) : bool :=
  let n := nat_of_ascii c in (Nat.leb 48 n && Nat.leb n 57)%bool.

Definition digit_value (c : ascii) : N := N.of_nat (nat_of_ascii c - 48).

(** The ASCII members of [StrWhiteSpaceChar]: TAB, LF, VT, FF, CR, SP.
    Strings are byte strings here, so the non-ASCII white space of
    Unicode is not recognised. *)
Definition is_space (c : ascii) : bool :=
  let n := nat_of_ascii c in ((Nat.leb 9 n && Nat.leb n 13) || Nat.eqb n 32)%bool.

Fixpoint skip_space (s : list ascii) : list ascii :=
  match s with
  | c :: r => if is_space c then skip_space r else s
  | [] => []
  end.

Fixpoint take_digits (s : list ascii) : list ascii * list ascii :=
  match s with
  | c :: r =>
      if is_digit c then let '(ds, rest) := take_digits r in (c :: ds, rest)
      else ([], s)
  | [] => ([], [])
  end.

Definition digits_value (ds : list ascii) : N :=
  fold_left (fun acc c => (acc * 10 + digit_value c)%N) ds 0%N.

Definition take_sign (s : list ascii) : bool * list ascii :=
  match s with
  | "-"%char :: r => (true, r)
  | "+"%char :: r => (false, r)
  | _ => (false, s)
  end.

Fixpoint starts_with (p s : list ascii) : bool :=
  match p, s with
  | [], _ => true
  | a :: p', b :: s' => (Ascii.eqb a b && starts_with p' s')%bool
  | _ :: _, [] => false
  end.

(** The exponent part of a decimal literal: [e] or [E], an optional
    sign and at least one digit; anything else is no exponent part. *)
Definition exponent_part (s : list ascii) : Z :=
  match s with
  | c :: r =>
      if (Ascii.eqb c "e" || Ascii.eqb c "E")%bool then
        let '(neg, r') := take_sign r in
        match fst (take_digits r') with
        | [] => 0
        | ds => cond_Zopp neg (Z.of_N (digits_value ds))
        end
      else 0
  | [] => 0
  end.

(** The longest prefix that is an unsigned [StrDecimalLiteral] other
    than [Infinity], as digits and a decimal exponent. *)
Definition decimal_prefix (s : list ascii) : option (N * Z) :=
  let '(ip, r1) := take_digits s in
  let '(fp, r2) :=
    match r1 with
    | "."%char :: r => take_digits r
    | _ => ([], r1)
    end in
  match ip ++ fp with
  | [] => None
  | ds => Some (digits_value ds, exponent_part r2 - Z.of_nat (length fp))
  end.

(** [parseFloat] on a string. *)
Definition parseFloat_string (s : string) : number :=
  let '(neg, r) := take_sign (skip_space (list_ascii_of_string s)) in
  if starts_with (list_ascii_of_string "Infinity") r then S754_infinity neg
  else
    match decimal_prefix r with
    | None => NaN
    | Some (m, e) => of_decimal neg m e
    end.

Definition hex_value (c : ascii) : option N :=
  let n := nat_of_ascii c in
  if (Nat.leb 48 n && Nat.leb n 57)%bool then Some (N.of_nat (n - 48))
  else if (Nat.leb 97 n && Nat.leb n 102)%bool then Some (N.of_nat (n - 87))
  else if (Nat.leb 65 n && Nat.leb n 70)%bool then Some (N.of_nat (n - 55))
  else None.

Fixpoint take_hex (acc : option N) (s : list ascii) : option N :=
  match s with
  | c :: r =>
      match hex_value c with
      | Some d => take_hex (Some (default 0%N acc * 16 + d)%N) r
      | None => acc
      end
  | [] => acc
  end.

(** [parseInt] on a string with no radix argument: radix 16 after a
    [0x] prefix, radix 10 otherwise; [None] stands for NaN. The result
    of [parseInt] is integral, and it is kept as an exact integer. *)
Definition parseInt (s : string) : option Z :=
  let '(neg, r) := take_sign (skip_space (list_ascii_of_string s)) in
  match r with
  | "0"%char :: x :: r' =>
      if (Ascii.eqb x "x" || Ascii.eqb x "X")%bool then
        option_map (fun n => cond_Zopp neg (Z.of_N n)) (take_hex None r')
      else Some (cond_Zopp neg (Z.of_N (digits_value (fst (take_digits r)))))
  | _ =>
      match fst (take_digits r) with
      | [] => None
      | ds => Some (cond_Zopp neg (Z.of_N (digits_value ds)))
      end
  end.

End JsText.

Export JsText.

(** ** Primitive values *)

Inductive prim : Type :=
  | VUndefined
  | VNull
  | VBool (b : bool)
  | VNum (n : number)
  | VStr (s : string).

(** [ToBoolean]: what [!v], [v || w] and [v ? a : b] test. *)
Definition ToBoolean (v : prim) : bool :=
  match v with
  | VUndefined | VNull => false
  | VBool b => b
  | VNum n => negb (is_zero n || isNaN n)
  | VStr s => negb (String.eqb s "")
  end.

(** [v === w]. *)
Definition strict_eq (v w : prim) : bool :=
  match v, w with
  | VUndefined, VUndefined => true
  | VNull, VNull => true
  | VBool a, VBool b => Bool.eqb a b
  | VNum a, VNum b => JsNum.eqb a b
  | VStr a, VStr b => String.eqb a b
  | _, _ => false
  end.

(** [v || w]. *)
Definition or_else (v w : prim) : prim := if ToBoolean v then v else w.

(** [parseFloat(v)]: the argument is first converted to a string. The
    strings of [undefined], [null], [true] and [false] hold no number.
    The string of a number reads back as that number, except that the
    string of [-0] is ["0"]. *)
Definition parseFloat (v : prim) : number :=
  match v with
  | VStr s => parseFloat_string s
  | VNum (S754_zero _) => zero
  | VNum n => n
  | _ => NaN
  end.

(** ** Dates

    [new Date(v)] holds a time value: milliseconds since the epoch, or
    NaN for an invalid date ([None] here). What the source reads from a
    date is its local calendar year and month. How a string is read and
    which offset local time has belong to the browser: they form the
    host record, and the filter is stated for every host. *)

Module JsDate.

Record DateHost : Type := {
  Date_parse : string -> option Z;
  LocalTZA : Z -> Z
}.

Definition msPerDay : Z := 86400000.

Definition TimeClip (t : Z) : option Z :=
  if Z.abs t <=? 8640000000000000 then Some t else None.

(** The proleptic Gregorian calendar, counted in days since the epoch
    with years beginning in March. *)
Definition civil_of_days (days : Z) : Z * Z * Z :=
  let z := days + 719468 in
  let era := z / 146097 in
  let doe := z - era * 146097 in
  let yoe := (doe - doe / 1460 + doe / 36524 - doe / 146096) / 365 in
  let doy := doe - (365 * yoe + yoe / 4 - yoe / 100) in
  let mp := (5 * doy + 2) / 153 in
  let d := doy - (153 * mp + 2) / 5 + 1 in
  let m := if mp <? 10 then mp + 3 else mp - 9 in
  let y := yoe + era * 400 + (if m <=? 2 then 1 else 0) in
  (y, m, d).

Definition days_of_civil (y m d : Z) : Z :=
  let y' := if m <=? 2 then y - 1 else y in
  let era := y' / 400 in
  let yoe := y' - era * 400 in
  let doy := (153 * (if 2 <? m then m - 3 else m + 9) + 2) / 5 + d - 1 in
  let doe := yoe * 365 + yoe / 4 - yoe / 100 + doy in
  era * 146097 + doe - 719468.

Definition YearFromTime (t : Z) : Z :=
  let '(y, _, _) := civil_of_days (t / msPerDay) in y.

(** Zero-based, as [getMonth] reports it. *)
Definition MonthFromTime (t : Z) : Z :=
  let '(_, m, _) := civil_of_days (t / msPerDay) in m - 1.

(** [new Date(v)] for a primitive [v], as a time value. *)
Definition newDate (h : DateHost) (v : prim) : option Z :=
  match v with
  | VStr s => Date_parse h s
  | VNum n => match truncate n with Some t => TimeClip t | None => None end
  | VBool b => Some (if b then 1 else 0)
  | VNull => Some 0
  | VUndefined => None
  end.

Definition getFullYear (h : DateHost) (d : option Z) : option Z :=
  option_map (fun t => YearFromTime (t + LocalTZA h t)) d.

Definition getMonth (h : DateHost) (d : option Z) : option Z :=
  option_map (fun t => MonthFromTime (t + LocalTZA h t)) d.

(** [a === b] on two integral numbers, NaN being [None]. *)
Definition same_number (a b : option Z) : bool :=
  match a, b with
  | Some x, Some y => x =? y
  | _, _ => false
  end.

(** A reference host. It reads the one string format the form's date
    input produces, [YYYY-MM-DD], as midnight UTC, takes every other
    string for an invalid date, and keeps local time at UTC. *)
Definition days_in_month (y m : Z) : Z :=
  days_of_civil (if m =? 12 then y + 1 else y) (if m =? 12 then 1 else m + 1) 1
  - days_of_civil y m 1.

Definition iso_date (s : string) : option Z :=
  match list_ascii_of_string s with
  | [y1; y2; y3; y4; "-"%char; m1; m2; "-"%char; d1; d2] =>
      if forallb is_digit [y1; y2; y3; y4; m1; m2; d1; d2] then
        let y := Z.of_N (digits_value [y1; y2; y3; y4]) in
        let m := Z.of_N (digits_value [m1; m2]) in
        let d := Z.of_N (digits_value [d1; d2]) in
        if ((1 <=? m) && (m <=? 12) && (1 <=? d) && (d <=? days_in_month y m))%bool
        then Some (days_of_civil y m d * msPerDay)
        else None
      else None
  | _ => None
  end.

Definition utc_host : DateHost :=
  {| Date_parse := iso_date; LocalTZA := fun _ => 0 |}.

End JsDate.

Export JsDate.

(** ** Exceptions and the console *)

Inductive exn : Type := SyntaxError | SecurityError.

Inductive outcome (A : Type) : Type :=
  | Return (a : A)
  | Throw (e : exn).

Arguments Return {A} a.
Arguments Throw {A} e.

Definition bind {A B : Type} (m : outcome A) (k : A -> outcome B) : outcome B :=
  match m with
  | Return a => k a
  | Throw e => Throw e
  end.

Notation "'let!' x ':=' m 'in' k" := (bind m (fun x => k))
  (at level 10, x name, m at level 100, k at level 200).

(** [try { body } catch (error) { handler }] where the handler writes
    one line to the console and yields a value. *)
Definition try_catch {A : Type} (body : outcome A) (handler : exn -> string * A)
  : outcome A * list string :=
  match body with
  | Return a => (Return a, [])
  | Throw e => let '(line, a) := handler e in (Return a, [line])
  end.

(** ** JSON text *)

Module Json.

#[warnings="-register-all"]
Inductive json : Type :=
  | JNull
  | JBool (b : bool)
  | JNum (n : number)
  | JStr (s : string)
  | JArr (items : list json)
  | JObj (members : list (string * json)).

Definition is_json_space (c : ascii) : bool :=
  let n := nat_of_ascii c in
  (Nat.eqb n 32 || Nat.eqb n 9 || Nat.eqb n 10 || Nat.eqb n 13)%bool.

Fixpoint json_skip (s : list ascii) : list ascii :=
  match s with
  | c :: r => if is_json_space c then json_skip r else s
  | [] => []
  end.

Definition expect (word : string) (v : json) (s : list ascii) : option (json * list ascii) :=
  let w := list_ascii_of_string word in
  if starts_with w s then Some (v, skipn (length w) s) else None.

(** A UTF-16 code unit of a [\u] escape, stored as bytes. *)
Definition code_unit_bytes (cu : N) : list ascii :=
  if (cu <? 128)%N then [ascii_of_N cu]
  else if (cu <? 2048)%N then
    [ascii_of_N (192 + cu / 64); ascii_of_N (128 + cu mod 64)]
  else
    [ascii_of_N (224 + cu / 4096); ascii_of_N (128 + (cu / 64) mod 64);
     ascii_of_N (128 + cu mod 64)].

Definition hex4 (a b c d : ascii) : option N :=
  match hex_value a, hex_value b, hex_value c, hex_value d with
  | Some x, Some y, Some z, Some w => Some (((x * 16 + y) * 16 + z) * 16 + w)%N
  | _, _, _, _ => None
  end.

(** The double quote character. *)
Definition quote : ascii := ascii_of_nat 34.

(** The characters of a string literal after its opening quote. *)
Fixpoint string_body (fuel : nat) (acc : list ascii) (s : list ascii)
  : option (string * list ascii) :=
  match fuel with
  | O => None
  | S fuel' =>
      match s with
      | [] => None
      | "\"%char :: e :: r =>
          match e with
          | "\"%char | "/"%char => string_body fuel' (e :: acc) r
          | "b"%char => string_body fuel' ("008"%char :: acc) r
          | "f"%char => string_body fuel' ("012"%char :: acc) r
          | "n"%char => string_body fuel' ("010"%char :: acc) r
          | "r"%char => string_body fuel' ("013"%char :: acc) r
          | "t"%char => string_body fuel' ("009"%char :: acc) r
          | "u"%char =>
              match r with
              | a :: b :: c :: d :: r' =>
                  match hex4 a b c d with
                  | Some cu => string_body fuel' (rev (code_unit_bytes cu) ++ acc) r'
                  | None => None
                  end
              | _ => None
              end
          | _ =>
              if Ascii.eqb e quote then string_body fuel' (e :: acc) r else None
          end
      | c :: r =>
          if Ascii.eqb c quote then Some (string_of_list_ascii (rev acc), r)
          else if Nat.ltb (nat_of_ascii c) 32 then None
          else if Ascii.eqb c "\" then None
          else string_body fuel' (c :: acc) r
      end
  end.

(** A number literal: no leading zeros, digits on both sides of the
    point, digits in the exponent. *)
Definition number_literal (s : list ascii) : option (number * list ascii) :=
  let '(neg, r0) := match s with "-"%char :: r => (true, r) | _ => (false, s) end in
  let '(ip, r1) := take_digits r0 in
  match ip with
  | [] => None
  | d :: more =>
      if (Ascii.eqb d "0" && negb (Nat.eqb (length more) 0))%bool then None
      else
        let frac :=
          match r1 with
          | "."%char :: r =>
              let '(fp, r2) := take_digits r in
              match fp with [] => None | _ => Some (fp, r2) end
          | _ => Some ([], r1)
          end in
        match frac with
        | None => None
        | Some (fp, r2) =>
            let expo :=
              match r2 with
              | c :: r =>
                  if (Ascii.eqb c "e" || Ascii.eqb c "E")%bool then
                    let '(eneg, r3) := take_sign r in
                    let '(ed, r4) := take_digits r3 in
                    match ed with
                    | [] => None
                    | _ => Some (cond_Zopp eneg (Z.of_N (digits_value ed)), r4)
                    end
                  else Some (0, r2)
              | [] => Some (0, r2)
              end in
            match expo with
            | None => None
            | Some (e, rest) =>
                Some (of_decimal neg (digits_value (ip ++ fp)) (e - Z.of_nat (length fp)), rest)
            end
        end
  end.

Fixpoint parse_value (fuel : nat) (s : list ascii) {struct fuel}
  : option (json * list ascii) :=
  match fuel with
  | O => None
  | S fuel' =>
      match json_skip s with
      | [] => None
      | ("n"%char :: _) as t => expect "null" JNull t
      | ("t"%char :: _) as t => expect "true" (JBool true) t
      | ("f"%char :: _) as t => expect "false" (JBool false) t
      | "["%char :: r =>
          match json_skip r with
          | "]"%char :: rest => Some (JArr [], rest)
          | r' => parse_elements fuel' [] r'
          end
      | "{"%char :: r =>
          match json_skip r with
          | "}"%char :: rest => Some (JObj [], rest)
          | r' => parse_members fuel' [] r'
          end
      | (c :: r) as t =>
          if Ascii.eqb c quote then
            match string_body (S (length r)) [] r with
            | Some (str, rest) => Some (JStr str, rest)
            | None => None
            end
          else
            match number_literal t with
            | Some (n, rest) => Some (JNum n, rest)
            | None => None
            end
      end
  end
with parse_elements (fuel : nat) (acc : list json) (s : list ascii) {struct fuel}
  : option (json * list ascii) :=
  match fuel with
  | O => None
  | S fuel' =>
      match parse_value fuel' s with
      | None => None
      | Some (v, r) =>
          match json_skip r with
          | ","%char :: r' => parse_elements fuel' (v :: acc) r'
          | "]"%char :: r' => Some (JArr (rev (v :: acc)), r')
          | _ => None
          end
      end
  end
with parse_members (fuel : nat) (acc : list (string * json)) (s : list ascii) {struct fuel}
  : option (json * list ascii) :=
  match fuel with
  | O => None
  | S fuel' =>
      match json_skip s with
      | c :: r =>
          if negb (Ascii.eqb c quote) then None else
          match string_body (S (length r)) [] r with
          | None => None
          | Some (key, r1) =>
              match json_skip r1 with
              | ":"%char :: r2 =>
                  match parse_value fuel' r2 with
                  | None => None
                  | Some (v, r3) =>
                      match json_skip r3 with
                      | ","%char :: r4 => parse_members fuel' ((key, v) :: acc) r4
                      | "}"%char :: r4 => Some (JObj (rev ((key, v) :: acc)), r4)
                      | _ => None
                      end
                  end
              | _ => None
              end
          end
      | _ => None
      end
  end.

(** [JSON.parse(text)]: the value of the text, or a [SyntaxError]. *)
Definition JSON_parse (text : string) : outcome json :=
  let s := list_ascii_of_string text in
  match parse_value (2 * length s + 2) s with
  | Some (v, rest) =>
      match json_skip rest with
      | [] => Return v
      | _ => Throw SyntaxError
      end
  | None => Throw SyntaxError
  end.

(** A string between double quotes, for writing JSON text. *)
Definition quoted (s : string) : string :=
  String quote (s +:+ String quote EmptyString).

End Json.

Export Json.

(** ** Expense objects

    An expense is a JavaScript object: a finite map from property names
    to primitives. Reading a property the object lacks gives
    [undefined]. *)

Abbreviation expense := (gmap string prim).

Definition get (o : expense) (k : string) : prim := default VUndefined (o !! k).

(** The collection a parsed blob stands for, when it is an array of
    objects with primitive properties; a later member of an object
    overrides an earlier one of the same name. *)
Definition primitive (j : json) : option prim :=
  match j with
  | JNull => Some VNull
  | JBool b => Some (VBool b)
  | JNum n => Some (VNum n)
  | JStr s => Some (VStr s)
  | JArr _ | JObj _ => None
  end.

Definition object (members : list (string * json)) : option expense :=
  fold_left
    (fun acc member =>
       match acc, primitive (snd member) with
       | Some o, Some v => Some (<[fst member := v]> o)
       | _, _ => None
       end)
    members (Some ∅).

Definition collection (j : json) : option (list expense) :=
  match j with
  | JArr items =>
      mapM (fun item => match item with JObj ms => object ms | _ => None end) items
  | _ => None
  end.

(** ** The [App] component *)

Module App.

(** [localStorage]: a string-keyed store of strings, or a store the
    browser refuses access to. *)
Inductive Storage : Type :=
  | Unavailable
  | Available (items : gmap string string).

Definition getItem (ls : Storage) (key : string) : outcome (option string) :=
  match ls with
  | Unavailable => Throw SecurityError
  | Available items => Return (items !! key)
  end.

(** The initialiser of the [expenses] state (lines 9-17): the value it
    returns or the exception it lets through, and the lines it writes
    to the console. An absent item is [null] and, like the empty
    string, falsy. *)
Definition initialExpenses (ls : Storage) : outcome json * list string :=
  try_catch
    (let! savedExpenses := getItem ls "expenses" in
     match savedExpenses with
     | Some text => if String.eqb text "" then Return (JArr []) else JSON_parse text
     | None => Return (JArr [])
     end)
    (fun error => ("Error parsing expenses from localStorage"%string, JArr [])).

Record AppState : Type := {
  expenses : list expense;
  isFormOpen : bool;
  editingExpense : option expense;
  categoryFilter : string;
  monthFilter : string;
  yearFilter : string;
  isChartVisible : bool
}.

Definition setExpenses (v : list expense) (st : AppState) : AppState :=
  {| expenses := v; isFormOpen := isFormOpen st; editingExpense := editingExpense st;
     categoryFilter := categoryFilter st; monthFilter := monthFilter st;
     yearFilter := yearFilter st; isChartVisible := isChartVisible st |}.

Definition setIsFormOpen (v : bool) (st : AppState) : AppState :=
  {| expenses := expenses st; isFormOpen := v; editingExpense := editingExpense st;
     categoryFilter := categoryFilter st; monthFilter := monthFilter st;
     yearFilter := yearFilter st; isChartVisible := isChartVisible st |}.

Definition setEditingExpense (v : option expense) (st : AppState) : AppState :=
  {| expenses := expenses st; isFormOpen := isFormOpen st; editingExpense := v;
     categoryFilter := categoryFilter st; monthFilter := monthFilter st;
     yearFilter := yearFilter st; isChartVisible := isChartVisible st |}.

Definition setFilters (category month year : string) (st : AppState) : AppState :=
  {| expenses := expenses st; isFormOpen := isFormOpen st;
     editingExpense := editingExpense st;
     categoryFilter := category; monthFilter := month;
     yearFilter := year; isChartVisible := isChartVisible st |}.

(** The state of the first render. *)
Definition initialState (loaded : list expense) : AppState :=
  {| expenses := loaded; isFormOpen := false; editingExpense := None;
     categoryFilter := "All"; monthFilter := "All"; yearFilter := "All";
     isChartVisible := false |}.

(** [addExpense] (lines 37-40); [now] is what [Date.now()] returns. *)
Definition addExpense (now : Z) (draft : expense) (st : AppState) : AppState :=
  setIsFormOpen false
    (setExpenses
       (expenses st ++ [<["paid" := VBool false]> (<["id" := VNum (of_Z now)]> draft)])
       st).

(** [updateExpense] (lines 42-46). *)
Definition updateExpense (updatedExpense : expense) (st : AppState) : AppState :=
  setIsFormOpen false
    (setEditingExpense None
       (setExpenses
          (map (fun exp =>
                  if strict_eq (get exp "id") (get updatedExpense "id")
                  then updatedExpense else exp)
               (expenses st))
          st)).

(** [deleteExpense] (lines 48-52); [confirmed] is the answer of
    [window.confirm]. *)
Definition deleteExpense (confirmed : bool) (id : prim) (st : AppState) : AppState :=
  if confirmed then
    setExpenses
      (List.filter (fun exp => negb (strict_eq (get exp "id") id)) (expenses st)) st
  else st.

(** [togglePaid] (lines 54-56). *)
Definition togglePaid (id : prim) (st : AppState) : AppState :=
  setExpenses
    (map (fun exp =>
            if strict_eq (get exp "id") id
            then <["paid" := VBool (negb (ToBoolean (get exp "paid")))]> exp
            else exp)
         (expenses st))
    st.

Definition handleEdit (e : expense) (st : AppState) : AppState :=
  setIsFormOpen true (setEditingExpense (Some e) st).

Definition handleAddNew (st : AppState) : AppState :=
  setIsFormOpen true (setEditingExpense None st).

Definition handleCloseForm (st : AppState) : AppState :=
  setEditingExpense None (setIsFormOpen false st).

(** The predicate of [filteredExpenses] (lines 76-87). *)
Definition shown (h : DateHost) (st : AppState) (e : expense) : bool :=
  if negb (ToBoolean (get e "dueDate")) then false
  else
    let expenseDate := newDate h (get e "dueDate") in
    let expenseMonth := getMonth h expenseDate in
    let expenseYear := getFullYear h expenseDate in
    let categoryMatch :=
      String.eqb (categoryFilter st) "All"
      || strict_eq (get e "category") (VStr (categoryFilter st)) in
    let yearMatch :=
      String.eqb (yearFilter st) "All"
      || same_number expenseYear (parseInt (yearFilter st)) in
    let monthMatch :=
      String.eqb (monthFilter st) "All"
      || same_number expenseMonth (parseInt (monthFilter st)) in
    categoryMatch && yearMatch && monthMatch.

Definition filteredExpenses (h : DateHost) (st : AppState) : list expense :=
  List.filter (shown h st) (expenses st).

(** The summary (lines 90-92), over the filtered sequence. *)
Definition totalExpenses (filtered : list expense) : number :=
  fold_left
    (fun sum exp => add sum (parseFloat (or_else (get exp "amount") (VNum zero))))
    filtered zero.

Definition paidExpenses (filtered : list expense) : number :=
  fold_left
    (fun sum exp => add sum (parseFloat (or_else (get exp "amount") (VNum zero))))
    (List.filter (fun exp => ToBoolean (get exp "paid")) filtered) zero.

Definition unpaidExpenses (filtered : list expense) : number :=
  sub (totalExpenses filtered) (paidExpenses filtered).

End App.

Export App.

(** ** The [ExpenseChart] component *)

Module ExpenseChart.

Record item : Type := { name : prim; value : number }.

(** The reducer of [chartData] (lines 240-251). [acc.find] returns the
    first entry of that name, and [+=] updates that entry in place. *)
Definition chartStep (acc : list item) (e : expense) : list item :=
  let category := get e "category" in
  let amount := get e "amount" in
  let numericAmount := parseFloat amount in
  if isNaN numericAmount then acc
  else
    match list_find (fun it => strict_eq (name it) category = true) acc with
    | Some (i, existingCategory) =>
        <[i := {| name := name existingCategory;
                  value := add (value existingCategory) numericAmount |}]> acc
    | None => acc ++ [{| name := category; value := numericAmount |}]
    end.

Definition chartData (filtered : list expense) : list item :=
  fold_left chartStep filtered [].

End ExpenseChart.

Export ExpenseChart.

(** ** The [ExpenseForm] component *)

Module ExpenseForm.

Record FormState : Type := {
  name : prim;
  amount : prim;
  dueDate : prim;
  category : prim;
  error : string
}.

Definition setError (msg : string) (f : FormState) : FormState :=
  {| name := name f; amount := amount f; dueDate := dueDate f;
     category := category f; error := msg |}.

(** The first state of the form (lines 307-311): the fields of the
    expense being edited, or the defaults. *)
Definition initialForm (existingExpense : option expense) (categories : list string)
  : FormState :=
  let field k fallback :=
    match existingExpense with
    | Some e => or_else (get e k) fallback
    | None => fallback
    end in
  {| name := field "name"%string (VStr "");
     amount := field "amount"%string (VStr "");
     dueDate := field "dueDate"%string (VStr "");
     category := field "category"%string
                   (match categories with c :: _ => VStr c | [] => VUndefined end);
     error := "" |}.

(** What the user types or picks replaces a field by a string. *)
Definition setName (s : string) (f : FormState) : FormState :=
  {| name := VStr s; amount := amount f; dueDate := dueDate f;
     category := category f; error := error f |}.

Definition setAmount (s : string) (f : FormState) : FormState :=
  {| name := name f; amount := VStr s; dueDate := dueDate f;
     category := category f; error := error f |}.

Definition setDueDate (s : string) (f : FormState) : FormState :=
  {| name := name f; amount := amount f; dueDate := VStr s;
     category := category f; error := error f |}.

Definition setCategory (s : string) (f : FormState) : FormState :=
  {| name := name f; amount := amount f; dueDate := dueDate f;
     category := VStr s; error := error f |}.

(** The object literal [{ name, amount, dueDate, category }]. *)
Definition expenseData (f : FormState) : expense :=
  <["category" := category f]>
    (<["dueDate" := dueDate f]> (<["amount" := amount f]> (<["name" := name f]> ∅))).

(** [handleSubmit] (lines 313-330), with [onAdd] and [onUpdate] bound
    to [addExpense] and [updateExpense] as [App] passes them. The
    spread [{ ...existingExpense, ...expenseData }] is the union that
    prefers the draft. *)
Definition handleSubmit (now : Z) (existingExpense : option expense)
    (f : FormState) (st : AppState) : FormState * AppState :=
  if negb (ToBoolean (name f)) || negb (ToBoolean (amount f))
     || negb (ToBoolean (dueDate f)) || negb (ToBoolean (category f))
  then (setError "All fields are required." f, st)
  else if leb (parseFloat (amount f)) zero
  then (setError "Amount must be greater than zero." f, st)
  else
    let f' := setError "" f in
    match existingExpense with
    | Some existing => (f', updateExpense (expenseData f ∪ existing) st)
    | None => (f', addExpense now (expenseData f) st)
    end.

End ExpenseForm.

Export ExpenseForm.

(** ** [Array.prototype.sort], [Set] and the string of an integer

    [sort] with a comparator is stable, and for a consistent comparator
    its result is the sorted order; it is modelled by insertion from
    the right, which keeps ties in their original order. [le a b] says
    that the comparator's result on [a] and [b] is not positive, a NaN
    result counting as zero. For a comparator that is not consistent
    the standard leaves the order to the implementation, and the model
    gives one rearrangement. *)

Fixpoint insert_sorted {A : Type} (le : A -> A -> bool) (x : A) (l : list A) : list A :=
  match l with
  | [] => [x]
  | y :: r => if le x y then x :: y :: r else y :: insert_sorted le x r
  end.

Fixpoint Array_sort {A : Type} (le : A -> A -> bool) (l : list A) : list A :=
  match l with
  | [] => []
  | x :: r => insert_sorted le x (Array_sort le r)
  end.

(** [Array.from(new Set(years))] on integral numbers: each value once,
    in the order of first insertion; NaN ([None]) is the same value as
    NaN there. *)
Definition Set_values (l : list (option Z)) : list (option Z) :=
  fold_left (fun seen y => if decide (y ∈ seen) then seen else seen ++ [y]) l [].

(** The decimal digits of a natural number, most significant first. *)
Fixpoint decimal_digits (fuel : nat) (n : N) (acc : list ascii) : list ascii :=
  match fuel with
  | O => acc
  | S fuel' =>
      let acc' := ascii_of_N (48 + n mod 10) :: acc in
      if (n <? 10)%N then acc' else decimal_digits fuel' (n / 10) acc'
  end.

Definition decimal (n : N) : list ascii :=
  decimal_digits (S (N.to_nat (N.log2 n))) n [].

(** [String(n)] for an integral number, NaN being [None]. *)
Definition ToString_integer (n : option Z) : string :=
  match n with
  | None => "NaN"
  | Some z =>
      string_of_list_ascii
        (if z <? 0 then "-"%char :: decimal (Z.abs_N z) else decimal (Z.abs_N z))
  end.

(** ** [Number.prototype.toFixed]

    [Number::toString] for a whole number [X] at or above [10 ^ 21],
    the one case in which [toFixed] hands its number over: the least
    count [k] of digits [s] with [s * 10 ^ (n - k)] rounding to the
    number, in exponent form. For each [k] the two integers around
    [X / 10 ^ (n - k)] are tried, the nearer one first and the even
    one on a tie; seventeen digits tell every number from every other,
    so the search ends. *)
Definition candidates (X : N) (len k : nat) : list (N * nat) :=
  let e := (10 ^ N.of_nat (len - k))%N in
  let lo := (X / e)%N in
  let hi := if (lo + 1 <? 10 ^ N.of_nat k)%N then ((lo + 1)%N, len)
            else ((10 ^ N.of_nat (k - 1))%N, S len) in
  let below := (X - lo * e)%N in
  let above := ((lo + 1) * e - X)%N in
  if (below <? above)%N then [(lo, len); hi]
  else if (above <? below)%N then [hi; (lo, len)]
  else if N.even lo then [(lo, len); hi] else [hi; (lo, len)].

Fixpoint shortest (x : number) (X : N) (len : nat) (k fuel : nat) : N * nat :=
  match fuel with
  | O => (X, len)
  | S fuel' =>
      match
        List.filter
          (fun '(s, n) => SFeqb (of_decimal false s (Z.of_nat n - Z.of_nat k)) x)
          (candidates X len k)
      with
      | c :: _ => c
      | [] => shortest x X len (S k) fuel'
      end
  end.

Definition ToString_large (x : number) (X : N) : list ascii :=
  let '(s, n) := shortest x X (length (decimal X)) 1 17 in
  let exponent := "e"%char :: "+"%char :: decimal (N.of_nat (n - 1)) in
  match decimal s with
  | [d] => d :: exponent
  | d :: ds => d :: "."%char :: ds ++ exponent
  | [] => exponent
  end.

(** The integer [n] for which [n / 10 ^ f] is nearest to
    [m * 2 ^ e], the larger one of two. *)
Definition nearest_scaled (m : positive) (e : Z) (f : nat) : N :=
  match e with
  | Zneg k => ((2 * Npos m * 10 ^ N.of_nat f + 2 ^ Npos k) / (2 * 2 ^ Npos k))%N
  | _ => (Npos m * 2 ^ Z.to_N e * 10 ^ N.of_nat f)%N
  end.

(** The digits of [n] with the point before the last [f] of them,
    zeros being put in front so that one digit stands before the
    point. *)
Definition fixed_point (f : nat) (n : N) : list ascii :=
  let m := decimal n in
  if Nat.eqb f 0 then m
  else
    let m := if Nat.leb (length m) f then repeat "0"%char (S f - length m) ++ m else m in
    let k := length m in
    firstn (k - f) m ++ "."%char :: skipn (k - f) m.

(** [x.toFixed(fractionDigits)] for [0 <= fractionDigits <= 100],
    where no RangeError is thrown; the source passes 2. A number with
    a negative exponent has a mantissa below [2 ^ 53] and is below
    [10 ^ 21]. *)
Definition toFixed (fractionDigits : nat) (x : number) : string :=
  match x with
  | S754_nan => "NaN"
  | S754_infinity s => if s then "-Infinity" else "Infinity"
  | S754_zero _ => string_of_list_ascii (fixed_point fractionDigits 0)
  | S754_finite s m e =>
      let large :=
        match e with
        | Zneg _ => false
        | _ => (10 ^ 21 <=? Npos m * 2 ^ Z.to_N e)%N
        end in
      let digits :=
        if large then ToString_large (S754_finite false m e) (Npos m * 2 ^ Z.to_N e)
        else fixed_point fractionDigits (nearest_scaled m e fractionDigits) in
      string_of_list_ascii (if s then "-"%char :: digits else digits)
  end.

(** ** The year dropdown *)

Module Years.

(** An entry of [availableYears]: the text [All] or a year. *)
Inductive choice : Type :=
  | All
  | Year (y : option Z).

(** [availableYears] (line 73). The comparator [b - a] is not positive
    when [b <= a]. *)
Definition availableYears (h : DateHost) (st : AppState) : list choice :=
  All ::
  map Year
    (Array_sort
       (fun a b => match a, b with Some x, Some y => y <=? x | _, _ => true end)
       (Set_values
          (map (fun exp => getFullYear h (newDate h (get exp "dueDate")))
               (expenses st)))).

(** The [value] of the option the dropdown renders for an entry, which
    [onYearChange] stores as the year filter. *)
Definition option_value (c : choice) : string :=
  match c with
  | All => "All"
  | Year y => ToString_integer y
  end.

End Years.

Export Years.

(** ** The [ExpenseList] component *)

Module ExpenseList.

(** The order of the rows (line 381): [sort] by the difference of the
    two dates, which is NaN when either date is invalid. *)
Definition sortedByDueDate (h : DateHost) (l : list expense) : list expense :=
  Array_sort
    (fun a b =>
       match newDate h (get a "dueDate"), newDate h (get b "dueDate") with
       | Some x, Some y => x <=? y
       | _, _ => true
       end)
    l.

End ExpenseList.

Export ExpenseList.

(** ** The [ExpenseItem] component *)

Module ExpenseItem.

(** [isPastDue] (line 397); [now] is the time value of [new Date()].
    An invalid date is below nothing. *)
Definition isPastDue (h : DateHost) (now : Z) (e : expense) : bool :=
  negb (ToBoolean (get e "paid"))
  && match newDate h (get e "dueDate") with
     | Some t => t <? now
     | None => false
     end.

Definition itemBg (h : DateHost) (now : Z) (e : expense) : string :=
  if ToBoolean (get e "paid") then "bg-green-50"
  else if isPastDue h now e then "bg-red-50" else "bg-white".

Definition borderColor (h : DateHost) (now : Z) (e : expense) : string :=
  if ToBoolean (get e "paid") then "border-green-300"
  else if isPastDue h now e then "border-red-300" else "border-gray-200".

(** The amount a row shows (line 411). *)
Definition amountText (e : expense) : string :=
  "$" +:+ toFixed 2 (parseFloat (get e "amount")).

(** The label of the toggle button (line 426). *)
Definition toggleLabel (e : expense) : string :=
  if ToBoolean (get e "paid") then "Mark as Unpaid" else "Mark as Paid".

End ExpenseItem.

Export ExpenseItem.

(** ** The [FilterControls] component *)

Module FilterControls.

Definition months : list string :=
  ["January"; "February"; "March"; "April"; "May"; "June";
   "July"; "August"; "September"; "October"; "November"; "December"].

(** An option of the month dropdown: [value="All"], or the index of a
    month of [months], which the option carries as a string. *)
Definition month_value (m : option nat) : string :=
  match m with
  | None => "All"
  | Some index => ToString_integer (Some (Z.of_nat index))
  end.

(** The options the month dropdown renders, label and value. *)
Definition month_options : list (string * string) :=
  ("All Months"%string, month_value None)
  :: imap (fun index month => (month, month_value (Some index))) months.

End FilterControls.

Export FilterControls.

(** ** The [Summary] component *)

Module Summary.

(** What a card shows: its title and its amount (line 177). *)
Definition SummaryCard (title : string) (amount : number) : string * string :=
  (title, "$" +:+ toFixed 2 amount).

Definition Summary (total paid unpaid : number) : list (string * string) :=
  [SummaryCard "Total Expenses" total; SummaryCard "Paid" paid;
   SummaryCard "Remaining" unpaid].

End Summary.

Export Summary.

(** * The vocabulary of the statements *)

(** A record as the form and [addExpense] build it. *)
Definition record (id : Z) (name amount dueDate category : string) (paid : bool)
  : expense :=
  <["paid" := VBool paid]>
    (<["id" := VNum (of_Z id)]>
       (<["category" := VStr category]>
          (<["dueDate" := VStr dueDate]>
             (<["amount" := VStr amount]> (<["name" := VStr name]> ∅))))).

(** The form filled in for a rent of 1000. *)
Definition rent_form : FormState :=
  {| name := VStr "Rent"; amount := VStr "1000"; dueDate := VStr "2025-01-01";
     category := VStr "Rent/Mortgage"; error := "" |}.

(** The line the initialiser writes to the console when the read
    fails. *)
Definition load_diagnostic : string := "Error parsing expenses from localStorage".

(** ** Keys that never meet *)

(** No two entries of the list have [===] keys. *)
Definition pairwise_distinct {A : Type} (key : A -> prim) (l : list A) : Prop :=
  forall i j a b, i <> j -> l !! i = Some a -> l !! j = Some b ->
    strict_eq (key a) (key b) = false.

(** The same, by recursion on the list. *)
Fixpoint distinct {A : Type} (key : A -> prim) (l : list A) : Prop :=
  match l with
  | [] => True
  | a :: r => Forall (fun b => strict_eq (key a) (key b) = false) r /\ distinct key r
  end.

(** No two records of the collection share an id. *)
Definition unique_ids (l : list expense) : Prop :=
  pairwise_distinct (fun e => get e "id") l.

(** The timestamp is the id of no record of the collection. *)
Definition fresh (now : Z) (l : list expense) : Prop :=
  Forall (fun e => strict_eq (get e "id") (VNum (of_Z now)) = false) l.

(** The events that change the collection. *)
Inductive action : Type :=
  | Add (now : Z) (draft : expense)
  | Update (updatedExpense : expense)
  | Delete (confirmed : bool) (id : prim)
  | Toggle (id : prim).

Definition step (st : AppState) (a : action) : AppState :=
  match a with
  | Add now draft => addExpense now draft st
  | Update updatedExpense => updateExpense updatedExpense st
  | Delete confirmed id => deleteExpense confirmed id st
  | Toggle id => togglePaid id st
  end.

Definition run (acts : list action) (st : AppState) : AppState :=
  fold_left step acts st.

(** Every [Add] of the sequence happens at a timestamp that is, at
    that moment, the id of no record. *)
Fixpoint timely (acts : list action) (st : AppState) : Prop :=
  match acts with
  | [] => True
  | a :: rest =>
      match a with
      | Add now _ => fresh now (expenses st)
      | _ => True
      end
      /\ timely rest (step st a)
  end.

(** Every record carries, up to [===], a timestamp not after [clock]. *)
Definition stamped (clock : Z) (l : list expense) : Prop :=
  Forall (fun e => exists t, t <= clock /\ Z.abs t < 2 ^ 53
                    /\ strict_eq (get e "id") (VNum (of_Z t)) = true) l.

(** The adds of the sequence read a clock that strictly increases
    from [clock] on and stays below [2 ^ 53] in absolute value. *)
Fixpoint increasing (clock : Z) (acts : list action) : Prop :=
  match acts with
  | [] => True
  | Add now _ :: rest => clock < now /\ Z.abs now < 2 ^ 53 /\ increasing now rest
  | _ :: rest => increasing clock rest
  end.

(** ** Sums *)

(** The records that count: those whose amount reads as a number. *)
Definition numeric (l : list expense) : list expense :=
  List.filter (fun e => negb (isNaN (parseFloat (get e "amount")))) l.

(** The numeric amounts of the records of category [c], in order. *)
Definition amounts_of (c : prim) (l : list expense) : list number :=
  map (fun e => parseFloat (get e "amount"))
    (List.filter (fun e => strict_eq (get e "category") c) (numeric l)).

(** The distinct members of a list in the order of their first
    appearance. *)
Definition first_seen (cs : list prim) : list prim :=
  fold_left
    (fun seen c => if existsb (fun n => strict_eq n c) seen then seen else seen ++ [c])
    cs [].

(** The number of a whole value [z], [0 < |z| < 2 ^ 53]: the 53-bit
    mantissa that holds [|z|] and the exponent that goes with it. *)
Definition whole (s : bool) (p : positive) : number :=
  S754_finite s
    (Z.to_pos (Z.pos p * 2 ^ (53 - Z.pos (digits2_pos p))))
    (Z.pos (digits2_pos p) - 53).

(** The sum of the values [units] gives to the records, and the sum
    of their absolute values. *)
Definition sum_units (units : expense -> Z) (l : list expense) : Z :=
  fold_right (fun e acc => units e + acc) 0 l.

Definition sum_abs (units : expense -> Z) (l : list expense) : Z :=
  fold_right (fun e acc => Z.abs (units e) + acc) 0 l.

(** ** The value of a number *)

(** The mathematical value of a finite number, a rational; zero for
    the others. *)
Definition math_value (x : number) : Q :=
  match x with
  | S754_finite s m e => inject_Z (cond_Zopp s (Z.pos m)) * 2 ^ e
  | _ => 0
  end%Q.

(** ** The dropdowns *)

(** The calendar year and the zero-based month of a record's due date
    in local time, NaN being [None]. *)
Definition dueYear (h : DateHost) (e : expense) : option Z :=
  getFullYear h (newDate h (get e "dueDate")).

Definition dueMonth (h : DateHost) (e : expense) : option Z :=
  getMonth h (newDate h (get e "dueDate")).

(** What the filter keeps for a category, an option of the month
    dropdown and an entry of the year dropdown. *)
Definition selected (h : DateHost) (category : string) (m : option nat) (c : choice)
    (e : expense) : bool :=
  ToBoolean (get e "dueDate")
  && (String.eqb category "All" || strict_eq (get e "category") (VStr category))
  && match c with
     | All => true
     | Year (Some y) => same_number (dueYear h e) (Some y)
     | Year None => false
     end
  && match m with
     | None => true
     | Some index => same_number (dueMonth h e) (Some (Z.of_nat index))
     end.

(** ** Sums of integers *)

Definition Zsum (zs : list Z) : Z := fold_right Z.add 0 zs.
Definition Zsum_abs (zs : list Z) : Z := fold_right (fun z acc => Z.abs z + acc) 0 zs.

(** * Properties *)

(** ** The browser's functions at work *)

Example parseFloat_tenth :
  parseFloat (VStr "0.1") = S754_finite false 7205759403792794 (-56).
Proof. reflexivity. Qed.

Example parseFloat_forms :
  parseFloat (VStr "  12.50abc") = parseFloat (VStr "125e-1")
  /\ parseFloat (VStr "-5") = S754_finite true 5629499534213120 (-50)
  /\ parseFloat (VStr "1e999") = Infinity
  /\ parseFloat (VStr ".") = NaN
  /\ parseFloat (VStr "abc") = NaN
  /\ parseFloat (VStr "") = NaN
  /\ parseFloat (VNum (S754_zero true)) = zero.
Proof. vm_compute. repeat split. Qed.

Example parseInt_forms :
  parseInt "2025" = Some 2025 /\ parseInt " -7px" = Some (-7)
  /\ parseInt "0x1F" = Some 31 /\ parseInt "All" = None /\ parseInt "" = None.
Proof. vm_compute. repeat split. Qed.

Example new_date_forms :
  newDate utc_host (VStr "2025-03-01") = Some 1740787200000
  /\ getFullYear utc_host (newDate utc_host (VStr "2024-11-01")) = Some 2024
  /\ getMonth utc_host (newDate utc_host (VStr "2024-11-01")) = Some 10
  /\ getMonth utc_host (newDate utc_host (VStr "2024-02-29")) = Some 1
  /\ newDate utc_host (VStr "2025-02-29") = None
  /\ newDate utc_host (VStr "not a date") = None
  /\ getMonth utc_host (newDate utc_host (VStr "not a date")) = None.
Proof. vm_compute. repeat split. Qed.

Example JSON_parse_forms :
  JSON_parse "[]" = Return (JArr [])
  /\ JSON_parse (" [1, " +:+ quoted "a\n" +:+ ", null, {" +:+ quoted "k" +:+ ": [true]}] ")
     = Return (JArr [JNum (of_Z 1); JStr (String "a" (String "010" EmptyString));
                     JNull; JObj [("k"%string, JArr [JBool true])]])
  /\ JSON_parse "not json" = Throw SyntaxError
  /\ JSON_parse "[1,]" = Throw SyntaxError
  /\ JSON_parse "01" = Throw SyntaxError
  /\ JSON_parse "" = Throw SyntaxError
  /\ JSON_parse "[[[[[[]]]]]]"
     = Return (JArr [JArr [JArr [JArr [JArr [JArr []]]]]]).
Proof. vm_compute. repeat split. Qed.

(** ** Lists and objects *)

Lemma lookup_map {A B : Type} (f : A -> B) (l : list A) (i : nat) :
  map f l !! i = f <$> (l !! i).
Proof.
  revert i. induction l as [|a l IH]; intros [|i]; simpl; auto.
Qed.

Lemma get_insert_eq (o : expense) (k : string) (v : prim) :
  get (<[k := v]> o) k = v.
Proof. unfold get. by rewrite lookup_insert_eq. Qed.

Lemma get_insert_ne (o : expense) (k k' : string) (v : prim) :
  k <> k' -> get (<[k := v]> o) k' = get o k'.
Proof. intros Hne. unfold get. by rewrite lookup_insert_ne. Qed.

Lemma get_lookup (o o' : expense) (k : string) :
  o !! k = o' !! k -> get o k = get o' k.
Proof. unfold get. by intros ->. Qed.

(** The draft holds the four fields of the form and nothing else. *)
Lemma expenseData_lookup (f : FormState) (k : string) :
  expenseData f !! k =
    if decide (k = "category"%string) then Some (category f)
    else if decide (k = "dueDate"%string) then Some (dueDate f)
    else if decide (k = "amount"%string) then Some (amount f)
    else if decide (k = "name"%string) then Some (name f)
    else None.
Proof.
  unfold expenseData.
  repeat (case_decide; [subst; by simplify_map_eq |]).
  by rewrite !lookup_insert_ne by done.
Qed.

(** The record handed to [onUpdate]: the draft's four fields over the
    existing record's other properties. *)
Lemma spread_lookup (f : FormState) (existing : expense) (k : string) :
  (expenseData f ∪ existing) !! k =
    match expenseData f !! k with
    | Some v => Some v
    | None => existing !! k
    end.
Proof.
  destruct (expenseData f !! k) as [v|] eqn:E.
  - by apply lookup_union_Some_l.
  - by apply lookup_union_r.
Qed.

(** ** Rounding never invents a NaN *)

Lemma shr_1_nonneg (mrs : shr_record) : 0 <= shr_m mrs -> 0 <= shr_m (shr_1 mrs).
Proof.
  destruct mrs as [m r s]. simpl. intros Hm.
  destruct m as [|[p|p|]|p]; simpl; lia.
Qed.

Lemma iter_shr_1_nonneg (p : positive) (mrs : shr_record) :
  0 <= shr_m mrs -> 0 <= shr_m (SpecFloat.iter_pos shr_1 p mrs).
Proof.
  revert mrs. induction p as [p IH|p IH|]; intros mrs Hm; simpl.
  - by apply IH, IH, shr_1_nonneg.
  - by apply IH, IH.
  - by apply shr_1_nonneg.
Qed.

Lemma shr_fexp_nonneg (m e : Z) (l : location) :
  0 <= m -> 0 <= shr_m (fst (shr_fexp prec emax m e l)).
Proof.
  intros Hm. unfold shr_fexp, shr.
  assert (Hrec : 0 <= shr_m (shr_record_of_loc m l)) by (by destruct l as [|[]]).
  destruct (fexp prec emax (Zdigits2 m + e) - e); simpl; try done.
  by apply iter_shr_1_nonneg.
Qed.

Lemma round_nearest_even_nonneg (m : Z) (l : location) :
  0 <= m -> 0 <= round_nearest_even m l.
Proof.
  intros Hm. destruct l as [|[]]; simpl; try lia. destruct (Z.even m); lia.
Qed.

Lemma binary_round_aux_not_NaN (sx : bool) (mx ex : Z) (lx : location) :
  0 <= mx -> isNaN (binary_round_aux prec emax sx mx ex lx) = false.
Proof.
  intros Hm. unfold binary_round_aux.
  pose proof (shr_fexp_nonneg mx ex lx Hm) as H1.
  destruct (shr_fexp prec emax mx ex lx) as [mrs' e']. simpl in H1.
  pose proof (shr_fexp_nonneg _ e' loc_Exact
                (round_nearest_even_nonneg _ (loc_of_shr_record mrs') H1)) as H2.
  destruct (shr_fexp prec emax _ e' loc_Exact) as [mrs'' e'']. simpl in H2.
  destruct (shr_m mrs''); [done| |lia].
  by destruct (e'' <=? emax - prec).
Qed.

Lemma binary_normalize_not_NaN (m e : Z) (szero : bool) :
  isNaN (binary_normalize prec emax m e szero) = false.
Proof.
  destruct m as [|p|p]; simpl; [done| |]; unfold binary_round;
    destruct (shl_align _ _ _); by apply binary_round_aux_not_NaN.
Qed.

(** Adding a finite number to a number gives a number. *)
Lemma add_finite_not_NaN (x y : number) :
  isNaN x = false -> is_finite y = true -> isNaN (add x y) = false.
Proof.
  destruct x as [sx|sx| |sx mx ex], y as [sy|sy| |sy my ey]; try done.
  - by destruct sx, sy.
  - intros _ _. apply binary_normalize_not_NaN.
Qed.

Lemma add_NaN_r (x : number) : add x NaN = NaN.
Proof. by destruct x. Qed.

Lemma add_NaN_l (x : number) : add NaN x = NaN.
Proof. done. Qed.

(** ** Strict equality *)

Lemma eqb_true (x y : number) :
  eqb x y = true ->
  (is_zero x = true /\ is_zero y = true) \/ (x = y /\ isNaN x = false).
Proof.
  unfold eqb, SFeqb.
  destruct x as [sx|sx| |sx mx ex], y as [sy|sy| |sy my ey]; simpl;
    try discriminate; try (destruct sx; discriminate); try (destruct sy; discriminate).
  - by left.
  - destruct sx, sy; try discriminate; by right.
  - change (Pos.compare_cont Eq mx my) with (Pos.compare mx my).
    intros H. right. split; [|done].
    destruct sx, sy; try discriminate;
      destruct (Z.compare_spec ex ey) as [->| |]; try discriminate;
      destruct (Pos.compare_spec mx my) as [->| |]; try discriminate; done.
Qed.

Lemma eqb_refl (x : number) : isNaN x = false -> eqb x x = true.
Proof.
  unfold eqb, SFeqb. destruct x as [s|s| |s m e]; simpl; try done.
  - by destruct s.
  - intros _. destruct s; rewrite Z.compare_refl;
      change (Pos.compare_cont Eq m m) with (Pos.compare m m);
      by rewrite Pos.compare_refl.
Qed.

Lemma eqb_zero_l (x y : number) : is_zero x = true -> eqb x y = is_zero y.
Proof.
  destruct x; try discriminate. intros _.
  unfold eqb, SFeqb. destruct y as [s'|s'| |s' m' e']; simpl; try done; by destruct s'.
Qed.

Lemma eqb_zero_r (x y : number) : is_zero y = true -> eqb x y = is_zero x.
Proof.
  destruct y; try discriminate. intros _.
  unfold eqb, SFeqb. destruct x as [s'|s'| |s' m' e']; simpl; try done; by destruct s'.
Qed.

Lemma eqb_sym (x y : number) : eqb x y = eqb y x.
Proof.
  assert (Hhalf : forall a b, eqb a b = true -> eqb b a = true).
  { intros a b [[Ha Hb]|[-> Hn]]%eqb_true.
    - by rewrite (eqb_zero_l _ _ Hb).
    - by apply eqb_refl. }
  destruct (eqb x y) eqn:Hxy; [by rewrite (Hhalf _ _ Hxy)|].
  destruct (eqb y x) eqn:Hyx; [|done].
  by rewrite (Hhalf _ _ Hyx) in Hxy.
Qed.

Lemma eqb_trans (x y z : number) : eqb x y = true -> eqb y z = eqb x z.
Proof.
  intros [[Hx Hy]|[-> _]]%eqb_true; [|done].
  by rewrite (eqb_zero_l _ _ Hx), (eqb_zero_l _ _ Hy).
Qed.

Lemma strict_eq_sym (v w : prim) : strict_eq v w = strict_eq w v.
Proof.
  destruct v, w; simpl; try done.
  - by destruct b, b0.
  - apply eqb_sym.
  - apply String.eqb_sym.
Qed.

Lemma strict_eq_trans (u v w : prim) :
  strict_eq u v = true -> strict_eq v w = strict_eq u w.
Proof.
  destruct u, v; simpl; try discriminate; try done.
  - by intros ->%eqb_prop.
  - intros H. destruct w; simpl; try done. by apply eqb_trans.
  - by intros ->%String.eqb_eq.
Qed.

(** A value that is [===] to something is [===] to itself. *)
Lemma strict_eq_refl_l (u v : prim) : strict_eq u v = true -> strict_eq u u = true.
Proof.
  intros H. rewrite <- (strict_eq_trans u v u H). by rewrite strict_eq_sym.
Qed.

(** ** Whole numbers are added and subtracted exactly *)

Lemma pow2_pred (d : Z) : 1 <= d -> 2 ^ d = 2 * 2 ^ (d - 1).
Proof.
  intros Hd. rewrite <- Z.pow_succ_r by lia. f_equal. lia.
Qed.

Lemma digits_bounds (p : positive) :
  2 ^ (Z.pos (digits2_pos p) - 1) <= Z.pos p < 2 ^ Z.pos (digits2_pos p).
Proof.
  induction p as [p IH|p IH|]; simpl digits2_pos;
    [| |change (2 ^ 0 <= 1 < 2 ^ 1); rewrite Z.pow_0_r, Z.pow_1_r; lia].
  all: rewrite Pos2Z.inj_succ.
  all: replace (Z.succ (Z.pos (digits2_pos p)) - 1) with (Z.pos (digits2_pos p)) by lia.
  all: rewrite Z.pow_succ_r by lia.
  all: rewrite (pow2_pred (Z.pos (digits2_pos p))) in * by lia.
  all: revert IH; generalize (2 ^ (Z.pos (digits2_pos p) - 1)); intros X IH.
  - rewrite Pos2Z.inj_xI. lia.
  - rewrite Pos2Z.inj_xO. lia.
Qed.

Lemma digits_unique (p : positive) (d : Z) :
  2 ^ (d - 1) <= Z.pos p < 2 ^ d -> Z.pos (digits2_pos p) = d.
Proof.
  intros [Hlo Hhi]. pose proof (digits_bounds p) as [Hlo' Hhi'].
  assert (0 < d).
  { destruct (Z.ltb_spec 0 d); [done|].
    destruct (Z.eqb_spec d 0) as [->|]; [simpl in Hhi; lia|].
    rewrite Z.pow_neg_r in Hhi by lia. lia. }
  destruct (Z.lt_trichotomy (Z.pos (digits2_pos p)) d) as [Hlt|[Heq|Hgt]]; [|done|].
  - assert (2 ^ Z.pos (digits2_pos p) <= 2 ^ (d - 1)) by (apply Z.pow_le_mono_r; lia).
    lia.
  - assert (2 ^ d <= 2 ^ (Z.pos (digits2_pos p) - 1)) by (apply Z.pow_le_mono_r; lia).
    lia.
Qed.

Lemma digits_scaled (p q : positive) (k : Z) :
  0 <= k -> Z.pos q = Z.pos p * 2 ^ k ->
  Z.pos (digits2_pos q) = Z.pos (digits2_pos p) + k.
Proof.
  intros Hk Hq. apply digits_unique. rewrite Hq.
  pose proof (digits_bounds p) as [Hlo Hhi].
  replace (Z.pos (digits2_pos p) + k - 1) with ((Z.pos (digits2_pos p) - 1) + k) by lia.
  rewrite !Z.pow_add_r by lia.
  assert (0 < 2 ^ k) by (apply Z.pow_pos_nonneg; lia).
  nia.
Qed.

Lemma digits_of_small (p : positive) : Z.pos p < 2 ^ 53 -> Z.pos (digits2_pos p) <= 53.
Proof.
  intros Hp. pose proof (digits_bounds p) as [Hlo _].
  destruct (Z.le_gt_cases (Z.pos (digits2_pos p)) 53) as [|Hbig]; [done|].
  assert (2 ^ 53 <= 2 ^ (Z.pos (digits2_pos p) - 1)) by (apply Z.pow_le_mono_r; lia).
  lia.
Qed.

(** Doubling [n] times, and undoing it by [n] exact right shifts. *)
Lemma iter_pos_nat {A : Type} (f : A -> A) (p : positive) (x : A) :
  SpecFloat.iter_pos f p x = Nat.iter (Pos.to_nat p) f x.
Proof.
  revert x. induction p as [p IH|p IH|]; intros x; cbn [SpecFloat.iter_pos].
  - rewrite !IH, Pos2Nat.inj_xI, <- Nat.iter_add, Nat.iter_succ_r.
    f_equal. lia.
  - rewrite !IH, Pos2Nat.inj_xO, <- Nat.iter_add. f_equal. lia.
  - done.
Qed.

Lemma doubled_value (n : nat) (m : positive) :
  Z.pos (Nat.iter n xO m) = Z.pos m * 2 ^ Z.of_nat n.
Proof.
  induction n as [|n IH]; [simpl; lia|].
  rewrite Nat2Z.inj_succ, Z.pow_succ_r by lia. simpl Nat.iter.
  rewrite Pos2Z.inj_xO, IH. lia.
Qed.

Lemma pos_iter_doubled (P : positive) (q : positive) :
  Pos.iter xO P q = Nat.iter (Pos.to_nat q) xO P.
Proof. apply Pos2Nat.inj_iter. Qed.

Lemma shr_doubled (n : nat) (m : positive) :
  Nat.iter n shr_1 {| shr_m := Z.pos (Nat.iter n xO m); shr_r := false; shr_s := false |}
  = {| shr_m := Z.pos m; shr_r := false; shr_s := false |}.
Proof.
  revert m. induction n as [|n IH]; intros m; [done|].
  rewrite Nat.iter_succ_r.
  change (Nat.iter (S n) xO m) with (xO (Nat.iter n xO m)).
  apply IH.
Qed.

Lemma fexp_normal (x : Z) : -1021 <= x -> fexp prec emax x = x - 53.
Proof. unfold fexp, emin, prec, emax. lia. Qed.

(** A mantissa of 53 bits that was doubled [n] times comes back
    unrounded. *)
Lemma round_aux_doubled (s : bool) (T : positive) (e : Z) (n : nat) :
  Z.pos (digits2_pos T) = 53 ->
  -1074 <= e + Z.of_nat n <= 971 ->
  binary_round_aux prec emax s (Z.pos (Nat.iter n xO T)) e loc_Exact
  = S754_finite s T (e + Z.of_nat n).
Proof.
  intros HT He.
  assert (Hdigits : Z.pos (digits2_pos (Nat.iter n xO T)) = 53 + Z.of_nat n).
  { rewrite <- HT. apply digits_scaled; [lia|]. apply doubled_value. }
  unfold binary_round_aux, shr_fexp. simpl Zdigits2.
  rewrite Hdigits, fexp_normal by lia.
  replace (53 + Z.of_nat n + e - 53 - e) with (Z.of_nat n) by lia.
  assert (Hshift : shr {| shr_m := Z.pos (Nat.iter n xO T); shr_r := false; shr_s := false |}
                     e (Z.of_nat n)
                   = ({| shr_m := Z.pos T; shr_r := false; shr_s := false |},
                      e + Z.of_nat n)).
  { destruct n as [|n]; [simpl; f_equal; lia|].
    unfold shr. rewrite <- positive_nat_Z. simpl Z.of_nat at 1.
    rewrite positive_nat_Z. f_equal.
    rewrite iter_pos_nat, SuccNat2Pos.id_succ. apply shr_doubled. }
  simpl shr_record_of_loc. rewrite Hshift. simpl.
  rewrite HT, fexp_normal by lia.
  replace (53 + (e + Z.of_nat n) - 53 - (e + Z.of_nat n)) with 0 by lia.
  simpl. destruct (Z.leb_spec (e + Z.of_nat n) (emax - prec)) as [|Hbig]; [done|].
  unfold emax, prec in Hbig. lia.
Qed.

(** Rounding [p * 2 ^ k] presented at the exponent [- k] gives the
    number of [p]: nothing is lost when [p] has at most 53 bits. *)
Lemma binary_round_whole (s : bool) (p P : positive) (k : Z) :
  Z.pos (digits2_pos p) <= 53 -> 0 <= k -> Z.pos P = Z.pos p * 2 ^ k ->
  binary_round prec emax s P (- k) = whole s p.
Proof.
  intros Hd Hk HP. unfold whole.
  pose proof (Pos2Z.is_pos (digits2_pos p)) as Hd0.
  set (d := Z.pos (digits2_pos p)) in *.
  set (T := Z.to_pos (Z.pos p * 2 ^ (53 - d))).
  assert (Hpow : 0 < 2 ^ (53 - d)) by (apply Z.pow_pos_nonneg; lia).
  assert (HT : Z.pos T = Z.pos p * 2 ^ (53 - d)) by (unfold T; rewrite Z2Pos.id; nia).
  assert (HdT : Z.pos (digits2_pos T) = 53).
  { rewrite (digits_scaled p T (53 - d)); [fold d; lia | lia | done]. }
  assert (HdP : Z.pos (digits2_pos P) = d + k) by (by apply digits_scaled).
  unfold binary_round. rewrite HdP.
  replace (d + k + - k) with d by lia. rewrite fexp_normal by lia.
  unfold shl_align.
  destruct (d - 53 - - k) as [|q|q] eqn:Hq.
  - replace P with (Nat.iter 0 xO T).
    + rewrite round_aux_doubled; [f_equal; lia | done | simpl; lia].
    + simpl. apply Pos2Z.inj_pos. rewrite HT, HP. f_equal. f_equal. lia.
  - replace P with (Nat.iter (Pos.to_nat q) xO T).
    + rewrite round_aux_doubled; [f_equal; lia | done | lia].
    + apply Pos2Z.inj_pos. rewrite doubled_value, HT, HP, positive_nat_Z.
      rewrite <- Z.mul_assoc, <- Z.pow_add_r by lia. f_equal. f_equal. lia.
  - replace (Pos.iter xO P q) with (Nat.iter 0 xO T).
    + rewrite round_aux_doubled; [f_equal; lia | done | simpl; lia].
    + simpl. apply Pos2Z.inj_pos.
      rewrite pos_iter_doubled, doubled_value, HT, HP, positive_nat_Z.
      rewrite <- Z.mul_assoc, <- Z.pow_add_r by lia. f_equal. f_equal. lia.
Qed.

(** The number of an integer below [2 ^ 53] in absolute value. *)
Lemma of_Z_whole (z : Z) :
  Z.abs z < 2 ^ 53 ->
  of_Z z =
    match z with
    | Z0 => zero
    | Z.pos p => whole false p
    | Z.neg p => whole true p
    end.
Proof.
  intros Hz. unfold of_Z. destruct z as [|p|p]; [done| |]; simpl binary_normalize.
  all: apply (binary_round_whole _ p p 0); [|lia|lia].
  all: pose proof (digits_bounds p) as [Hlo _].
  all: destruct (Z.le_gt_cases (Z.pos (digits2_pos p)) 53) as [|Hbig]; [done|].
  all: assert (2 ^ 53 <= 2 ^ (Z.pos (digits2_pos p) - 1)) by (apply Z.pow_le_mono_r; lia).
  all: lia.
Qed.

(** A whole value scaled by a power of two and presented at the
    matching negative exponent normalises to its number. *)
Lemma normalize_whole (z k : Z) :
  0 <= k -> Z.abs z < 2 ^ 53 ->
  binary_normalize prec emax (z * 2 ^ k) (- k) false = of_Z z.
Proof.
  intros Hk Hz. rewrite (of_Z_whole z Hz).
  assert (Hpow : 0 < 2 ^ k) by (apply Z.pow_pos_nonneg; lia).
  destruct z as [|p|p]; [done| |].
  - destruct (Z.pos p * 2 ^ k) as [|P|P] eqn:HP; try lia.
    simpl. apply binary_round_whole; [apply digits_of_small; lia | done | done].
  - destruct (Z.neg p * 2 ^ k) as [|P|P] eqn:HP; try lia.
    simpl. apply binary_round_whole; [apply digits_of_small; lia | done | lia].
Qed.

Lemma shl_align_value (m : positive) (e e' : Z) :
  e' <= e -> Z.pos (fst (shl_align m e e')) = Z.pos m * 2 ^ (e - e').
Proof.
  intros He. unfold shl_align. destruct (e' - e) as [|q|q] eqn:Hq; simpl; try lia.
  - replace (e - e') with 0 by lia. lia.
  - rewrite pos_iter_doubled, doubled_value, positive_nat_Z. f_equal. f_equal. lia.
Qed.

(** The aligned mantissa of a whole number, as a multiple of the
    value. *)
Lemma whole_aligned (s : bool) (p : positive) (ez : Z) :
  Z.pos (digits2_pos p) <= 53 -> ez <= Z.pos (digits2_pos p) - 53 ->
  cond_Zopp s
    (Z.pos (fst (shl_align (Z.to_pos (Z.pos p * 2 ^ (53 - Z.pos (digits2_pos p))))
                   (Z.pos (digits2_pos p) - 53) ez)))
  = cond_Zopp s (Z.pos p) * 2 ^ (- ez).
Proof.
  intros Hd Hez. rewrite shl_align_value by done.
  assert (Hpow : 0 < 2 ^ (53 - Z.pos (digits2_pos p))) by (apply Z.pow_pos_nonneg; lia).
  rewrite Z2Pos.id by nia.
  rewrite <- Z.mul_assoc, <- Z.pow_add_r by lia.
  replace (53 - Z.pos (digits2_pos p) + (Z.pos (digits2_pos p) - 53 - ez)) with (- ez) by lia.
  destruct s; simpl; lia.
Qed.

Lemma add_whole_whole (sa sb : bool) (pa pb : positive) :
  Z.pos pa < 2 ^ 53 -> Z.pos pb < 2 ^ 53 ->
  Z.abs (cond_Zopp sa (Z.pos pa) + cond_Zopp sb (Z.pos pb)) < 2 ^ 53 ->
  add (whole sa pa) (whole sb pb)
  = of_Z (cond_Zopp sa (Z.pos pa) + cond_Zopp sb (Z.pos pb)).
Proof.
  intros Ha Hb Hsum. apply digits_of_small in Ha, Hb.
  unfold add, whole, SFadd.
  set (ez := Z.min _ _).
  rewrite !whole_aligned by lia.
  rewrite <- Z.mul_add_distr_r.
  rewrite <- (normalize_whole _ (- ez)) by lia.
  f_equal. lia.
Qed.

Lemma sub_whole_whole (sa sb : bool) (pa pb : positive) :
  Z.pos pa < 2 ^ 53 -> Z.pos pb < 2 ^ 53 ->
  Z.abs (cond_Zopp sa (Z.pos pa) - cond_Zopp sb (Z.pos pb)) < 2 ^ 53 ->
  sub (whole sa pa) (whole sb pb)
  = of_Z (cond_Zopp sa (Z.pos pa) - cond_Zopp sb (Z.pos pb)).
Proof.
  intros Ha Hb Hsum. apply digits_of_small in Ha, Hb.
  unfold sub, whole, SFsub.
  set (ez := Z.min _ _).
  rewrite !whole_aligned by lia.
  rewrite <- Z.mul_sub_distr_r.
  rewrite <- (normalize_whole _ (- ez)) by lia.
  f_equal. lia.
Qed.

(** Whole numbers below [2 ^ 53] are added exactly. *)
Lemma add_of_Z (a b : Z) :
  Z.abs a < 2 ^ 53 -> Z.abs b < 2 ^ 53 -> Z.abs (a + b) < 2 ^ 53 ->
  add (of_Z a) (of_Z b) = of_Z (a + b).
Proof.
  intros Ha Hb Hab. rewrite (of_Z_whole a Ha), (of_Z_whole b Hb).
  destruct a as [|pa|pa], b as [|pb|pb]; try done.
  all: try (by rewrite (of_Z_whole _ Hab)).
  - apply (add_whole_whole false false); simpl; lia.
  - apply (add_whole_whole false true); simpl; lia.
  - apply (add_whole_whole true false); simpl; lia.
  - apply (add_whole_whole true true); simpl; lia.
Qed.

(** And subtracted exactly. *)
Lemma sub_of_Z (a b : Z) :
  Z.abs a < 2 ^ 53 -> Z.abs b < 2 ^ 53 -> Z.abs (a - b) < 2 ^ 53 ->
  sub (of_Z a) (of_Z b) = of_Z (a - b).
Proof.
  intros Ha Hb Hab. rewrite (of_Z_whole a Ha), (of_Z_whole b Hb).
  destruct a as [|pa|pa], b as [|pb|pb]; try done.
  all: try (by rewrite (of_Z_whole _ Hab)).
  - apply (sub_whole_whole false false); simpl; lia.
  - apply (sub_whole_whole false true); simpl; lia.
  - apply (sub_whole_whole true false); simpl; lia.
  - apply (sub_whole_whole true true); simpl; lia.
Qed.

Lemma whole_inj (sa sb : bool) (pa pb : positive) :
  Z.pos pa < 2 ^ 53 -> Z.pos pb < 2 ^ 53 ->
  whole sa pa = whole sb pb -> sa = sb /\ pa = pb.
Proof.
  intros Ha Hb. apply digits_of_small in Ha, Hb. unfold whole.
  intros [= Hs Hm Hd]. split; [done|].
  assert (Hdigits : Z.pos (digits2_pos pa) = Z.pos (digits2_pos pb)) by lia.
  rewrite Hdigits in Hm.
  assert (Hpow : 0 < 2 ^ (53 - Z.pos (digits2_pos pb))) by (apply Z.pow_pos_nonneg; lia).
  apply Z2Pos.inj in Hm; [|nia|nia].
  apply Z.mul_cancel_r in Hm; [|lia]. by injection Hm.
Qed.

(** Two whole numbers below [2 ^ 53] that are [===] are the same. *)
Lemma of_Z_eqb (a b : Z) :
  Z.abs a < 2 ^ 53 -> Z.abs b < 2 ^ 53 -> eqb (of_Z a) (of_Z b) = true -> a = b.
Proof.
  intros Ha Hb. rewrite (of_Z_whole a Ha), (of_Z_whole b Hb).
  intros [[Hza Hzb]|[Heq _]]%eqb_true.
  - by destruct a, b.
  - destruct a as [|pa|pa], b as [|pb|pb]; try done;
      apply whole_inj in Heq as [? ->]; done || lia.
Qed.

Lemma of_Z_self (a : Z) : eqb (of_Z a) (of_Z a) = true.
Proof. apply eqb_refl, binary_normalize_not_NaN. Qed.

(** ** Entries with pairwise distinct keys *)

Section Distinct.

Context {A : Type} (key : A -> prim).

Lemma distinct_pairwise (l : list A) : distinct key l <-> pairwise_distinct key l.
Proof.
  unfold pairwise_distinct. induction l as [|a l IH]; simpl.
  - split; [|done]. by intros _ [|i] j.
  - split.
    + intros [Hhead Htail] i j e1 e2 Hij H1 H2.
      rewrite Forall_forall in Hhead.
      destruct i as [|i], j as [|j]; simpl in *; simplify_eq.
      * apply Hhead. by eapply list_elem_of_lookup_2.
      * rewrite strict_eq_sym. apply Hhead. by eapply list_elem_of_lookup_2.
      * by apply (proj1 IH Htail i j); [congruence| |].
    + intros H. split.
      * apply Forall_forall. intros e' [j Hj]%list_elem_of_lookup.
        by apply (H 0%nat (S j)).
      * apply (proj2 IH). intros i j e1 e2 Hij H1 H2.
        by apply (H (S i) (S j)); [congruence| |].
Qed.

Lemma distinct_snoc (l : list A) (a : A) :
  distinct key l ->
  Forall (fun b => strict_eq (key b) (key a) = false) l ->
  distinct key (l ++ [a]).
Proof.
  induction l as [|x l IH]; simpl; [done|].
  intros [Hhead Htail] [Hx Hl]%Forall_cons. split; [|by apply IH].
  apply Forall_app. split; [done|]. by apply Forall_singleton.
Qed.

Lemma distinct_filter (p : A -> bool) (l : list A) :
  distinct key l -> distinct key (List.filter p l).
Proof.
  induction l as [|a l IH]; simpl; [done|].
  intros [Hhead Htail]. destruct (p a); simpl; [|by apply IH].
  split; [|by apply IH].
  rewrite Forall_forall in *. intros e' He'.
  apply Hhead. apply list_elem_of_In in He'. apply filter_In in He'.
  apply list_elem_of_In. tauto.
Qed.

(** Distinctness is a property of the keys alone. *)
Lemma distinct_keys (l l' : list A) :
  map key l = map key l' -> distinct key l -> distinct key l'.
Proof.
  revert l'. induction l as [|a l IH]; intros [|a' l'] Hkeys; simpl in *;
    try done.
  injection Hkeys as Ha Hl. intros [Hhead Htail]. split; [|by apply IH].
  rewrite <- Ha. clear IH Htail Ha. revert l' Hl.
  induction l as [|b l IH]; intros [|b' l'] Hl; simpl in *; try done.
  injection Hl as Hb Hl. apply Forall_cons in Hhead as [Hb' Hrest].
  apply Forall_cons. split; [by rewrite <- Hb | by apply IH].
Qed.

(** A map that keeps every key up to [===] keeps the keys distinct. *)
Lemma distinct_map (g : A -> A) (l : list A) :
  (forall a v, strict_eq (key (g a)) v = strict_eq (key a) v) ->
  distinct key l -> distinct key (map g l).
Proof.
  intros Hg. induction l as [|a l IH]; simpl; [done|].
  intros [Hhead Htail]. split; [|by apply IH].
  rewrite Forall_forall in *. intros e' [e [<- He]]%list_elem_of_In%in_map_iff.
  rewrite Hg, strict_eq_sym, Hg, strict_eq_sym. by apply Hhead, list_elem_of_In.
Qed.

End Distinct.

(** ** Persistence: the first read of the store *)

(** C7. The initialiser of the collection always returns: with the
    empty array and a silent console when the key is absent, and with
    the empty array when the stored text does not parse, one line being
    written to the console (the empty text is never handed to the
    parser and yields the empty array silently). In particular the
    text [not json] yields the empty array and one console line. *)
Theorem C7_load_never_raises (ls : Storage) :
  (exists v, fst (initialExpenses ls) = Return v)
  /\ (forall items, ls = Available items -> items !! "expenses"%string = None ->
        initialExpenses ls = (Return (JArr []), []))
  /\ (forall items text e, ls = Available items ->
        items !! "expenses"%string = Some text -> JSON_parse text = Throw e ->
        initialExpenses ls
        = (Return (JArr []), if String.eqb text "" then [] else [load_diagnostic]))
  /\ (forall items, ls = Available items ->
        items !! "expenses"%string = Some "not json"%string ->
        initialExpenses ls = (Return (JArr []), [load_diagnostic])).
Proof.
  split; [|split; [|split]].
  - unfold initialExpenses, try_catch, bind, getItem.
    destruct ls as [|items]; simpl; [by eexists|].
    destruct (items !! "expenses"%string) as [text|]; [|by eexists].
    destruct (String.eqb text ""); [by eexists|].
    destruct (JSON_parse text); by eexists.
  - intros items -> Hnone. unfold initialExpenses, getItem. simpl. by rewrite Hnone.
  - intros items text e -> Hsome Hthrow. unfold initialExpenses, getItem. simpl.
    rewrite Hsome. destruct (String.eqb text ""); [done|]. by rewrite Hthrow.
  - intros items -> Hsome. unfold initialExpenses, getItem. simpl. by rewrite Hsome.
Qed.

Lemma C7_load_witness :
  let ls := Available (<["expenses"%string := "not json"%string]> ∅) in
  initialExpenses ls = (Return (JArr []), [load_diagnostic])
  /\ initialExpenses (Available ∅) = (Return (JArr []), []).
Proof.
  split.
  - apply (proj2 (proj2 (proj2 (C7_load_never_raises _))) _ eq_refl).
    by rewrite lookup_insert_eq.
  - by apply (proj1 (proj2 (C7_load_never_raises _)) _ eq_refl).
Defined.

(** ** The filter *)

Lemma shown_invalid_date (h : DateHost) (st : AppState) (e : expense) :
  newDate h (get e "dueDate") = None ->
  shown h st e =
    ToBoolean (get e "dueDate")
    && (String.eqb (categoryFilter st) "All"
        || strict_eq (get e "category") (VStr (categoryFilter st)))
    && String.eqb (yearFilter st) "All"
    && String.eqb (monthFilter st) "All".
Proof.
  intros Hinvalid. unfold shown. rewrite Hinvalid. simpl.
  destruct (ToBoolean (get e "dueDate")); simpl; [|done].
  by rewrite !orb_false_r.
Qed.

(** C1, as the code has it. A record whose [dueDate] is missing or
    empty (falsy) is left out under every filter selection. A record
    whose [dueDate] is present but does not parse to a date is left out
    whenever the year filter or the month filter is not [All]; with
    both at [All] it is shown exactly when the category filter lets it
    through. *)
Theorem C1_unparseable_dueDate (h : DateHost) (st : AppState) (e : expense) :
  (ToBoolean (get e "dueDate") = false -> ~ In e (filteredExpenses h st))
  /\ (newDate h (get e "dueDate") = None ->
      (In e (filteredExpenses h st) <->
       In e (expenses st)
       /\ ToBoolean (get e "dueDate") = true
       /\ (categoryFilter st = "All"%string
           \/ strict_eq (get e "category") (VStr (categoryFilter st)) = true)
       /\ yearFilter st = "All"%string
       /\ monthFilter st = "All"%string)).
Proof.
  unfold filteredExpenses. split.
  - intros Hfalsy [_ Hshown]%filter_In. unfold shown in Hshown.
    by rewrite Hfalsy in Hshown.
  - intros Hinvalid. rewrite filter_In, (shown_invalid_date h st e Hinvalid).
    rewrite !andb_true_iff, orb_true_iff, !String.eqb_eq. tauto.
Qed.

Lemma C1_unparseable_witness :
  let e := record 1 "Gym" "30" "not a date" "Other" false in
  ~ In e (filteredExpenses utc_host (setFilters "All" "All" "2025" (initialState [e]))).
Proof.
  intros e Hin.
  assert (Hinvalid : newDate utc_host (get e "dueDate") = None) by reflexivity.
  apply (proj2 (C1_unparseable_dueDate utc_host _ e) Hinvalid) in Hin.
  destruct Hin as (_ & _ & _ & Hyear & _). discriminate Hyear.
Defined.

(** C1 as stated fails: with every filter at [All], a record whose
    [dueDate] is the text [not a date] is in the filtered view. *)
Lemma C1_counterexample :
  let e := record 1 "Gym" "30" "not a date" "Other" false in
  newDate utc_host (get e "dueDate") = None
  /\ In e (filteredExpenses utc_host (initialState [e])).
Proof.
  split; [reflexivity|].
  apply filter_In. split; [by left | reflexivity].
Qed.

(** ** Validation *)

(** What [handleSubmit] does once both checks have passed. *)
Lemma handleSubmit_accepted (now : Z) (existingExpense : option expense)
    (f : FormState) (st : AppState) :
  error (fst (handleSubmit now existingExpense f st)) = ""%string ->
  snd (handleSubmit now existingExpense f st) =
    match existingExpense with
    | Some existing => updateExpense (expenseData f ∪ existing) st
    | None => addExpense now (expenseData f) st
    end.
Proof.
  unfold handleSubmit.
  destruct (negb (ToBoolean (name f)) || negb (ToBoolean (amount f))
            || negb (ToBoolean (dueDate f)) || negb (ToBoolean (category f)));
    [discriminate|].
  destruct (leb (parseFloat (amount f)) zero); [discriminate|].
  by destruct existingExpense.
Qed.


(** A missing field stops the submission with the first message. *)
Lemma handleSubmit_missing_field (now : Z) (existingExpense : option expense)
    (f : FormState) (st : AppState) :
  ToBoolean (name f) = false \/ ToBoolean (amount f) = false
  \/ ToBoolean (dueDate f) = false \/ ToBoolean (category f) = false ->
  handleSubmit now existingExpense f st = (setError "All fields are required." f, st).
Proof.
  intros H. unfold handleSubmit.
  destruct H as [-> | [-> | [-> | ->]]]; simpl; by rewrite ?orb_true_r.
Qed.

(** With the four fields present, an amount that reads as a number
    below or equal to zero stops it with the second message. *)
Lemma handleSubmit_not_positive (now : Z) (existingExpense : option expense)
    (f : FormState) (st : AppState) :
  ToBoolean (name f) = true -> ToBoolean (amount f) = true ->
  ToBoolean (dueDate f) = true -> ToBoolean (category f) = true ->
  leb (parseFloat (amount f)) zero = true ->
  handleSubmit now existingExpense f st
  = (setError "Amount must be greater than zero." f, st).
Proof.
  intros Hn Ha Hd Hc Hle. unfold handleSubmit. by rewrite Hn, Ha, Hd, Hc, Hle.
Qed.

(** NaN is not below or equal to zero: an amount that does not read as
    a number passes the second check. *)
Lemma handleSubmit_not_a_number (now : Z) (existingExpense : option expense)
    (f : FormState) (st : AppState) :
  ToBoolean (name f) = true -> ToBoolean (amount f) = true ->
  ToBoolean (dueDate f) = true -> ToBoolean (category f) = true ->
  parseFloat (amount f) = NaN ->
  handleSubmit now existingExpense f st
  = (setError "" f,
     match existingExpense with
     | Some existing => updateExpense (expenseData f ∪ existing) st
     | None => addExpense now (expenseData f) st
     end).
Proof.
  intros Hn Ha Hd Hc Hnan. unfold handleSubmit. rewrite Hn, Ha, Hd, Hc, Hnan.
  by destruct existingExpense.
Qed.

(** C2, where the code departs from it. A stored record whose amount
    is the text [abc] is opened in the form and saved as it is: the
    amount is present and reads as NaN, no message is set, the form is
    closed and the record is written back with that amount. The same
    draft is accepted as a new record. *)
Theorem C2_non_numeric_amount_accepted :
  let existing := record 1 "Gym" "abc" "2025-01-05" "Other" false in
  let st := handleEdit existing (initialState [existing]) in
  let f := initialForm (Some existing) ["Utilities"%string] in
  let out := handleSubmit 1000 (Some existing) f st in
  let added := handleSubmit 1000 None f (initialState []) in
  amount f = VStr "abc"
  /\ parseFloat (amount f) = NaN
  /\ error (fst out) = ""%string
  /\ isFormOpen (snd out) = false
  /\ expenses (snd out) = [expenseData f ∪ existing]
  /\ get (expenseData f ∪ existing) "amount" = VStr "abc"
  /\ error (fst added) = ""%string
  /\ expenses (snd added)
     = [<["paid" := VBool false]> (<["id" := VNum (of_Z 1000)]> (expenseData f))].
Proof.
  intros existing st f out added. subst out added.
  rewrite (handleSubmit_not_a_number 1000 (Some existing) f st) by reflexivity.
  rewrite (handleSubmit_not_a_number 1000 None f (initialState [])) by reflexivity.
  repeat split.
Qed.

(** ** The totals *)

Lemma sum_from_NaN (l : list expense) :
  fold_left
    (fun sum exp => add sum (parseFloat (or_else (get exp "amount") (VNum zero))))
    l NaN = NaN.
Proof. induction l as [|e l IH]; cbn [fold_left]; [done|]. by rewrite add_NaN_l. Qed.

Lemma sum_meets_NaN (l : list expense) (e : expense) (acc : number) :
  In e l -> ToBoolean (get e "amount") = true -> parseFloat (get e "amount") = NaN ->
  fold_left
    (fun sum exp => add sum (parseFloat (or_else (get exp "amount") (VNum zero))))
    l acc = NaN.
Proof.
  revert acc.
  induction l as [|a l IH]; intros acc Hin Htruthy Hnan; [destruct Hin|].
  cbn [fold_left]. destruct Hin as [->|Hin].
  - unfold or_else at 2. rewrite Htruthy, Hnan, add_NaN_r. apply sum_from_NaN.
  - by apply IH.
Qed.

(** One record whose amount is present and does not read as a number
    turns the total into NaN. *)
Lemma totalExpenses_NaN (l : list expense) (e : expense) :
  In e l -> ToBoolean (get e "amount") = true -> parseFloat (get e "amount") = NaN ->
  totalExpenses l = NaN.
Proof. apply sum_meets_NaN. Qed.

(** C3, where the code departs from it. A missing or empty amount
    counts as zero, but the amount [abc] is truthy, reads as NaN, and
    makes the total NaN. *)
Theorem C3_total_of_non_numeric_amount :
  let filtered := [record 1 "Rent" "1000" "2025-01-01" "Rent/Mortgage" false;
                   record 2 "Gym" "abc" "2025-01-05" "Other" false] in
  totalExpenses filtered = NaN
  /\ totalExpenses [record 1 "Rent" "1000" "2025-01-01" "Rent/Mortgage" false]
     = of_Z 1000
  /\ totalExpenses [record 2 "Gym" "" "2025-01-05" "Other" false] = zero.
Proof.
  intros filtered. split; [|split; reflexivity].
  apply (totalExpenses_NaN filtered (record 2 "Gym" "abc" "2025-01-05" "Other" false));
    [right; by left | reflexivity | reflexivity].
Qed.

Lemma sum_abs_nonneg (units : expense -> Z) (l : list expense) : 0 <= sum_abs units l.
Proof. induction l as [|e l IH]; simpl; lia. Qed.

Lemma sum_units_bound (units : expense -> Z) (l : list expense) :
  Z.abs (sum_units units l) <= sum_abs units l.
Proof. induction l as [|e l IH]; simpl; lia. Qed.

Lemma sum_abs_filter (units : expense -> Z) (p : expense -> bool) (l : list expense) :
  sum_abs units (List.filter p l) <= sum_abs units l.
Proof. induction l as [|e l IH]; simpl; [lia|]. destruct (p e); simpl; lia. Qed.

Lemma sum_units_split (units : expense -> Z) (p : expense -> bool) (l : list expense) :
  sum_units units l
  = sum_units units (List.filter p l)
    + sum_units units (List.filter (fun e => negb (p e)) l).
Proof. induction l as [|e l IH]; simpl; [lia|]. destruct (p e); simpl; lia. Qed.

(** The running sum of whole amounts is the number of their sum. *)
Lemma sum_exact (units : expense -> Z) (l : list expense) (acc : Z) :
  (forall e, In e l ->
     parseFloat (or_else (get e "amount") (VNum zero)) = of_Z (units e)) ->
  Z.abs acc + sum_abs units l < 2 ^ 53 ->
  fold_left
    (fun sum exp => add sum (parseFloat (or_else (get exp "amount") (VNum zero))))
    l (of_Z acc)
  = of_Z (acc + sum_units units l).
Proof.
  revert acc. induction l as [|e l IH]; intros acc Hwhole Hbound; simpl in *.
  - f_equal. lia.
  - pose proof (sum_abs_nonneg units l).
    rewrite (Hwhole e) by by left.
    rewrite add_of_Z by lia.
    rewrite IH; [f_equal; lia | intros; apply Hwhole; by right | lia].
Qed.

Lemma totals_exact (units : expense -> Z) (l : list expense) :
  (forall e, In e l ->
     parseFloat (or_else (get e "amount") (VNum zero)) = of_Z (units e)) ->
  sum_abs units l < 2 ^ 53 ->
  totalExpenses l = of_Z (sum_units units l).
Proof.
  intros Hwhole Hbound. unfold totalExpenses.
  change zero with (of_Z 0). rewrite (sum_exact units) by (simpl; done || lia).
  done.
Qed.

(** *** Rounding to the nearest number *)

Lemma shr_1_step (q : Z) (r s : bool) :
  0 <= q ->
  shr_1 (Build_shr_record q r s) = Build_shr_record (Z.div2 q) (Z.odd q) (r || s).
Proof. intros Hq. destruct q as [|[p|p|]|p]; try done; lia. Qed.

(** What is left of [m] after [k] shifts to the right: the quotient,
    and in the two flags where the remainder stands against the half
    of [2 ^ k]. *)
Lemma shifted_record (k : nat) (m : Z) :
  0 <= m ->
  exists q r s rem,
    Nat.iter k shr_1 (Build_shr_record m false false) = Build_shr_record q r s
    /\ 0 <= q /\ m = q * 2 ^ Z.of_nat k + rem /\ 0 <= rem < 2 ^ Z.of_nat k
    /\ (r = true <-> 2 ^ Z.of_nat k <= 2 * rem)
    /\ (s = false -> rem = 0 \/ 2 * rem = 2 ^ Z.of_nat k).
Proof.
  intros Hm. induction k as [|k IH].
  - exists m, false, false, 0. simpl. repeat split; try lia; try done.
  - destruct IH as (q & r & s & rem & Hiter & Hq & Hval & Hrem & Hr & Hs).
    rewrite Nat.iter_succ, Hiter, shr_1_step by done.
    rewrite Nat2Z.inj_succ, Z.pow_succ_r by lia.
    pose proof (Z.div2_odd q) as Hodd.
    assert (0 <= Z.div2 q) by (apply Z.div2_nonneg; lia).
    assert (Hc : 0 < 2 ^ Z.of_nat k) by (apply Z.pow_pos_nonneg; lia).
    exists (Z.div2 q), (Z.odd q), (r || s),
      ((if Z.odd q then 1 else 0) * 2 ^ Z.of_nat k + rem).
    generalize dependent (2 ^ Z.of_nat k). intros c Hval Hrem Hr Hs Hc.
    split; [done|]. split; [done|].
    destruct (Z.odd q); cbn [Z.b2z] in Hodd.
    + split; [nia|]. split; [lia|]. split; [split; [lia|done]|].
      intros [-> ->]%orb_false_iff.
      destruct (Hs eq_refl) as [->|H2]; [right; lia|].
      assert (false = true) by (apply Hr; lia). done.
    + split; [nia|]. split; [lia|]. split; [split; [done|lia]|].
      intros [-> ->]%orb_false_iff.
      destruct (Hs eq_refl) as [->|H2]; [left; lia|].
      assert (false = true) by (apply Hr; lia). done.
Qed.

(** Rounding the shifted mantissa to nearest, ties to even, ends
    within half a unit of the last place. *)
Lemma rounded_record (k : nat) (m : Z) :
  0 <= m ->
  exists q r s m1,
    Nat.iter k shr_1 (Build_shr_record m false false) = Build_shr_record q r s
    /\ round_nearest_even q (loc_of_shr_record (Build_shr_record q r s)) = m1
    /\ 0 <= q /\ q <= m1 <= q + 1
    /\ q * 2 ^ Z.of_nat k <= m
    /\ 2 * Z.abs (m1 * 2 ^ Z.of_nat k - m) <= 2 ^ Z.of_nat k
    /\ (k = 0%nat -> m1 = m).
Proof.
  intros Hm.
  destruct (shifted_record k m Hm) as (q & r & s & rem & Hiter & Hq & Hval & Hrem & Hr & Hs).
  exists q, r, s. eexists. split; [done|]. split; [reflexivity|]. split; [done|].
  assert (Hc : 0 < 2 ^ Z.of_nat k) by (apply Z.pow_pos_nonneg; lia).
  assert (Hk0 : k = 0%nat -> rem = 0 /\ r = false /\ 2 ^ Z.of_nat k = 1).
  { intros ->. simpl in *. split; [lia|]. split; [|done]. destruct r; [|done].
    assert (1 <= 2 * rem) by (by apply Hr). lia. }
  generalize dependent (2 ^ Z.of_nat k). intros c Hval Hrem Hr Hs Hc Hk0.
  destruct r, s; cbn [loc_of_shr_record round_nearest_even].
  - assert (c <= 2 * rem) by (by apply Hr).
    split; [lia|]. split; [nia|]. split; [nia|].
    intros Hk. destruct (Hk0 Hk) as (_ & ? & _); done.
  - assert (c <= 2 * rem) by (by apply Hr).
    destruct (Hs eq_refl) as [->|H2]; [lia|].
    split; [destruct (Z.even q); lia|]. split; [nia|].
    split; [destruct (Z.even q); nia|].
    intros Hk. destruct (Hk0 Hk) as (_ & ? & _); done.
  - assert (2 * rem < c).
    { destruct (Z.lt_ge_cases (2 * rem) c) as [|Hge]; [done|].
      apply Hr in Hge. done. }
    split; [lia|]. split; [nia|]. split; [nia|].
    intros Hk. destruct (Hk0 Hk) as (-> & _ & ->). lia.
  - assert (2 * rem < c).
    { destruct (Z.lt_ge_cases (2 * rem) c) as [|Hge]; [done|].
      apply Hr in Hge. done. }
    destruct (Hs eq_refl) as [->|H2]; [|lia].
    split; [lia|]. split; [nia|]. split; [nia|].
    intros Hk. destruct (Hk0 Hk) as (_ & _ & ->). lia.
Qed.

Lemma fexp_cases (x : Z) :
  (-1074 <= x - 53 /\ fexp prec emax x = x - 53)
  \/ (x - 53 < -1074 /\ fexp prec emax x = -1074).
Proof. unfold fexp, emin, prec, emax. lia. Qed.

Lemma shr_fexp_stays (m e : Z) :
  fexp prec emax (Zdigits2 m + e) <= e ->
  shr_fexp prec emax m e loc_Exact = (Build_shr_record m false false, e).
Proof.
  intros H. unfold shr_fexp, shr. cbn [shr_record_of_loc].
  destruct (fexp prec emax (Zdigits2 m + e) - e) eqn:E; try done. lia.
Qed.

Lemma finish_stays (sx : bool) (m e : Z) :
  0 <= m -> fexp prec emax (Zdigits2 m + e) <= e ->
  (let '(mrs, e'') := shr_fexp prec emax m e loc_Exact in
   match shr_m mrs with
   | 0 => S754_zero sx
   | Z.pos m0 => if e'' <=? emax - prec then S754_finite sx m0 e'' else S754_infinity sx
   | Z.neg _ => S754_nan
   end)
  = match m with
    | 0 => S754_zero sx
    | Z.pos m0 => if e <=? 971 then S754_finite sx m0 e else S754_infinity sx
    | Z.neg _ => S754_nan
    end.
Proof. intros Hm H. rewrite shr_fexp_stays by done. done. Qed.

(** The number a mantissa [p] with exponent [ex] is rounded to: it is
    exact, or within [2 ^ -53] of the value in ratio, or, below the
    normal range, within half of [2 ^ -1074]. [V] is the result in
    units of [2 ^ ex]. The result is an infinity only for a value of
    [2 ^ 1024 - 2 ^ 971] or more, or when the exponent was not brought
    down to the mantissa's. *)
Lemma round_aux_error (sx : bool) (p : positive) (ex : Z) :
  let r := binary_round_aux prec emax sx (Z.pos p) ex loc_Exact in
  r = S754_infinity sx
  /\ (fexp prec emax (Z.pos (digits2_pos p) + ex) < ex
      \/ 971 < ex /\ 2 ^ 52 <= Z.pos p
      \/ ex <= 971 /\ (2 ^ 53 - 1) * 2 ^ (971 - ex) <= Z.pos p)
  \/ exists V e2,
       ex <= e2
       /\ (r = S754_zero sx /\ V = 0
           \/ exists m2, r = S754_finite sx m2 e2 /\ V = Z.pos m2 * 2 ^ (e2 - ex))
       /\ (2 ^ 53 * Z.abs (V - Z.pos p) <= Z.pos p
           \/ ex < -1074 /\ 2 * Z.abs (V - Z.pos p) <= 2 ^ (-1074 - ex)).
Proof.
  intros r. assert (Hr : r = binary_round_aux prec emax sx (Z.pos p) ex loc_Exact) by done.
  clearbody r. unfold binary_round_aux in Hr.
  pose proof (digits_bounds p) as [Hlo Hhi].
  set (d := Z.pos (digits2_pos p)) in *.
  assert (Hd : 1 <= d) by (unfold d; lia).
  unfold shr_fexp at 1 in Hr. cbn [Zdigits2 shr_record_of_loc] in Hr. fold d in Hr.
  destruct (fexp prec emax (d + ex) - ex) as [|np|np] eqn:Hn; cbn [shr fst snd] in Hr.
  - cbn [shr_m loc_of_shr_record round_nearest_even] in Hr.
    rewrite finish_stays in Hr by (cbn [Zdigits2]; fold d; lia).
    destruct (Z.leb_spec ex 971) as [Hle|Hgt]; [right|left; split; [done|]].
    2:{ right. left. split; [done|].
        destruct (fexp_cases (d + ex)) as [[Hc He]|[Hc He]]; [|lia].
        replace (d - 1) with 52 in Hlo by lia. done. }
    exists (Z.pos p), ex. split; [lia|]. split.
    + right. exists p. split; [done|]. rewrite Z.sub_diag. lia.
    + left. rewrite Z.sub_diag. simpl. lia.
  - rewrite iter_pos_nat in Hr.
    destruct (rounded_record (Pos.to_nat np) (Z.pos p) ltac:(lia))
      as (q & rr & ss & m1 & Hiter & Hround & Hq & Hm1 & Hqp & Herr & _).
    rewrite Hiter in Hr. cbn [shr_m] in Hr. rewrite Hround in Hr.
    rewrite positive_nat_Z in *.
    set (f := ex + Z.pos np) in *.
    assert (Hf : f = fexp prec emax (d + ex)) by (unfold f; lia).
    assert (Hpow : 0 < 2 ^ Z.pos np) by (apply Z.pow_pos_nonneg; lia).
    assert (Hq53 : q < 2 ^ 53).
    { destruct (fexp_cases (d + ex)) as [[Hc He]|[Hc He]].
      - assert (Hdn : d = Z.pos np + 53) by lia.
        rewrite Hdn, Z.pow_add_r in Hhi by lia.
        apply (Z.mul_lt_mono_pos_r (2 ^ Z.pos np)); lia.
      - assert (Hdn : d <= Z.pos np + 53) by lia.
        assert (2 ^ d <= 2 ^ (Z.pos np + 53)) by (apply Z.pow_le_mono_r; lia).
        rewrite Z.pow_add_r in * by lia.
        apply (Z.mul_lt_mono_pos_r (2 ^ Z.pos np)); lia. }
    assert (Hbound :
      2 ^ 53 * Z.abs (m1 * 2 ^ Z.pos np - Z.pos p) <= Z.pos p
      \/ ex < -1074 /\ 2 * Z.abs (m1 * 2 ^ Z.pos np - Z.pos p) <= 2 ^ (-1074 - ex)).
    { destruct (fexp_cases (d + ex)) as [[Hc He]|[Hc He]].
      - left. assert (Hdn : d - 1 = (Z.pos np - 1) + 53) by lia.
        rewrite Hdn, Z.pow_add_r in Hlo by lia.
        rewrite (pow2_pred (Z.pos np)) in Herr |- * by lia.
        generalize dependent (2 ^ (Z.pos np - 1)). intros c. lia.
      - right. split; [lia|]. replace (-1074 - ex) with (Z.pos np) by lia. done. }
    assert (Hfmin : -1074 <= f).
    { rewrite Hf. unfold fexp, emin, prec, emax. lia. }
    destruct (Z.eq_dec m1 (2 ^ 53)) as [Htop|Htop].
    + (* the carry: one more shift, which is exact *)
      rewrite Htop in Hr, Hbound. clear Hround.
      assert (Hshift : shr_fexp prec emax (2 ^ 53) f loc_Exact
                       = (Build_shr_record (2 ^ 52) false false, f + 1)).
      { unfold shr_fexp, shr. change (Zdigits2 (2 ^ 53)) with 54.
        replace (fexp prec emax (54 + f) - f) with 1
          by (unfold fexp, emin, prec, emax; lia).
        done. }
      rewrite Hshift in Hr. cbn [shr_m] in Hr.
      change (2 ^ 52) with (Z.pos (2 ^ 52)) in Hr.
      destruct (Z.leb_spec (f + 1) (emax - prec)) as [Hle|Hgt];
        [right|left; split; [done|]].
      2:{ right. unfold emax, prec in Hgt.
          assert (Hq' : 2 ^ 53 - 1 <= q) by lia.
          destruct (Z.le_gt_cases ex 971) as [Hex|Hex]; [right|left]; (split; [done|]).
          - assert (Hmono : 2 ^ (971 - ex) <= 2 ^ Z.pos np)
              by (apply Z.pow_le_mono_r; lia).
            assert (0 < 2 ^ (971 - ex)) by (apply Z.pow_pos_nonneg; lia).
            change (2 ^ 53 - 1) with 9007199254740991 in *. nia.
          - change (2 ^ 53 - 1) with 9007199254740991 in *.
            change (2 ^ 52) with 4503599627370496. nia. }
      exists (2 ^ 53 * 2 ^ Z.pos np), (f + 1). split; [lia|]. split; [|done].
      right. exists (2 ^ 52)%positive. split; [done|].
      replace (f + 1 - ex) with (Z.pos np + 1) by lia.
      rewrite Z.pow_add_r by lia. change (Z.pos (2 ^ 52)) with (2 ^ 52).
      change (2 ^ 53) with (2 ^ 52 * 2). lia.
    + assert (Hstay : fexp prec emax (Zdigits2 m1 + f) <= f).
      { destruct m1 as [|pm|pm]; [| |lia].
        - unfold fexp, emin, prec, emax. cbn [Zdigits2]. lia.
        - cbn [Zdigits2]. pose proof (digits_bounds pm) as [Hlo1 _].
          assert (Hdm : Z.pos (digits2_pos pm) <= 53).
          { destruct (Z.le_gt_cases (Z.pos (digits2_pos pm)) 53) as [|Hbig]; [done|].
            assert (2 ^ 53 <= 2 ^ (Z.pos (digits2_pos pm) - 1))
              by (apply Z.pow_le_mono_r; lia).
            lia. }
          unfold fexp, emin, prec, emax. lia. }
      rewrite finish_stays in Hr by (done || lia).
      destruct m1 as [|pm|pm]; [| |lia].
      * right. exists 0, f. split; [lia|]. split; [by left|]. done.
      * destruct (Z.leb_spec f 971) as [Hle|Hgt]; [right|left; split; [done|]].
        2:{ right.
            destruct (fexp_cases (d + ex)) as [[Hc He]|[Hc He]]; [|lia].
            assert (Hdn : d - 1 = Z.pos np + 52) by lia.
            rewrite Hdn in Hlo.
            destruct (Z.le_gt_cases ex 971) as [Hex|Hex]; [right|left]; (split; [done|]).
            - assert (Hmono : 2 ^ (1024 - ex) <= 2 ^ (Z.pos np + 52))
                by (apply Z.pow_le_mono_r; lia).
              replace (1024 - ex) with (53 + (971 - ex)) in Hmono by lia.
              rewrite Z.pow_add_r in Hmono by lia.
              assert (0 < 2 ^ (971 - ex)) by (apply Z.pow_pos_nonneg; lia).
              change (2 ^ 53 - 1) with 9007199254740991.
              change (2 ^ 53) with 9007199254740992 in Hmono. nia.
            - assert (Hmono : 2 ^ 52 <= 2 ^ (Z.pos np + 52))
                by (apply Z.pow_le_mono_r; lia).
              lia. }
        exists (Z.pos pm * 2 ^ Z.pos np), f. split; [lia|]. split; [|done].
        right. exists pm. split; [done|]. f_equal. f_equal. lia.
  - (* a negative shift count leaves the mantissa *)
    cbn [shr_m loc_of_shr_record round_nearest_even] in Hr.
    rewrite finish_stays in Hr by (cbn [Zdigits2]; fold d; lia).
    destruct (Z.leb_spec ex 971) as [Hle|Hgt]; [right|left; split; [done|]].
    2:{ left. fold d. lia. }
    exists (Z.pos p), ex. split; [lia|]. split.
    + right. exists p. split; [done|]. rewrite Z.sub_diag. lia.
    + left. rewrite Z.sub_diag. simpl. lia.
Qed.

(** *** The error of one addition *)

Lemma Qpow2_pos (e : Z) : (0 < 2 ^ e)%Q.
Proof. by apply Qpower_0_lt. Qed.

Lemma Qpow2_shift (e k : Z) :
  0 <= k -> (2 ^ (e + k) == inject_Z (2 ^ k) * 2 ^ e)%Q.
Proof.
  intros Hk. rewrite Qpower_plus by done.
  rewrite Zpower_Qpower by done. apply Qmult_comm.
Qed.

Lemma scaled_value (s : bool) (m : positive) (e ex : Z) :
  ex <= e ->
  (math_value (S754_finite s m e)
   == inject_Z (cond_Zopp s (Z.pos m * 2 ^ (e - ex))) * 2 ^ ex)%Q.
Proof.
  intros He. cbn [math_value].
  replace e with (ex + (e - ex)) at 1 by lia.
  rewrite Qpow2_shift by lia.
  destruct s; cbn [cond_Zopp]; rewrite ?inject_Z_opp, inject_Z_mult; ring.
Qed.

Lemma Qabs_scaled (z ex : Z) :
  (Qabs (inject_Z z * 2 ^ ex) == inject_Z (Z.abs z) * 2 ^ ex)%Q.
Proof.
  rewrite Qabs_Qmult, (Qabs_pos (2 ^ ex)) by apply Qlt_le_weak, Qpow2_pos.
  apply Qmult_comp; [|reflexivity].
  unfold Qabs, inject_Z. simpl. reflexivity.
Qed.

Lemma cond_Zopp_sub (s : bool) (a b : Z) :
  cond_Zopp s a - cond_Zopp s b = cond_Zopp s (a - b).
Proof. destruct s; simpl; lia. Qed.

Lemma abs_cond_Zopp (s : bool) (a : Z) : Z.abs (cond_Zopp s a) = Z.abs a.
Proof. destruct s; simpl; lia. Qed.

(** In units of [2 ^ ex]: an error that is small against the value, or
    small against [2 ^ -1074]. *)
Lemma scaled_error (err p ex : Z) :
  0 <= err -> 0 <= p ->
  2 ^ 53 * err <= p \/ ex < -1074 /\ 2 * err <= 2 ^ (-1074 - ex) ->
  (inject_Z err * 2 ^ ex <= inject_Z p * 2 ^ ex * 2 ^ (-53) + 2 ^ (-1075))%Q.
Proof.
  intros Herr Hp Hcases.
  pose proof (Qpow2_pos ex) as Hex.
  assert (Heta : (0 < 2 ^ (-1075))%Q) by apply Qpow2_pos.
  destruct Hcases as [Hrel|[Hlow Habs]].
  - rewrite Zle_Qle in Hrel. rewrite inject_Z_mult in Hrel.
    assert (H53 : (inject_Z err <= inject_Z p * 2 ^ (-53))%Q).
    { change (inject_Z (2 ^ 53)) with (9007199254740992 # 1)%Q in Hrel.
      change (2 ^ (-53))%Q with (1 # 9007199254740992)%Q. lra. }
    apply (Qmult_le_compat_r _ _ (2 ^ ex)) in H53; [|lra].
    set (eta := (2 ^ (-1075))%Q) in *.
    set (X := (inject_Z err * 2 ^ ex)%Q) in *.
    assert (Heq : (inject_Z p * 2 ^ (-53) * 2 ^ ex == inject_Z p * 2 ^ ex * 2 ^ (-53))%Q)
      by ring.
    rewrite Heq in H53. lra.
  - rewrite Zle_Qle in Habs. rewrite inject_Z_mult, Zpower_Qpower in Habs by lia.
    apply (Qmult_le_compat_r _ _ (2 ^ ex)) in Habs; [|lra].
    rewrite <- Qpower_plus in Habs by done.
    replace (-1074 - ex + ex) with (-1074) in Habs by lia.
    assert (Hhalf : (2 ^ (-1074) == 2 * 2 ^ (-1075))%Q) by reflexivity.
    rewrite Hhalf in Habs.
    assert (0 <= inject_Z p * 2 ^ ex * 2 ^ (-53))%Q.
    { apply Qmult_le_0_compat; [apply Qmult_le_0_compat|]. 
      - by rewrite (Zle_Qle 0 p) in Hp.
      - lra.
      - apply Qlt_le_weak, Qpow2_pos. }
    change (inject_Z 2) with 2%Q in Habs.
    set (eta := (2 ^ (-1075))%Q) in *.
    set (X := (inject_Z err * 2 ^ ex)%Q).
    assert (Heq : (2 * inject_Z err * 2 ^ ex == 2 * X)%Q) by (unfold X; ring).
    rewrite Heq in Habs. lra.
Qed.

Lemma exact_within (v w : Q) :
  (v == w)%Q -> (Qabs (v - w) <= Qabs w * 2 ^ (-53) + 2 ^ (-1075))%Q.
Proof.
  intros Hvw. assert (H0 : (v - w == 0)%Q) by (rewrite Hvw; ring).
  rewrite H0. pose proof (Qabs_nonneg w) as Hw.
  pose proof (Qpow2_pos (-1075)) as Heta. pose proof (Qpow2_pos (-53)) as Hu.
  assert (Hprod : (0 <= Qabs w * 2 ^ (-53))%Q).
  { apply Qmult_le_0_compat; [done|]. by apply Qlt_le_weak. }
  change (Qabs 0) with 0%Q.
  generalize dependent (Qabs w * 2 ^ (-53))%Q. intros a Ha.
  generalize dependent (2 ^ (-1075))%Q. intros eta Heta. lra.
Qed.

Lemma round_aux_value (sx : bool) (p : positive) (ex : Z) :
  let r := binary_round_aux prec emax sx (Z.pos p) ex loc_Exact in
  is_finite r = true ->
  (Qabs (math_value r - inject_Z (cond_Zopp sx (Z.pos p)) * 2 ^ ex)
   <= Qabs (inject_Z (cond_Zopp sx (Z.pos p)) * 2 ^ ex) * 2 ^ (-53) + 2 ^ (-1075))%Q.
Proof.
  intros r Hfin.
  destruct (round_aux_error sx p ex) as [[Hinf _]|(V & e2 & He2 & Hres & Hbound)].
  { fold r in Hinf. by rewrite Hinf in Hfin. }
  fold r in Hres.
  assert (Hval : (math_value r == inject_Z (cond_Zopp sx V) * 2 ^ ex)%Q).
  { destruct Hres as [[-> ->]|(m2 & -> & ->)].
    - assert (cond_Zopp sx 0 = 0) as -> by (by destruct sx).
      cbn [math_value]. change (inject_Z 0) with 0%Q. ring.
    - by apply scaled_value. }
  assert (Hdiff : (math_value r - inject_Z (cond_Zopp sx (Z.pos p)) * 2 ^ ex
                   == inject_Z (cond_Zopp sx (V - Z.pos p)) * 2 ^ ex)%Q).
  { rewrite Hval, <- cond_Zopp_sub. unfold Zminus.
    rewrite inject_Z_plus, inject_Z_opp. ring. }
  rewrite Hdiff, !Qabs_scaled, !abs_cond_Zopp.
  apply scaled_error; [lia|lia|done].
Qed.

Lemma shl_align_same (sx : bool) (p : positive) (e e' : Z) :
  let '(mz, ez) := shl_align p e e' in
  (inject_Z (cond_Zopp sx (Z.pos mz)) * 2 ^ ez
   == inject_Z (cond_Zopp sx (Z.pos p)) * 2 ^ e)%Q.
Proof.
  unfold shl_align. destruct (e' - e) as [|k|k] eqn:Hk; try reflexivity.
  rewrite pos_iter_doubled.
  pose proof (scaled_value sx p e e' ltac:(lia)) as Hs. cbn [math_value] in Hs.
  rewrite Hs. rewrite doubled_value, positive_nat_Z.
  replace (e - e') with (Z.pos k) by lia. reflexivity.
Qed.

Lemma round_value (sx : bool) (p : positive) (e : Z) :
  let r := binary_round prec emax sx p e in
  is_finite r = true ->
  (Qabs (math_value r - inject_Z (cond_Zopp sx (Z.pos p)) * 2 ^ e)
   <= Qabs (inject_Z (cond_Zopp sx (Z.pos p)) * 2 ^ e) * 2 ^ (-53) + 2 ^ (-1075))%Q.
Proof.
  intros r. unfold r, binary_round.
  pose proof (shl_align_same sx p e (fexp prec emax (Z.pos (digits2_pos p) + e))) as Hsame.
  destruct (shl_align p e _) as [mz ez].
  intros Hfin. rewrite <- Hsame. by apply round_aux_value.
Qed.

(** Rounding [m * 2 ^ e] to a number. *)
Lemma normalize_value (m e : Z) :
  let r := binary_normalize prec emax m e false in
  is_finite r = true ->
  (Qabs (math_value r - inject_Z m * 2 ^ e)
   <= Qabs (inject_Z m * 2 ^ e) * 2 ^ (-53) + 2 ^ (-1075))%Q.
Proof.
  intros r Hfin. destruct m as [|p|p].
  - cbn [r binary_normalize math_value]. apply exact_within.
    change (inject_Z 0) with 0%Q. ring.
  - apply (round_value false p e Hfin).
  - apply (round_value true p e Hfin).
Qed.

Lemma aligned_value (s : bool) (m : positive) (e ez : Z) :
  ez <= e ->
  (math_value (S754_finite s m e)
   == inject_Z (cond_Zopp s (Z.pos (fst (shl_align m e ez)))) * 2 ^ ez)%Q.
Proof.
  intros He. rewrite shl_align_value by done. by apply scaled_value.
Qed.

(** One addition and one subtraction: the result, when it is finite,
    is within [2 ^ -53] of the exact one in ratio, or within
    [2 ^ -1075] of it. *)
Lemma add_value (x y : number) :
  is_finite (add x y) = true ->
  (Qabs (math_value (add x y) - (math_value x + math_value y))
   <= Qabs (math_value x + math_value y) * 2 ^ (-53) + 2 ^ (-1075))%Q.
Proof.
  destruct x as [sx|sx| |sx mx ex], y as [sy|sy| |sy my ey]; try done.
  - intros _. apply exact_within. destruct sx, sy; cbn [add SFadd math_value]; ring.
  - intros _. apply exact_within. cbn [add SFadd math_value]. ring.
  - by destruct sx, sy.
  - intros _. apply exact_within. cbn [add SFadd math_value]. ring.
  - unfold add. cbn [SFadd]. intros Hfin.
    set (ez := Z.min ex ey) in *.
    assert (Hsum : (math_value (S754_finite sx mx ex) + math_value (S754_finite sy my ey)
                    == inject_Z (cond_Zopp sx (Z.pos (fst (shl_align mx ex ez)))
                                 + cond_Zopp sy (Z.pos (fst (shl_align my ey ez))))
                       * 2 ^ ez)%Q).
    { rewrite (aligned_value sx mx ex ez), (aligned_value sy my ey ez) by (unfold ez; lia).
      rewrite inject_Z_plus. ring. }
    rewrite Hsum. by apply normalize_value.
Qed.

Lemma sub_value (x y : number) :
  is_finite (sub x y) = true ->
  (Qabs (math_value (sub x y) - (math_value x - math_value y))
   <= Qabs (math_value x - math_value y) * 2 ^ (-53) + 2 ^ (-1075))%Q.
Proof.
  destruct x as [sx|sx| |sx mx ex], y as [sy|sy| |sy my ey]; try done.
  - intros _. apply exact_within. destruct sx, sy; cbn [sub SFsub math_value]; ring.
  - intros _. apply exact_within. cbn [sub SFsub math_value].
    destruct sy; cbn [negb cond_Zopp]; rewrite ?inject_Z_opp; ring.
  - by destruct sx, sy.
  - intros _. apply exact_within. cbn [sub SFsub math_value]. ring.
  - unfold sub. cbn [SFsub]. intros Hfin.
    set (ez := Z.min ex ey) in *.
    assert (Hsum : (math_value (S754_finite sx mx ex) - math_value (S754_finite sy my ey)
                    == inject_Z (cond_Zopp sx (Z.pos (fst (shl_align mx ex ez)))
                                 - cond_Zopp sy (Z.pos (fst (shl_align my ey ez))))
                       * 2 ^ ez)%Q).
    { rewrite (aligned_value sx mx ex ez), (aligned_value sy my ey ez) by (unfold ez; lia).
      unfold Zminus. rewrite inject_Z_plus, inject_Z_opp. ring. }
    rewrite Hsum. by apply normalize_value.
Qed.

(** *** No overflow below [2 ^ 1023] *)

Lemma shl_align_aligned (p : positive) (e : Z) :
  let '(mz, ez) := shl_align p e (fexp prec emax (Z.pos (digits2_pos p) + e)) in
  ez <= fexp prec emax (Z.pos (digits2_pos mz) + ez).
Proof.
  unfold shl_align.
  destruct (fexp prec emax (Z.pos (digits2_pos p) + e) - e) as [|k|k] eqn:Hk; try lia.
  rewrite pos_iter_doubled.
  rewrite (digits_scaled p (Nat.iter (Pos.to_nat k) xO p) (Z.pos k));
    [|lia|by rewrite doubled_value, positive_nat_Z].
  replace (Z.pos (digits2_pos p) + Z.pos k + fexp prec emax (Z.pos (digits2_pos p) + e))
    with (Z.pos (digits2_pos p) + e) by lia.
  lia.
Qed.

Lemma round_aux_finite (sx : bool) (p : positive) (ex : Z) :
  ex <= fexp prec emax (Z.pos (digits2_pos p) + ex) ->
  (inject_Z (Z.pos p) * 2 ^ ex <= 2 ^ 1023)%Q ->
  is_finite (binary_round_aux prec emax sx (Z.pos p) ex loc_Exact) = true.
Proof.
  intros Haligned Hsmall.
  destruct (round_aux_error sx p ex)
    as [[_ Hbig]|(V & e2 & _ & [[-> _]|(m2 & -> & _)] & _)]; [exfalso|done|done].
  pose proof (Qpow2_pos ex) as Hex.
  destruct Hbig as [Hjunk|[[Hex1 Hp]|[Hex1 Hp]]]; [lia| |].
  - (* the exponent alone is beyond the range *)
    rewrite Zle_Qle in Hp.
    apply (Qmult_le_compat_r _ _ (2 ^ ex)) in Hp; [|lra].
    assert (Hmono : (2 ^ 972 <= 2 ^ ex)%Q).
    { replace ex with (972 + (ex - 972)) by lia. rewrite Qpow2_shift by lia.
      assert (H1 : (1 <= inject_Z (2 ^ (ex - 972)))%Q).
      { rewrite <- (Zle_Qle 1). assert (0 < 2 ^ (ex - 972)) by (apply Z.pow_pos_nonneg; lia).
        lia. }
      pose proof (Qpow2_pos 972) as H972.
      generalize dependent (2 ^ 972)%Q. intros c.
      generalize dependent (inject_Z (2 ^ (ex - 972))). intros t. intros. nra. }
    assert (Hlit : (2 ^ 1023 < inject_Z (2 ^ 52) * 2 ^ 972)%Q) by reflexivity.
    assert (H52 : (0 < inject_Z (2 ^ 52))%Q) by reflexivity.
    generalize dependent (inject_Z (Z.pos p) * 2 ^ ex)%Q. intros v Hv1 Hv2.
    generalize dependent (inject_Z (2 ^ 52)). intros c52.
    generalize dependent (2 ^ 1023)%Q. intros B.
    generalize dependent (2 ^ 972)%Q. intros c972.
    generalize dependent (2 ^ ex)%Q. intros t. intros. nra.
  - rewrite Zle_Qle, inject_Z_mult, Zpower_Qpower in Hp by lia.
    apply (Qmult_le_compat_r _ _ (2 ^ ex)) in Hp; [|lra].
    assert (Heq : (inject_Z (2 ^ 53 - 1) * inject_Z 2 ^ (971 - ex) * 2 ^ ex
                   == inject_Z (2 ^ 53 - 1) * 2 ^ 971)%Q).
    { rewrite <- Qmult_assoc. apply Qmult_comp; [reflexivity|].
      change (inject_Z 2) with 2%Q. rewrite <- Qpower_plus by done.
      replace (971 - ex + ex) with 971 by lia. reflexivity. }
    rewrite Heq in Hp.
    assert (Hlit : (2 ^ 1023 < inject_Z (2 ^ 53 - 1) * 2 ^ 971)%Q) by reflexivity.
    generalize dependent (inject_Z (Z.pos p) * 2 ^ ex)%Q. intros v Hv1 Hv2.
    generalize dependent (inject_Z (2 ^ 53 - 1) * 2 ^ 971)%Q. intros c.
    generalize dependent (2 ^ 1023)%Q. intros B. intros. lra.
Qed.

Lemma round_finite (sx : bool) (p : positive) (e : Z) :
  (inject_Z (Z.pos p) * 2 ^ e <= 2 ^ 1023)%Q ->
  is_finite (binary_round prec emax sx p e) = true.
Proof.
  intros Hsmall. unfold binary_round.
  pose proof (shl_align_same false p e (fexp prec emax (Z.pos (digits2_pos p) + e))) as Hsame.
  pose proof (shl_align_aligned p e) as Haligned.
  destruct (shl_align p e _) as [mz ez]. cbn [cond_Zopp] in Hsame.
  apply round_aux_finite; [done|]. by rewrite Hsame.
Qed.

Lemma normalize_finite (m e : Z) :
  (Qabs (inject_Z m * 2 ^ e) <= 2 ^ 1023)%Q ->
  is_finite (binary_normalize prec emax m e false) = true.
Proof.
  intros Hsmall. rewrite Qabs_scaled in Hsmall.
  destruct m as [|p|p]; [done| |]; by apply round_finite.
Qed.

Lemma add_finite_small (x y : number) :
  is_finite x = true -> is_finite y = true ->
  (Qabs (math_value x + math_value y) <= 2 ^ 1023)%Q ->
  is_finite (add x y) = true.
Proof.
  destruct x as [sx|sx| |sx mx ex], y as [sy|sy| |sy my ey]; try done.
  - by destruct sx, sy.
  - intros _ _ Hsmall. unfold add. cbn [SFadd].
    set (ez := Z.min ex ey) in *. apply normalize_finite.
    rewrite inject_Z_plus.
    rewrite (aligned_value sx mx ex ez), (aligned_value sy my ey ez) in Hsmall
      by (unfold ez; lia).
    by rewrite Qmult_plus_distr_l.
Qed.

Lemma sub_finite_small (x y : number) :
  is_finite x = true -> is_finite y = true ->
  (Qabs (math_value x - math_value y) <= 2 ^ 1023)%Q ->
  is_finite (sub x y) = true.
Proof.
  destruct x as [sx|sx| |sx mx ex], y as [sy|sy| |sy my ey]; try done.
  - by destruct sx, sy.
  - intros _ _ Hsmall. unfold sub. cbn [SFsub].
    set (ez := Z.min ex ey) in *. apply normalize_finite.
    unfold Zminus. rewrite inject_Z_plus, inject_Z_opp.
    rewrite (aligned_value sx mx ex ez), (aligned_value sy my ey ez) in Hsmall
      by (unfold ez; lia).
    assert (Heq : ((inject_Z (cond_Zopp sx (Z.pos (fst (shl_align mx ex ez))))
                    + - inject_Z (cond_Zopp sy (Z.pos (fst (shl_align my ey ez))))) * 2 ^ ez
                   == inject_Z (cond_Zopp sx (Z.pos (fst (shl_align mx ex ez)))) * 2 ^ ez
                      - inject_Z (cond_Zopp sy (Z.pos (fst (shl_align my ey ez)))) * 2 ^ ez)%Q)
      by ring.
    by rewrite Heq.
Qed.

(** *** Taking the paid total away and adding it back *)

Lemma add_finite_inv (x y : number) :
  is_finite (add x y) = true -> is_finite x = true /\ is_finite y = true.
Proof.
  destruct x as [sx|sx| |sx mx ex], y as [sy|sy| |sy my ey]; try done.
  by destruct sx, sy.
Qed.

Lemma sub_finite_inv (x y : number) :
  is_finite (sub x y) = true -> is_finite x = true /\ is_finite y = true.
Proof.
  destruct x as [sx|sx| |sx mx ex], y as [sy|sy| |sy my ey]; try done.
  by destruct sx, sy.
Qed.

(** Taking [P] away from [T] and adding it back: when the result is
    finite it is within the rounding of one subtraction and one
    addition of [T]. *)
Lemma back_within_rounding (T P : number) :
  is_finite (add P (sub T P)) = true ->
  (Qabs (math_value (add P (sub T P)) - math_value T)
   <= (Qabs (math_value T) + Qabs (math_value T - math_value P)) * 2 ^ (-52) + 2 ^ (-1073))%Q.
Proof.
  intros Hfin.
  destruct (add_finite_inv _ _ Hfin) as [_ HU].
  pose proof (sub_value T P HU) as H1.
  pose proof (add_value P (sub T P) Hfin) as H2.
  set (a := math_value T) in *. set (b := math_value P) in *.
  set (c := math_value (sub T P)) in *. set (s := math_value (add P (sub T P))) in *.
  assert (Hbc : (Qabs (b + c) <= Qabs a + Qabs (c - (a - b)))%Q).
  { assert (Heq : (b + c == a + (c - (a - b)))%Q) by ring.
    rewrite Heq. apply Qabs_triangle. }
  assert (Hsa : (Qabs (s - a) <= Qabs (s - (b + c)) + Qabs (c - (a - b)))%Q).
  { assert (Heq : (s - a == (s - (b + c)) + (c - (a - b)))%Q) by ring.
    rewrite Heq at 1. apply Qabs_triangle. }
  pose proof (Qabs_nonneg a) as Ha. pose proof (Qabs_nonneg (a - b)) as Hab.
  pose proof (Qabs_nonneg (c - (a - b))) as Hx1.
  pose proof (Qpow2_pos (-1075)) as Heta.
  assert (H4 : (2 ^ (-1073) == 4 * 2 ^ (-1075))%Q) by reflexivity.
  rewrite H4.
  change (2 ^ (-53))%Q with (1 # 9007199254740992)%Q in *.
  change (2 ^ (-52))%Q with (1 # 4503599627370496)%Q.
  generalize dependent (2 ^ (-1075))%Q. intros eta H1 H2 Heta _.
  generalize dependent (Qabs (s - a)). intros g.
  generalize dependent (Qabs (s - (b + c))). intros x2.
  generalize dependent (Qabs (b + c)). intros w.
  generalize dependent (Qabs (c - (a - b))). intros x1.
  generalize dependent (Qabs (a - b)). intros A1.
  generalize dependent (Qabs a). intros A0.
  intros. lra.
Qed.

(** Below [2 ^ 1022] nothing overflows on the way. *)
Lemma back_finite (T P : number) :
  is_finite T = true -> is_finite P = true ->
  (Qabs (math_value T) <= 2 ^ 1022)%Q -> (Qabs (math_value P) <= 2 ^ 1022)%Q ->
  is_finite (add P (sub T P)) = true.
Proof.
  intros HT HP HTs HPs.
  assert (H23 : (2 ^ 1023 == 2 * 2 ^ 1022)%Q) by reflexivity.
  assert (Heta : (2 * 2 ^ (-1075) < 2 ^ 1022)%Q) by reflexivity.
  pose proof (Qpow2_pos (-1075)) as Heta0.
  assert (Hdiff : (Qabs (math_value T - math_value P) <= 2 ^ 1023)%Q).
  { assert (Heq : (math_value T - math_value P == math_value T + - math_value P)%Q) by ring.
    rewrite Heq. eapply Qle_trans; [apply Qabs_triangle|].
    rewrite Qabs_opp, H23.
    generalize dependent (Qabs (math_value T)). intros a Ha.
    generalize dependent (Qabs (math_value P)). intros b Hb.
    generalize dependent (2 ^ 1022)%Q. intros B. intros. lra. }
  assert (HU : is_finite (sub T P) = true) by (by apply sub_finite_small).
  pose proof (sub_value T P HU) as H1.
  apply add_finite_small; [done|done|].
  set (a := math_value T) in *. set (b := math_value P) in *. set (c := math_value (sub T P)) in *.
  assert (Hbc : (Qabs (b + c) <= Qabs a + Qabs (c - (a - b)))%Q).
  { assert (Heq : (b + c == a + (c - (a - b)))%Q) by ring.
    rewrite Heq. apply Qabs_triangle. }
  rewrite H23 in *.
  change (2 ^ (-53))%Q with (1 # 9007199254740992)%Q in *.
  generalize dependent (2 ^ (-1075))%Q. intros eta.
  generalize dependent (2 ^ 1022)%Q. intros B.
  generalize dependent (Qabs (b + c)). intros w.
  generalize dependent (Qabs (c - (a - b))). intros x1.
  generalize dependent (Qabs (a - b)). intros A1.
  generalize dependent (Qabs a). intros A0.
  generalize dependent (Qabs b). intros B0.
  intros. lra.
Qed.

Lemma back_infinite (T P : number) :
  is_infinite T = true -> is_finite P = true -> add P (sub T P) = T.
Proof. by destruct T as [| | |], P as [| | |]. Qed.

Lemma back_NaN (T P : number) :
  isNaN T = true \/ is_finite P = false -> isNaN (add P (sub T P)) = true.
Proof.
  intros [HT|HP].
  - by destruct T, P as [| | |].
  - destruct T as [|[]| |], P as [|[]| |]; done.
Qed.

Lemma eqb_NaN_r (x y : number) : isNaN y = true -> eqb x y = false.
Proof. by destruct x as [| | |], y as [| | |]. Qed.

(** C4, as the code has it. The unpaid total is the total minus the
    paid total, and the paid total is the total of the records whose
    [paid] is truthy, all in floating point. Whenever the paid total
    plus the unpaid total is a finite number, it differs from the
    total by no more than the rounding of one subtraction and one
    addition: [2 ^ -52] of the sizes of the total and of the
    difference, and [2 ^ -1073] for results below the normal range.
    It is finite when the total and the paid total are finite and at
    most [2 ^ 1022] in size. An infinite total with a finite paid total
    comes back as itself. A total that is NaN, or a paid total that is
    NaN or infinite, gives NaN, which equals nothing. When the amounts
    are whole numbers whose absolute values sum to less than [2 ^ 53],
    the three totals are the exact sums and the total equals the paid
    total plus the unpaid total exactly. *)
Theorem C4_totals_up_to_rounding (filtered : list expense) :
  let paid := List.filter (fun exp => ToBoolean (get exp "paid")) filtered in
  let total := totalExpenses filtered in
  let paidTotal := paidExpenses filtered in
  let unpaidTotal := unpaidExpenses filtered in
  let back := add paidTotal unpaidTotal in
  unpaidTotal = sub total paidTotal
  /\ paidTotal = totalExpenses paid
  /\ (is_finite back = true ->
      (Qabs (math_value back - math_value total)
       <= (Qabs (math_value total) + Qabs (math_value total - math_value paidTotal)) * 2 ^ (-52)
          + 2 ^ (-1073))%Q)
  /\ (is_finite total = true -> is_finite paidTotal = true ->
      (Qabs (math_value total) <= 2 ^ 1022)%Q -> (Qabs (math_value paidTotal) <= 2 ^ 1022)%Q ->
      is_finite back = true)
  /\ (is_infinite total = true -> is_finite paidTotal = true -> back = total)
  /\ (isNaN total = true \/ is_finite paidTotal = false ->
      isNaN back = true /\ eqb total back = false)
  /\ (forall units : expense -> Z,
        (forall e, In e filtered ->
           parseFloat (or_else (get e "amount") (VNum zero)) = of_Z (units e)) ->
        sum_abs units filtered < 2 ^ 53 ->
        total = of_Z (sum_units units filtered)
        /\ paidTotal = of_Z (sum_units units paid)
        /\ unpaidTotal = of_Z (sum_units units filtered - sum_units units paid)
        /\ total = back).
Proof.
  intros paid total paidTotal unpaidTotal back.
  split; [done|]. split; [done|].
  split; [apply back_within_rounding|].
  split; [apply back_finite|].
  split; [apply back_infinite|].
  split; [intros Hnan; split; [|apply eqb_NaN_r]; by apply back_NaN|].
  intros units Hwhole Hbound.
  assert (Htotal : total = of_Z (sum_units units filtered))
    by by apply totals_exact.
  assert (Hpaid : paidTotal = of_Z (sum_units units paid)).
  { change paidTotal with (totalExpenses paid). apply totals_exact.
    - intros e [He _]%filter_In. by apply Hwhole.
    - pose proof (sum_abs_filter units (fun exp => ToBoolean (get exp "paid")) filtered).
      fold paid in H. lia. }
  pose proof (sum_units_bound units filtered) as Hb1.
  pose proof (sum_units_bound units paid) as Hb2.
  pose proof (sum_abs_filter units (fun exp => ToBoolean (get exp "paid")) filtered) as Hb3.
  pose proof (sum_units_bound units
                (List.filter (fun e => negb (ToBoolean (get e "paid"))) filtered)) as Hb4.
  pose proof (sum_abs_filter units (fun e => negb (ToBoolean (get e "paid"))) filtered)
    as Hb5.
  pose proof (sum_units_split units (fun exp => ToBoolean (get exp "paid")) filtered)
    as Hsplit.
  cbv beta in Hsplit. fold paid in Hb3, Hsplit.
  assert (Hunpaid : unpaidTotal
                    = of_Z (sum_units units filtered - sum_units units paid)).
  { unfold unpaidTotal, unpaidExpenses. fold total paidTotal.
    rewrite Htotal, Hpaid. apply sub_of_Z; lia. }
  split; [done|]. split; [done|]. split; [done|].
  unfold back. rewrite Hunpaid, Hpaid, Htotal, add_of_Z by lia. f_equal. lia.
Qed.

Lemma C4_totals_witness :
  let filtered := [record 1 "Power" "14.80" "2025-01-01" "Utilities" false;
                   record 2 "Food" "17.37" "2025-01-02" "Groceries" true;
                   record 3 "Bus" "18.85" "2025-01-03" "Transportation" false] in
  let whole := [record 1 "Rent" "1000" "2025-01-01" "Rent/Mortgage" false;
                record 2 "Gym" "30" "2025-01-05" "Other" true;
                record 3 "Power" "250" "2025-01-09" "Utilities" true] in
  let total := totalExpenses filtered in
  let back := add (paidExpenses filtered) (unpaidExpenses filtered) in
  total = parseFloat (VStr "51.02")
  /\ back = parseFloat (VStr "51.02000000000001")
  /\ (Qabs (math_value back - math_value total)
      <= (Qabs (math_value total)
          + Qabs (math_value total - math_value (paidExpenses filtered)))
         * 2 ^ (-52) + 2 ^ (-1073))%Q
  /\ totalExpenses whole = of_Z 1280
  /\ paidExpenses whole = of_Z 280
  /\ unpaidExpenses whole = of_Z 1000
  /\ totalExpenses whole = add (paidExpenses whole) (unpaidExpenses whole).
Proof.
  intros filtered whole total back.
  split; [reflexivity|]. split; [reflexivity|].
  split; [apply (C4_totals_up_to_rounding filtered); reflexivity|].
  destruct (C4_totals_up_to_rounding whole) as (_ & _ & _ & _ & _ & _ & Hwhole).
  apply (Hwhole (fun e => match truncate (parseFloat (get e "amount")) with
                          | Some z => z
                          | None => 0
                          end)).
  - intros e [<-|[<-|[<-|[]]]]; reflexivity.
  - reflexivity.
Defined.

(** C4 as stated fails, and by more than rounding: with a paid amount
    of [1e999] the total and the paid total are Infinity, the unpaid
    total is NaN, and the paid total plus the unpaid total is NaN. *)
Lemma C4_counterexample :
  let filtered := [record 1 "Rent" "1000" "2025-01-01" "Rent/Mortgage" false;
                   record 2 "Yacht" "1e999" "2025-01-02" "Other" true] in
  totalExpenses filtered = Infinity
  /\ paidExpenses filtered = Infinity
  /\ unpaidExpenses filtered = NaN
  /\ add (paidExpenses filtered) (unpaidExpenses filtered) = NaN
  /\ eqb (totalExpenses filtered)
         (add (paidExpenses filtered) (unpaidExpenses filtered)) = false.
Proof. vm_compute. repeat split. Qed.

(** ** Marking a record paid or unpaid *)

Lemma togglePaid_lookup (id : prim) (st : AppState) (i : nat) :
  expenses (togglePaid id st) !! i =
    (fun exp => if strict_eq (get exp "id") id
                then <["paid" := VBool (negb (ToBoolean (get exp "paid")))]> exp
                else exp) <$> (expenses st !! i).
Proof. unfold togglePaid. simpl. apply lookup_map. Qed.

Lemma toggle_twice (e : expense) :
  <["paid" := VBool (negb (ToBoolean (get
      (<["paid" := VBool (negb (ToBoolean (get e "paid")))]> e) "paid")))]>
    (<["paid" := VBool (negb (ToBoolean (get e "paid")))]> e)
  = <["paid" := VBool (ToBoolean (get e "paid"))]> e.
Proof.
  rewrite get_insert_eq. simpl. by rewrite negb_involutive, insert_insert_eq.
Qed.

(** C5. One [togglePaid id] keeps the length and the order of the
    collection, leaves every record whose id is not [id] as it is, and
    in a record whose id is [id] changes the [paid] property only,
    to the negation of the flag. Two of them give every record its
    flag back with every other property untouched, and give back the
    very same state when the flags are booleans, as [addExpense]
    creates them. *)
Theorem C5_togglePaid_involution (id : prim) (st : AppState) :
  (forall i e, expenses st !! i = Some e ->
     exists e', expenses (togglePaid id st) !! i = Some e'
       /\ (forall k, k <> "paid"%string -> e' !! k = e !! k)
       /\ (if strict_eq (get e "id") id
           then e' !! "paid"%string = Some (VBool (negb (ToBoolean (get e "paid"))))
           else e' = e))
  /\ length (expenses (togglePaid id st)) = length (expenses st)
  /\ (forall i e, expenses st !! i = Some e ->
     exists e'', expenses (togglePaid id (togglePaid id st)) !! i = Some e''
       /\ ToBoolean (get e'' "paid") = ToBoolean (get e "paid")
       /\ (forall k, k <> "paid"%string -> e'' !! k = e !! k))
  /\ ((forall e, In e (expenses st) -> exists b, e !! "paid"%string = Some (VBool b)) ->
      togglePaid id (togglePaid id st) = st).
Proof.
  split; [|split; [|split]].
  - intros i e Hi. rewrite togglePaid_lookup, Hi. simpl. eexists. split; [done|].
    destruct (strict_eq (get e "id") id).
    + split; [|by rewrite lookup_insert_eq].
      intros k Hk. by rewrite lookup_insert_ne.
    + by split.
  - unfold togglePaid. simpl. apply length_map.
  - intros i e Hi. rewrite !togglePaid_lookup, Hi. simpl.
    eexists. split; [done|].
    destruct (strict_eq (get e "id") id) eqn:Hid.
    + rewrite get_insert_ne, Hid by done. rewrite toggle_twice.
      split; [by rewrite get_insert_eq|].
      intros k Hk. by rewrite lookup_insert_ne.
    + by rewrite Hid.
  - intros Hbool. destruct st as [exps ? ? ? ? ? ?].
    unfold togglePaid, setExpenses. simpl in *.
    f_equal. rewrite map_map. rewrite <- (map_id exps) at 2.
    apply map_ext_in. intros e He.
    destruct (strict_eq (get e "id") id) eqn:Hid; [|by rewrite Hid].
    rewrite get_insert_ne, Hid by done. rewrite toggle_twice.
    destruct (Hbool e He) as [b Hb]. apply insert_id.
    unfold get. by rewrite Hb.
Qed.

Lemma C5_togglePaid_witness :
  let st := initialState [record 1 "Rent" "1000" "2025-01-01" "Rent/Mortgage" false;
                          record 2 "Gym" "30" "2025-01-05" "Other" true] in
  togglePaid (VNum (of_Z 2)) (togglePaid (VNum (of_Z 2)) st) = st.
Proof.
  intros st.
  apply (proj2 (proj2 (proj2 (C5_togglePaid_involution (VNum (of_Z 2)) st)))).
  intros e [<-|[<-|[]]]; [by exists false | by exists true].
Defined.

(** ** Editing a record through the form *)

Lemma updateExpense_lookup (updated : expense) (st : AppState) (i : nat) :
  expenses (updateExpense updated st) !! i =
    (fun exp => if strict_eq (get exp "id") (get updated "id") then updated else exp)
      <$> (expenses st !! i).
Proof. unfold updateExpense. simpl. apply lookup_map. Qed.

(** C6. [updateExpense] puts the record it is given at every position
    whose record has that record's id, and leaves every other position
    and the length of the collection as they are. When the form is
    accepted, the record it gives carries the four fields of the draft
    and every other property of the edited record, its id among
    them. *)
Theorem C6_update_in_place (now : Z) (existing : expense) (f : FormState) (st : AppState) :
  error (fst (handleSubmit now (Some existing) f st)) = ""%string ->
  let st' := snd (handleSubmit now (Some existing) f st) in
  let updated := expenseData f ∪ existing in
  st' = updateExpense updated st
  /\ (forall u, length (expenses (updateExpense u st)) = length (expenses st))
  /\ (forall u i e, expenses st !! i = Some e ->
        expenses (updateExpense u st) !! i =
          Some (if strict_eq (get e "id") (get u "id") then u else e))
  /\ length (expenses st') = length (expenses st)
  /\ (forall i e, expenses st !! i = Some e ->
        expenses st' !! i =
          Some (if strict_eq (get e "id") (get existing "id") then updated else e))
  /\ get updated "name" = name f
  /\ get updated "amount" = amount f
  /\ get updated "dueDate" = dueDate f
  /\ get updated "category" = category f
  /\ (forall k, expenseData f !! k = None -> updated !! k = existing !! k)
  /\ updated !! "id"%string = existing !! "id"%string.
Proof.
  intros Hok st' updated. subst st'.
  rewrite (handleSubmit_accepted _ _ _ _ Hok). fold updated.
  assert (Hid : updated !! "id"%string = existing !! "id"%string).
  { unfold updated. by rewrite spread_lookup, expenseData_lookup. }
  split; [done|].
  split; [intros u; unfold updateExpense; simpl; apply length_map|].
  split; [intros u i e Hi; by rewrite updateExpense_lookup, Hi|].
  split; [unfold updateExpense; simpl; apply length_map|].
  split.
  { intros i e Hi. rewrite updateExpense_lookup, Hi. simpl.
    by rewrite (get_lookup _ _ _ Hid). }
  repeat split; try (unfold get, updated; by rewrite spread_lookup, expenseData_lookup).
  intros k Hk. unfold updated. by rewrite spread_lookup, Hk.
Qed.

Lemma C6_update_witness :
  let existing := record 2 "Gym" "30" "2025-01-05" "Other" true in
  let st := initialState [record 1 "Rent" "1000" "2025-01-01" "Rent/Mortgage" false;
                          existing] in
  let f := setAmount "35" (initialForm (Some existing) ["Utilities"%string]) in
  let st' := snd (handleSubmit 0 (Some existing) f st) in
  length (expenses st') = 2%nat
  /\ expenses st' !! 0%nat = Some (record 1 "Rent" "1000" "2025-01-01" "Rent/Mortgage" false)
  /\ expenses st' !! 1%nat = Some (expenseData f ∪ existing).
Proof.
  intros existing st f st'.
  assert (Hok : error (fst (handleSubmit 0 (Some existing) f st)) = ""%string)
    by reflexivity.
  destruct (C6_update_in_place 0 existing f st Hok) as (_ & _ & _ & Hlen & Hat & _).
  split; [exact Hlen|]. split.
  - exact (Hat 0%nat _ eq_refl).
  - exact (Hat 1%nat _ eq_refl).
Defined.



(** ** Ids *)

Lemma step_keeps_distinct (a : action) (st : AppState) :
  match a with Add now _ => fresh now (expenses st) | _ => True end ->
  distinct (fun e => get e "id") (expenses st) ->
  distinct (fun e => get e "id") (expenses (step st a)).
Proof.
  destruct a as [now draft|updated|confirmed id|id]; simpl; intros Hfresh Hd.
  - apply distinct_snoc; [done|].
    rewrite get_insert_ne, get_insert_eq by done. exact Hfresh.
  - apply distinct_map; [|done]. intros e v.
    destruct (strict_eq (get e "id") (get updated "id")) eqn:Hid; [|done].
    by apply strict_eq_trans.
  - unfold deleteExpense. destruct confirmed; [|done].
    simpl. by apply distinct_filter.
  - apply distinct_map; [|done]. intros e v.
    destruct (strict_eq (get e "id") id); [|done].
    by rewrite get_insert_ne.
Qed.

Lemma stamped_fresh (clock now : Z) (l : list expense) :
  stamped clock l -> clock < now -> Z.abs now < 2 ^ 53 -> fresh now l.
Proof.
  intros Hst Hlt Hnow. unfold fresh. eapply Forall_impl; [exact Hst|].
  intros e (t & Ht & Hbound & Hid). simpl.
  rewrite <- (strict_eq_trans _ _ (VNum (of_Z now)) Hid). simpl.
  destruct (eqb (of_Z t) (of_Z now)) eqn:Heq; [|done].
  apply of_Z_eqb in Heq; lia.
Qed.

Lemma step_keeps_stamped (a : action) (clock : Z) (st : AppState) :
  stamped clock (expenses st) ->
  match a with
  | Add now _ => clock < now /\ Z.abs now < 2 ^ 53 -> stamped now (expenses (step st a))
  | _ => stamped clock (expenses (step st a))
  end.
Proof.
  unfold stamped. destruct a as [now draft|updated|confirmed id|id]; simpl; intros Hst.
  - intros [Hlt Hnow]. apply Forall_app. split.
    + eapply Forall_impl; [exact Hst|]. intros e (t & Ht & Hrest). exists t.
      split; [lia|done].
    + apply Forall_singleton. exists now.
      rewrite get_insert_ne, get_insert_eq by done. simpl.
      split; [lia|]. split; [done|]. apply of_Z_self.
  - rewrite Forall_forall in *. intros e' [e [<- He]]%list_elem_of_In%in_map_iff.
    destruct (Hst e) as (t & Ht & Hbound & Hid); [by apply list_elem_of_In|].
    exists t. split; [done|]. split; [done|].
    destruct (strict_eq (get e "id") (get updated "id")) eqn:Hsame; [|done].
    by rewrite (strict_eq_trans _ _ _ Hsame).
  - unfold deleteExpense. destruct confirmed; [|done]. simpl.
    rewrite Forall_forall in *. intros e [He _]%list_elem_of_In%filter_In.
    by apply Hst, list_elem_of_In.
  - rewrite Forall_forall in *. intros e' [e [<- He]]%list_elem_of_In%in_map_iff.
    destruct (Hst e) as (t & Ht & Hbound & Hid); [by apply list_elem_of_In|].
    exists t. split; [done|]. split; [done|].
    destruct (strict_eq (get e "id") id); [|done]. by rewrite get_insert_ne.
Qed.

Lemma increasing_timely (acts : list action) (clock : Z) (st : AppState) :
  stamped clock (expenses st) -> increasing clock acts -> timely acts st.
Proof.
  revert clock st. induction acts as [|a acts IH]; intros clock st Hst Hinc; [done|].
  pose proof (step_keeps_stamped a clock st Hst) as Hnext.
  destruct a as [now draft|updated|confirmed id|id]; simpl in Hinc |- *.
  - destruct Hinc as (Hlt & Hnow & Hrest). split.
    + by apply (stamped_fresh clock).
    + apply (IH now); [by apply Hnext | done].
  - split; [done|]. by apply (IH clock).
  - split; [done|]. by apply (IH clock).
  - split; [done|]. by apply (IH clock).
Qed.

(** C9, as the code has it. [addExpense] gives the new record the
    timestamp [Date.now()] as its id and appends it: the ids stay
    pairwise distinct exactly when they were and no record already has
    that timestamp as its id. [updateExpense], [deleteExpense] and
    [togglePaid] keep distinct ids distinct. So after any sequence of
    these events in which every add happens at a timestamp no record
    carries at that moment, no two records share an id; and that is
    the case when the ids are timestamps and the clock readings of the
    adds strictly increase. *)
Theorem C9_ids_stay_unique (acts : list action) (st : AppState) :
  (forall now draft,
     unique_ids (expenses (addExpense now draft st))
     <-> unique_ids (expenses st) /\ fresh now (expenses st))
  /\ (unique_ids (expenses st) -> timely acts st ->
      unique_ids (expenses (run acts st)))
  /\ (forall clock, unique_ids (expenses st) -> stamped clock (expenses st) ->
      increasing clock acts -> unique_ids (expenses (run acts st))).
Proof.
  assert (Hrun : unique_ids (expenses st) -> timely acts st ->
                 unique_ids (expenses (run acts st))).
  { unfold unique_ids. rewrite <- !distinct_pairwise. revert st.
    induction acts as [|a acts IH]; intros st Hd Ht; [done|].
    destruct Ht as [Hfresh Hrest]. apply IH; [|done].
    by apply step_keeps_distinct. }
  split; [|split; [done|]].
  - intros now draft. split.
    + unfold unique_ids, pairwise_distinct. intros H. split.
      * intros i j e1 e2 Hij H1 H2. apply (H i j); [done| |]; simpl;
          by apply lookup_app_l_Some.
      * apply Forall_forall. intros e [i Hi]%list_elem_of_lookup.
        assert (Hlt : (i < length (expenses st))%nat) by by eapply lookup_lt_Some.
        specialize (H i (length (expenses st)) e
          (<["paid" := VBool false]> (<["id" := VNum (of_Z now)]> draft))).
        cbv beta in H. rewrite get_insert_ne, get_insert_eq in H by done.
        apply H; [lia| |]; simpl.
        -- by apply lookup_app_l_Some.
        -- by rewrite lookup_app_r, Nat.sub_diag.
    + intros [Hu Hf]. apply distinct_pairwise.
      apply (step_keeps_distinct (Add now draft) st Hf). by apply distinct_pairwise.
  - intros clock Hu Hst Hinc. apply Hrun; [done|].
    by apply (increasing_timely acts clock).
Qed.

Lemma C9_ids_witness :
  let d := expenseData {| name := VStr "Rent"; amount := VStr "1000";
                          dueDate := VStr "2025-01-01"; category := VStr "Other";
                          error := "" |} in
  unique_ids
    (expenses (run [Add 1000 d; Add 1001 d; Toggle (VNum (of_Z 1000));
                    Delete true (VNum (of_Z 1001)); Add 1002 d]
                   (initialState []))).
Proof.
  intros d.
  apply (proj1 (proj2 (C9_ids_stay_unique _ (initialState [])))).
  - by intros [|i] j.
  - simpl. unfold fresh. repeat split; repeat constructor.
Defined.

(** C9 as stated fails: two adds in the same millisecond give two
    records the same id. *)
Lemma C9_counterexample :
  let d := expenseData {| name := VStr "Rent"; amount := VStr "1000";
                          dueDate := VStr "2025-01-01"; category := VStr "Other";
                          error := "" |} in
  exists e1 e2,
    expenses (run [Add 1000 d; Add 1000 d] (initialState [])) = [e1; e2]
    /\ strict_eq (get e1 "id") (get e2 "id") = true.
Proof. intros d. do 2 eexists. split; reflexivity. Qed.

(** ** The category breakdown *)

Lemma chartData_snoc (l : list expense) (e : expense) :
  chartData (l ++ [e]) = chartStep (chartData l) e.
Proof. unfold chartData. by rewrite fold_left_app. Qed.

Lemma numeric_snoc (l : list expense) (e : expense) :
  numeric (l ++ [e]) =
    numeric l ++ (if isNaN (parseFloat (get e "amount")) then [] else [e]).
Proof.
  unfold numeric. rewrite List.filter_app. simpl.
  by destruct (isNaN (parseFloat (get e "amount"))).
Qed.

Lemma amounts_of_snoc (c : prim) (l : list expense) (e : expense) :
  amounts_of c (l ++ [e]) =
    amounts_of c l ++
      (if negb (isNaN (parseFloat (get e "amount"))) && strict_eq (get e "category") c
       then [parseFloat (get e "amount")] else []).
Proof.
  unfold amounts_of. rewrite numeric_snoc, List.filter_app, map_app. f_equal.
  destruct (isNaN (parseFloat (get e "amount"))); simpl; [done|].
  by destruct (strict_eq (get e "category") c).
Qed.

Lemma found_existsb (acc : list item) (c : prim) :
  existsb (fun n => strict_eq n c) (map ExpenseChart.name acc) =
    match list_find (fun it => strict_eq (ExpenseChart.name it) c = true) acc with
    | Some _ => true
    | None => false
    end.
Proof.
  induction acc as [|a acc IH]; simpl; [done|].
  case_decide as Ha; simpl.
  - by rewrite Ha.
  - apply not_true_is_false in Ha. rewrite Ha. simpl. rewrite IH.
    by destruct (list_find _ acc).
Qed.

Lemma names_insert (acc : list item) (i : nat) (x : item) (v : number) :
  acc !! i = Some x ->
  map ExpenseChart.name
    (<[i := {| ExpenseChart.name := ExpenseChart.name x; value := v |}]> acc)
  = map ExpenseChart.name acc.
Proof.
  revert i. induction acc as [|a acc IH]; intros [|i] Hi; simpl in *; try done.
  - by simplify_eq.
  - f_equal. by apply IH.
Qed.

Lemma chartStep_names (acc : list item) (e : expense) :
  map ExpenseChart.name (chartStep acc e) =
    if isNaN (parseFloat (get e "amount")) then map ExpenseChart.name acc
    else if existsb (fun n => strict_eq n (get e "category")) (map ExpenseChart.name acc)
         then map ExpenseChart.name acc
         else map ExpenseChart.name acc ++ [get e "category"].
Proof.
  unfold chartStep. destruct (isNaN _); [done|].
  rewrite found_existsb.
  destruct (list_find _ acc) as [[i x]|] eqn:Hfind.
  - apply list_find_Some in Hfind as (Hi & _ & _). by apply names_insert.
  - by rewrite map_app.
Qed.

(** The names are the categories of the numeric records in the order
    of their first appearance. *)
Lemma chartData_names (l : list expense) :
  map ExpenseChart.name (chartData l)
  = first_seen (map (fun e => get e "category") (numeric l)).
Proof.
  induction l as [|e l IH] using rev_ind; [done|].
  rewrite chartData_snoc, chartStep_names, numeric_snoc, map_app.
  unfold first_seen in *. rewrite fold_left_app, <- IH.
  by destruct (isNaN _).
Qed.

Lemma chartData_distinct (l : list expense) :
  distinct ExpenseChart.name (chartData l).
Proof.
  induction l as [|e l IH] using rev_ind; [done|].
  rewrite chartData_snoc. unfold chartStep.
  destruct (isNaN _); [done|].
  destruct (list_find _ (chartData l)) as [[i x]|] eqn:Hfind.
  - apply list_find_Some in Hfind as (Hi & _ & _).
    apply (distinct_keys _ (chartData l)); [|done].
    symmetry. by apply names_insert.
  - apply list_find_None in Hfind. apply distinct_snoc; [done|].
    simpl. eapply Forall_impl; [exact Hfind|].
    intros it Hit. by apply not_true_is_false.
Qed.

(** Every category seen so far has its entry. *)
Lemma chartData_covers (l : list expense) (e : expense) :
  In e (numeric l) ->
  strict_eq (get e "category") (get e "category") = true ->
  existsb (fun n => strict_eq n (get e "category"))
    (map ExpenseChart.name (chartData l)) = true.
Proof.
  induction l as [|a l IH] using rev_ind; [done|].
  rewrite numeric_snoc, chartData_snoc, chartStep_names.
  intros Hin Hrefl. apply in_app_or in Hin.
  destruct (isNaN (parseFloat (get a "amount"))) eqn:Hnan.
  - destruct Hin as [Hin|[]]. by apply IH.
  - destruct (existsb (fun n => strict_eq n (get a "category")) _) eqn:Hseen.
    + destruct Hin as [Hin|[->|[]]]; [by apply IH | done].
    + rewrite existsb_app. apply orb_true_iff.
      destruct Hin as [Hin|[->|[]]]; [left; by apply IH|].
      right. simpl. by rewrite Hrefl.
Qed.

(** No record seen so far has the category of a fresh entry. *)
Lemma amounts_of_unseen (l : list expense) (c : prim) :
  existsb (fun n => strict_eq n c) (map ExpenseChart.name (chartData l)) = false ->
  amounts_of c l = [].
Proof.
  intros Hunseen. unfold amounts_of.
  destruct (List.filter _ (numeric l)) as [|e r] eqn:Hfilter; [done|].
  assert (He : In e (List.filter (fun e => strict_eq (get e "category") c) (numeric l)))
    by (rewrite Hfilter; by left).
  apply filter_In in He as [Hin Hc].
  pose proof (chartData_covers l e Hin (strict_eq_refl_l _ _ Hc)) as Hcov.
  apply existsb_exists in Hcov as (n & Hn & Hne).
  assert (Hnc : strict_eq n c = true).
  { by rewrite (strict_eq_trans _ _ c Hne) in Hc. }
  assert (existsb (fun n => strict_eq n c) (map ExpenseChart.name (chartData l)) = true)
    by (apply existsb_exists; eauto).
  congruence.
Qed.

(** Each entry holds the left-to-right sum of the numeric amounts of
    its category. *)
Lemma chartData_values (l : list expense) (it : item) :
  In it (chartData l) ->
  strict_eq (ExpenseChart.name it) (ExpenseChart.name it) = true ->
  exists a rest,
    amounts_of (ExpenseChart.name it) l = a :: rest
    /\ value it = fold_left add rest a.
Proof.
  revert it. induction l as [|e l IH] using rev_ind; intros it Hin Hrefl; [done|].
  rewrite amounts_of_snoc. rewrite chartData_snoc in Hin. unfold chartStep in Hin.
  destruct (isNaN (parseFloat (get e "amount"))) eqn:Hnan; simpl.
  { rewrite app_nil_r. by apply IH. }
  pose proof (found_existsb (chartData l) (get e "category")) as Hseen.
  destruct (list_find _ (chartData l)) as [[i x]|] eqn:Hfind.
  - apply list_find_Some in Hfind as (Hi & Hx & _).
    apply list_elem_of_In, list_elem_of_lookup in Hin as [j Hj].
    destruct (decide (i = j)) as [<-|Hij].
    + rewrite list_lookup_insert_eq in Hj by by eapply lookup_lt_Some.
      injection Hj as <-. simpl in *.
      destruct (IH x) as (a & rest & Hamounts & Hvalue);
        [by eapply list_elem_of_In, list_elem_of_lookup_2 | done |].
      rewrite strict_eq_sym, Hx, Hamounts. exists a, (rest ++ [parseFloat (get e "amount")]).
      split; [done|]. by rewrite fold_left_app, <- Hvalue.
    + rewrite list_lookup_insert_ne in Hj by done.
      assert (Hother : strict_eq (get e "category") (ExpenseChart.name it) = false).
      { rewrite (strict_eq_trans _ _ _ Hx).
        by apply (proj1 (distinct_pairwise _ _) (chartData_distinct l) i j x it). }
      rewrite Hother, app_nil_r.
      apply IH; [|done]. by eapply list_elem_of_In, list_elem_of_lookup_2.
  - apply in_app_or in Hin as [Hin|[<-|[]]]; simpl in *.
    + apply list_find_None in Hfind. rewrite Forall_forall in Hfind.
      assert (Hother : strict_eq (get e "category") (ExpenseChart.name it) = false).
      { rewrite strict_eq_sym. apply not_true_is_false, Hfind. by apply list_elem_of_In. }
      rewrite Hother, app_nil_r. by apply IH.
    + rewrite Hrefl, (amounts_of_unseen l _ Hseen). by exists (parseFloat (get e "amount")), [].
Qed.

(** Without infinite amounts no entry is NaN. *)
Lemma chartData_not_NaN (l : list expense) :
  (forall e, In e l -> is_infinite (parseFloat (get e "amount")) = false) ->
  Forall (fun it => isNaN (value it) = false) (chartData l).
Proof.
  induction l as [|e l IH] using rev_ind; intros Hfinite; [by constructor|].
  assert (Hl : Forall (fun it => isNaN (value it) = false) (chartData l)).
  { apply IH. intros e' He'. apply Hfinite, in_or_app. by left. }
  assert (He : is_infinite (parseFloat (get e "amount")) = false).
  { apply Hfinite, in_or_app. right. by left. }
  rewrite chartData_snoc. unfold chartStep.
  destruct (isNaN (parseFloat (get e "amount"))) eqn:Hnan; [done|].
  destruct (list_find _ (chartData l)) as [[i x]|] eqn:Hfind.
  - apply list_find_Some in Hfind as (Hi & _ & _).
    apply Forall_insert; [done|]. simpl.
    apply add_finite_not_NaN.
    + rewrite Forall_forall in Hl. apply Hl. by eapply list_elem_of_lookup_2.
    + by destruct (parseFloat (get e "amount")).
  - apply Forall_app. split; [done|]. by apply Forall_singleton.
Qed.

(** C8, as the code has it. The entries of the breakdown carry the
    categories of the records with a numeric amount, each once, in the
    order of first appearance; no two entries have the same name; the
    value of an entry is the sum, from left to right, of the numeric
    amounts of the records of its category (records whose amount is
    not numeric are skipped); and no value is NaN provided no amount
    reads as an infinity. (The third part leaves aside a name that is
    not [===] to itself, which only a NaN category would be.) *)
Theorem C8_category_breakdown (filtered : list expense) :
  let data := chartData filtered in
  map ExpenseChart.name data
  = first_seen (map (fun e => get e "category") (numeric filtered))
  /\ pairwise_distinct ExpenseChart.name data
  /\ (forall it, In it data ->
       strict_eq (ExpenseChart.name it) (ExpenseChart.name it) = true ->
       exists a rest,
         amounts_of (ExpenseChart.name it) filtered = a :: rest
         /\ value it = fold_left add rest a)
  /\ ((forall e, In e filtered -> is_infinite (parseFloat (get e "amount")) = false) ->
      forall it, In it data -> isNaN (value it) = false).
Proof.
  intros data. subst data. split; [apply chartData_names|].
  split; [apply distinct_pairwise, chartData_distinct|].
  split; [apply chartData_values|].
  intros Hfinite it Hin.
  pose proof (chartData_not_NaN filtered Hfinite) as Hall.
  rewrite Forall_forall in Hall. by apply Hall, list_elem_of_In.
Qed.

(** Two records of 800 and 200 under one category give one entry of
    1000, which is a number. *)
Lemma C8_breakdown_witness :
  let filtered := [record 1 "Rent" "800" "2025-01-01" "Rent/Mortgage" false;
                   record 2 "Deposit" "200" "2025-01-02" "Rent/Mortgage" true] in
  chartData filtered
  = [{| ExpenseChart.name := VStr "Rent/Mortgage"; value := of_Z 1000 |}]
  /\ forall it, In it (chartData filtered) -> isNaN (value it) = false.
Proof.
  intros filtered. split; [reflexivity|].
  apply (proj2 (proj2 (proj2 (C8_category_breakdown filtered)))).
  intros e [<-|[<-|[]]]; reflexivity.
Defined.

(** C8 as stated fails: the amounts [Infinity] and [-Infinity] are
    numeric, and under one category they sum to NaN. *)
Lemma C8_counterexample :
  chartData [record 1 "Win" "Infinity" "2025-01-01" "Other" false;
             record 2 "Loss" "-Infinity" "2025-01-02" "Other" false]
  = [{| ExpenseChart.name := VStr "Other"; value := NaN |}].
Proof. reflexivity. Qed.

Example chartData_skips_and_orders :
  chartData [record 1 "Power" "60.5" "2025-01-01" "Utilities" false;
             record 2 "Rent" "800" "2025-01-01" "Rent/Mortgage" false;
             record 3 "Water" "abc" "2025-01-03" "Groceries" false;
             record 4 "Gas" "39.5" "2025-01-04" "Utilities" true]
  = [{| ExpenseChart.name := VStr "Utilities"; value := of_Z 100 |};
     {| ExpenseChart.name := VStr "Rent/Mortgage"; value := of_Z 800 |}].
Proof. reflexivity. Qed.

(** ** The scenarios of the specification, run on the model *)

(** Scenario A: one add gives one unpaid record and a total of 1000. *)
Example scenario_add :
  let st := snd (handleSubmit 1735689600000 None rent_form (initialState [])) in
  length (expenses st) = 1%nat
  /\ Forall (fun e => get e "paid" = VBool false) (expenses st)
  /\ totalExpenses (filteredExpenses utc_host st) = of_Z 1000.
Proof. vm_compute. repeat split. repeat constructor. Qed.

(** Scenario B: the amount -5 is refused and nothing is stored. *)
Example scenario_negative_amount :
  handleSubmit 1735689600000 None (setAmount "-5" rent_form) (initialState [])
  = (setError "Amount must be greater than zero." (setAmount "-5" rent_form),
     initialState []).
Proof. reflexivity. Qed.

(** Scenario C: the year filter keeps the record of that year. *)
Example scenario_year_filter :
  let march := record 1 "Power" "60" "2025-03-01" "Utilities" false in
  let november := record 2 "Gas" "40" "2024-11-01" "Utilities" false in
  filteredExpenses utc_host
    (setFilters "All" "All" "2025" (initialState [march; november]))
  = [march].
Proof. reflexivity. Qed.

(** Scenario E, from the store to the collection. *)
Example scenario_corrupt_store :
  let ls := Available (<["expenses"%string := "not json"%string]> ∅) in
  match fst (initialExpenses ls) with
  | Return j => collection j = Some []
  | Throw _ => False
  end.
Proof. reflexivity. Qed.

(** * Further properties of the code *)

(** ** The collection: adding and deleting *)

Lemma filter_sublist {A : Type} (p : A -> bool) (l : list A) :
  sublist (List.filter p l) l.
Proof.
  induction l as [|a l IH]; simpl; [constructor|].
  destruct (p a); by constructor.
Qed.

Lemma filter_all {A : Type} (p : A -> bool) (l : list A) :
  (forall a, In a l -> p a = true) -> List.filter p l = l.
Proof.
  induction l as [|a l IH]; simpl; intros H; [done|].
  rewrite (H a) by by left. f_equal. apply IH. intros b Hb. apply H. by right.
Qed.

Lemma filter_twice {A : Type} (p : A -> bool) (l : list A) :
  List.filter p (List.filter p l) = List.filter p l.
Proof.
  apply filter_all. by intros a [_ Ha]%filter_In.
Qed.

(** X1. [addExpense] puts exactly one record at the end of the collection:
    the draft with the timestamp as its id and [paid] set to false;
    the records before it stay where they are and the form is closed. *)
Theorem addExpense_appends (now : Z) (draft : expense) (st : AppState) :
  let st' := addExpense now draft st in
  length (expenses st') = S (length (expenses st))
  /\ (forall i e, expenses st !! i = Some e -> expenses st' !! i = Some e)
  /\ (exists e', expenses st' !! length (expenses st) = Some e'
        /\ get e' "id" = VNum (of_Z now)
        /\ get e' "paid" = VBool false
        /\ forall k, k <> "id"%string -> k <> "paid"%string -> e' !! k = draft !! k)
  /\ isFormOpen st' = false.
Proof.
  simpl. split; [rewrite length_app; simpl; lia|].
  split; [intros i e Hi; by apply lookup_app_l_Some|].
  split; [|done].
  eexists. split; [by rewrite lookup_app_r, Nat.sub_diag|].
  split; [by rewrite get_insert_ne, get_insert_eq|].
  split; [by rewrite get_insert_eq|].
  intros k Hid Hpaid. by rewrite !lookup_insert_ne.
Qed.

(** X2. A confirmed [deleteExpense] removes every record whose id is
    [===] to the given one and nothing else, keeping the others in
    their order; a declined one changes nothing. *)
Theorem deleteExpense_removes (id : prim) (st : AppState) :
  (forall e, In e (expenses (deleteExpense true id st))
             <-> In e (expenses st) /\ strict_eq (get e "id") id = false)
  /\ sublist (expenses (deleteExpense true id st)) (expenses st)
  /\ isFormOpen (deleteExpense true id st) = isFormOpen st
  /\ deleteExpense false id st = st.
Proof.
  split; [|split; [apply filter_sublist|done]].
  intros e. simpl. rewrite filter_In, negb_true_iff. tauto.
Qed.

Lemma map_unchanged {A : Type} (g : A -> A) (l : list A) :
  (forall a, In a l -> g a = a) -> map g l = l.
Proof.
  intros H. rewrite <- (map_id l) at 2. by apply map_ext_in.
Qed.

Lemma setExpenses_same (st : AppState) : setExpenses (expenses st) st = st.
Proof. by destruct st. Qed.

(** X3. With distinct ids, deleting an id that is present removes exactly
    one record; deleting an id no record has changes nothing. *)
Theorem deleteExpense_one (id : prim) (st : AppState) :
  unique_ids (expenses st) ->
  ((exists e, In e (expenses st) /\ strict_eq (get e "id") id = true) ->
   S (length (expenses (deleteExpense true id st))) = length (expenses st))
  /\ ((forall e, In e (expenses st) -> strict_eq (get e "id") id = false) ->
      deleteExpense true id st = st).
Proof.
  intros Hu. split.
  - unfold unique_ids in Hu. apply distinct_pairwise in Hu. simpl.
    induction (expenses st) as [|a l IH]; intros (e & Hin & He); [destruct Hin|].
    destruct Hu as [Hhead Htail]. simpl.
    destruct (strict_eq (get a "id") id) eqn:Ha; simpl.
    + f_equal. f_equal. apply filter_all. intros b Hb.
      rewrite Forall_forall in Hhead.
      rewrite negb_true_iff, strict_eq_sym, (strict_eq_trans _ _ _ Ha).
      by apply Hhead, list_elem_of_In.
    + f_equal. apply IH; [done|]. destruct Hin as [->|Hin]; [congruence|eauto].
  - intros Habsent. unfold deleteExpense.
    rewrite filter_all; [apply setExpenses_same|].
    intros e He. by rewrite (Habsent e He).
Qed.

Lemma deleteExpense_one_witness :
  let st := initialState [record 1 "Rent" "1000" "2025-01-01" "Rent/Mortgage" false;
                          record 2 "Gym" "30" "2025-01-05" "Other" true] in
  S (length (expenses (deleteExpense true (VNum (of_Z 2)) st))) = 2%nat.
Proof.
  intros st.
  assert (Hu : unique_ids (expenses st)).
  { apply distinct_pairwise. simpl. repeat split; repeat constructor. }
  apply (proj1 (deleteExpense_one (VNum (of_Z 2)) st Hu)).
  exists (record 2 "Gym" "30" "2025-01-05" "Other" true).
  split; [right; by left | reflexivity].
Defined.

(** X4. An id no record has: [togglePaid] leaves the state as it is, and
    [updateExpense] leaves the collection as it is (it still closes
    the form). Neither reports that nothing was found. *)
Theorem absent_id_is_a_no_op (id : prim) (updatedExpense : expense) (st : AppState) :
  ((forall e, In e (expenses st) -> strict_eq (get e "id") id = false) ->
   togglePaid id st = st)
  /\ ((forall e, In e (expenses st) ->
         strict_eq (get e "id") (get updatedExpense "id") = false) ->
      expenses (updateExpense updatedExpense st) = expenses st
      /\ isFormOpen (updateExpense updatedExpense st) = false
      /\ editingExpense (updateExpense updatedExpense st) = None).
Proof.
  split.
  - intros Habsent. unfold togglePaid.
    rewrite (map_unchanged _ (expenses st)); [apply setExpenses_same|].
    intros e He. by rewrite (Habsent e He).
  - intros Habsent. split; [|done]. simpl.
    apply map_unchanged. intros e He. by rewrite (Habsent e He).
Qed.

Lemma absent_id_witness :
  let st := initialState [record 1 "Rent" "1000" "2025-01-01" "Rent/Mortgage" false] in
  togglePaid (VNum (of_Z 7)) st = st.
Proof.
  intros st. apply (proj1 (absent_id_is_a_no_op (VNum (of_Z 7)) ∅ st)).
  intros e [<-|[]]. reflexivity.
Defined.

(** ** The filtered view *)

Lemma filter_sublist_impl {A : Type} (p q : A -> bool) (l : list A) :
  (forall a, p a = true -> q a = true) ->
  sublist (List.filter p l) (List.filter q l).
Proof.
  intros Hpq. induction l as [|a l IH]; simpl; [constructor|].
  destruct (p a) eqn:Hp.
  - rewrite (Hpq a Hp). by constructor.
  - destruct (q a); [by constructor | done].
Qed.

Lemma filter_map_commute {A : Type} (p : A -> bool) (g : A -> A) (l : list A) :
  (forall a, p (g a) = p a) -> List.filter p (map g l) = map g (List.filter p l).
Proof.
  intros Hg. induction l as [|a l IH]; simpl; [done|].
  rewrite Hg. destruct (p a); simpl; by rewrite IH.
Qed.

(** X5. Filtering what was already filtered, under the same selection,
    gives the same list. *)
Theorem filteredExpenses_idempotent (h : DateHost) (st : AppState) :
  filteredExpenses h (setExpenses (filteredExpenses h st) st) = filteredExpenses h st.
Proof. unfold filteredExpenses. simpl. apply (filter_twice (shown h st)). Qed.

(** X6. Every record of the filtered view is a record of the collection
    with a due date, of the selected category when one is selected,
    and with a valid date in the selected year and month when these
    are selected. *)
Theorem filteredExpenses_selection (h : DateHost) (st : AppState) (e : expense) :
  In e (filteredExpenses h st) ->
  In e (expenses st)
  /\ ToBoolean (get e "dueDate") = true
  /\ (categoryFilter st <> "All"%string ->
      get e "category" = VStr (categoryFilter st))
  /\ (yearFilter st <> "All"%string ->
      exists y, getFullYear h (newDate h (get e "dueDate")) = Some y
                /\ parseInt (yearFilter st) = Some y)
  /\ (monthFilter st <> "All"%string ->
      exists m, getMonth h (newDate h (get e "dueDate")) = Some m
                /\ parseInt (monthFilter st) = Some m).
Proof.
  intros [Hin Hshown]%filter_In. split; [done|].
  unfold shown in Hshown.
  destruct (ToBoolean (get e "dueDate")); [|done]. simpl in Hshown.
  apply andb_true_iff in Hshown as [[Hc Hy]%andb_true_iff Hm].
  split; [done|]. split; [|split].
  - intros Hsel. apply orb_true_iff in Hc as [Hall%String.eqb_eq|Hc]; [done|].
    destruct (get e "category"); simpl in Hc; try done.
    by apply String.eqb_eq in Hc as ->.
  - intros Hsel. apply orb_true_iff in Hy as [Hall%String.eqb_eq|Hy]; [done|].
    destruct (getFullYear h _) as [y|]; [|done].
    destruct (parseInt (yearFilter st)) as [y'|]; [|done].
    simpl in Hy. apply Z.eqb_eq in Hy as ->. by exists y'.
  - intros Hsel. apply orb_true_iff in Hm as [Hall%String.eqb_eq|Hm]; [done|].
    destruct (getMonth h _) as [m|]; [|done].
    destruct (parseInt (monthFilter st)) as [m'|]; [|done].
    simpl in Hm. apply Z.eqb_eq in Hm as ->. by exists m'.
Qed.

Lemma filteredExpenses_selection_witness :
  let march := record 1 "Power" "60" "2025-03-01" "Utilities" false in
  let november := record 2 "Gas" "40" "2024-11-01" "Utilities" false in
  let st := setFilters "Utilities" "2" "2025" (initialState [march; november]) in
  getFullYear utc_host (newDate utc_host (get march "dueDate")) = Some 2025
  /\ getMonth utc_host (newDate utc_host (get march "dueDate")) = Some 2.
Proof.
  intros march november st.
  assert (Hin : In march (filteredExpenses utc_host st)).
  { apply (proj2 (filter_In (shown utc_host st) march (expenses st))).
    split; [left; reflexivity|]. vm_compute. reflexivity. }
  destruct (filteredExpenses_selection utc_host st march Hin)
    as (_ & _ & _ & Hy & Hm).
  destruct Hy as (y & Hy & Hparse); [done|].
  destruct Hm as (m & Hm & Hparse'); [done|].
  injection Hparse as <-. injection Hparse' as <-. by split.
Defined.

(** X7. With the three filters at [All] the view is the records that have
    a due date, in their order; every other selection shows a part of
    that view, in the same order. *)
Theorem filteredExpenses_narrows (h : DateHost) (st : AppState) :
  filteredExpenses h (setFilters "All" "All" "All" st)
  = List.filter (fun e => ToBoolean (get e "dueDate")) (expenses st)
  /\ sublist (filteredExpenses h st)
       (filteredExpenses h (setFilters "All" "All" "All" st))
  /\ sublist (filteredExpenses h st) (expenses st).
Proof.
  assert (Hall : forall e, shown h (setFilters "All" "All" "All" st) e
                           = ToBoolean (get e "dueDate")).
  { intros e. unfold shown. simpl. by destruct (ToBoolean (get e "dueDate")). }
  split; [|split].
  - unfold filteredExpenses. simpl. apply filter_ext. exact Hall.
  - unfold filteredExpenses. simpl. apply filter_sublist_impl.
    intros e He. rewrite Hall. unfold shown in He.
    by destruct (ToBoolean (get e "dueDate")).
  - apply filter_sublist.
Qed.

(** ** The totals *)

Lemma sub_zero_r (x : number) : sub x zero = x.
Proof. by destruct x as [[]| | |]. Qed.

Lemma summand_finite (e : expense) :
  ToBoolean (get e "amount") = false \/ is_finite (parseFloat (get e "amount")) = true ->
  is_finite (parseFloat (or_else (get e "amount") (VNum zero))) = true.
Proof. unfold or_else. intros [->| H]; [done|]. by destruct (ToBoolean _). Qed.

Lemma sum_of_finite (l : list expense) (acc : number) :
  isNaN acc = false ->
  (forall e, In e l ->
     ToBoolean (get e "amount") = false
     \/ is_finite (parseFloat (get e "amount")) = true) ->
  isNaN (fold_left
           (fun sum exp => add sum (parseFloat (or_else (get exp "amount") (VNum zero))))
           l acc) = false.
Proof.
  revert acc. induction l as [|e l IH]; intros acc Hacc Hl; [done|].
  cbn [fold_left]. apply IH.
  - apply add_finite_not_NaN; [done|]. apply summand_finite, Hl. by left.
  - intros e' He'. apply Hl. by right.
Qed.

(** X8. When every amount is missing, empty or reads as a finite number,
    the total and the paid total are numbers, not NaN. *)
Theorem totals_are_numbers (filtered : list expense) :
  (forall e, In e filtered ->
     ToBoolean (get e "amount") = false
     \/ is_finite (parseFloat (get e "amount")) = true) ->
  isNaN (totalExpenses filtered) = false /\ isNaN (paidExpenses filtered) = false.
Proof.
  intros Hl. split; [by apply sum_of_finite|].
  apply sum_of_finite; [done|]. intros e [He _]%filter_In. by apply Hl.
Qed.

Lemma totals_are_numbers_witness :
  let filtered := [record 1 "Rent" "1000.50" "2025-01-01" "Rent/Mortgage" false;
                   record 2 "Gym" "" "2025-01-05" "Other" true] in
  isNaN (totalExpenses filtered) = false /\ isNaN (paidExpenses filtered) = false.
Proof.
  intros filtered. apply totals_are_numbers.
  intros e [<-|[<-|[]]]; [by right | by left].
Defined.

(** X9. With nothing paid the paid total is zero and the remaining amount
    is the total; with everything paid the paid total is the total. *)
Theorem totals_at_the_extremes (filtered : list expense) :
  ((forall e, In e filtered -> ToBoolean (get e "paid") = false) ->
   paidExpenses filtered = zero /\ unpaidExpenses filtered = totalExpenses filtered)
  /\ ((forall e, In e filtered -> ToBoolean (get e "paid") = true) ->
      paidExpenses filtered = totalExpenses filtered).
Proof.
  split.
  - intros Hnone.
    assert (Hpaid : paidExpenses filtered = zero).
    { unfold paidExpenses.
      replace (List.filter _ filtered) with (@nil expense); [done|].
      symmetry. induction filtered as [|a l IH]; [done|]. simpl.
      rewrite (Hnone a) by by left. apply IH. intros e He. apply Hnone. by right. }
    split; [done|]. unfold unpaidExpenses. rewrite Hpaid. apply sub_zero_r.
  - intros Hall. unfold paidExpenses. by rewrite filter_all.
Qed.

Lemma totals_at_the_extremes_witness :
  let filtered := [record 1 "Rent" "1000" "2025-01-01" "Rent/Mortgage" false;
                   record 2 "Gym" "30" "2025-01-05" "Other" false] in
  paidExpenses filtered = zero /\ unpaidExpenses filtered = totalExpenses filtered.
Proof.
  intros filtered. apply (proj1 (totals_at_the_extremes filtered)).
  intros e [<-|[<-|[]]]; reflexivity.
Defined.

(** ** Marking paid leaves the view, the total and the chart alone *)

Lemma fold_left_map {A B C : Type} (f : A -> C -> A) (g : B -> C) (l : list B) (a : A) :
  fold_left f (map g l) a = fold_left (fun acc b => f acc (g b)) l a.
Proof. revert a. induction l as [|b l IH]; intros a; simpl; [done|]. apply IH. Qed.

Lemma fold_left_ext_in {A B : Type} (f g : A -> B -> A) (l : list B) (a : A) :
  (forall acc b, In b l -> f acc b = g acc b) -> fold_left f l a = fold_left g l a.
Proof.
  revert a. induction l as [|b l IH]; intros a H; simpl; [done|].
  rewrite H by by left. apply IH. intros acc b' Hb'. apply H. by right.
Qed.

(** X10. [togglePaid] shows the same records in the same places, each with
    at most its [paid] property changed, and leaves the total and the
    category breakdown of the view as they were. *)
Theorem togglePaid_keeps_view (h : DateHost) (id : prim) (st : AppState) :
  let toggle := fun exp : expense =>
    if strict_eq (get exp "id") id
    then <["paid" := VBool (negb (ToBoolean (get exp "paid")))]> exp
    else exp in
  filteredExpenses h (togglePaid id st) = map toggle (filteredExpenses h st)
  /\ totalExpenses (filteredExpenses h (togglePaid id st))
     = totalExpenses (filteredExpenses h st)
  /\ chartData (filteredExpenses h (togglePaid id st))
     = chartData (filteredExpenses h st).
Proof.
  intros toggle.
  assert (Hkeep : forall e k, k <> "paid"%string -> get (toggle e) k = get e k).
  { intros e k Hk. unfold toggle. destruct (strict_eq _ _); [|done].
    by apply get_insert_ne. }
  assert (Hview : filteredExpenses h (togglePaid id st)
                  = map toggle (filteredExpenses h st)).
  { unfold filteredExpenses. simpl. fold toggle. apply filter_map_commute.
    intros e. unfold shown. simpl. by rewrite !Hkeep. }
  split; [done|]. rewrite Hview. split.
  - unfold totalExpenses. rewrite fold_left_map. apply fold_left_ext_in.
    intros acc e _. by rewrite Hkeep.
  - unfold chartData. rewrite fold_left_map. apply fold_left_ext_in.
    intros acc e _. unfold chartStep. by rewrite !Hkeep.
Qed.

(** ** The chart *)

Lemma first_seen_step_nonempty (cs seen : list prim) :
  seen <> [] ->
  fold_left
    (fun seen c => if existsb (fun n => strict_eq n c) seen then seen else seen ++ [c])
    cs seen <> [].
Proof.
  revert seen. induction cs as [|c cs IH]; intros seen Hseen; [done|].
  simpl. apply IH. destruct (existsb _ seen); [done|]. by destruct seen.
Qed.

Lemma first_seen_step_length (cs seen : list prim) :
  (length (fold_left
             (fun seen c =>
                if existsb (fun n => strict_eq n c) seen then seen else seen ++ [c])
             cs seen) <= length seen + length cs)%nat.
Proof.
  revert seen. induction cs as [|c cs IH]; intros seen; simpl; [lia|].
  etrans; [apply IH|]. destruct (existsb _ seen); [lia|].
  rewrite length_app. simpl. lia.
Qed.

Lemma numeric_none (l : list expense) :
  (forall e, In e l -> isNaN (parseFloat (get e "amount")) = true) -> numeric l = [].
Proof.
  unfold numeric. induction l as [|a l IH]; intros Hall; [done|]. simpl.
  rewrite (Hall a) by by left. simpl. apply IH. intros e He. apply Hall. by right.
Qed.

(** X11. The chart has no entry, and the component shows its "no data"
    text, exactly when no record has a numeric amount; and it never
    has more entries than there are such records. *)
Theorem chartData_empty (filtered : list expense) :
  (chartData filtered = []
   <-> forall e, In e filtered -> isNaN (parseFloat (get e "amount")) = true)
  /\ (length (chartData filtered) <= length (numeric filtered))%nat.
Proof.
  pose proof (chartData_names filtered) as Hnames. split.
  - split.
    + intros Hempty e He.
      destruct (isNaN (parseFloat (get e "amount"))) eqn:Hnan; [done|].
      assert (Hin : In e (numeric filtered)).
      { unfold numeric. apply filter_In. split; [done|]. rewrite Hnan. done. }
      rewrite Hempty in Hnames. simpl in Hnames.
      destruct (numeric filtered) as [|a r]; [destruct Hin|].
      unfold first_seen in Hnames. simpl in Hnames.
      symmetry in Hnames. by apply first_seen_step_nonempty in Hnames.
    + intros Hall.
      rewrite (numeric_none filtered Hall) in Hnames. simpl in Hnames.
      by destruct (chartData filtered).
  - rewrite <- (length_map ExpenseChart.name), Hnames.
    rewrite <- (length_map (fun e => get e "category") (numeric filtered)).
    apply (first_seen_step_length _ []).
Qed.

(** *** The entries add up to the total *)

Lemma Zsum_abs_nonneg (zs : list Z) : 0 <= Zsum_abs zs.
Proof. induction zs; simpl; lia. Qed.

Lemma Zsum_bound (zs : list Z) : Z.abs (Zsum zs) <= Zsum_abs zs.
Proof. induction zs; simpl; lia. Qed.

Lemma Zsum_app (xs ys : list Z) : Zsum (xs ++ ys) = Zsum xs + Zsum ys.
Proof. induction xs; simpl; lia. Qed.

Lemma Zsum_abs_app (xs ys : list Z) : Zsum_abs (xs ++ ys) = Zsum_abs xs + Zsum_abs ys.
Proof. induction xs; simpl; lia. Qed.

Lemma Zsum_insert (zs : list Z) (i : nat) (x y : Z) :
  zs !! i = Some x ->
  Zsum (<[i := y]> zs) = Zsum zs - x + y
  /\ Zsum_abs (<[i := y]> zs) = Zsum_abs zs - Z.abs x + Z.abs y
  /\ Z.abs x <= Zsum_abs zs.
Proof.
  revert i. induction zs as [|z zs IH]; intros [|i] Hi; simpl in *; try done.
  - injection Hi as ->. pose proof (Zsum_abs_nonneg zs). lia.
  - destruct (IH i Hi) as (H1 & H2 & H3). lia.
Qed.

Lemma sum_of_whole (zs : list Z) (a : Z) :
  Z.abs a + Zsum_abs zs < 2 ^ 53 ->
  fold_left add (map of_Z zs) (of_Z a) = of_Z (a + Zsum zs).
Proof.
  revert a. induction zs as [|z zs IH]; intros a Hb; simpl in *; [f_equal; lia|].
  pose proof (Zsum_abs_nonneg zs).
  rewrite add_of_Z by lia. rewrite IH by lia. f_equal. lia.
Qed.

Lemma amount_or_zero (e : expense) :
  isNaN (parseFloat (get e "amount")) = false ->
  parseFloat (or_else (get e "amount") (VNum zero)) = parseFloat (get e "amount").
Proof.
  unfold or_else. destruct (get e "amount") as [| |b|n|s]; try done.
  - by destruct n.
  - simpl. destruct (String.eqb_spec s ""); [by subst|done].
Qed.

(** The ledger of the chart: whole values that the entries hold. *)
Lemma chartData_ledger (units : expense -> Z) (l : list expense) :
  (forall e, In e l -> parseFloat (get e "amount") = of_Z (units e)) ->
  sum_abs units l < 2 ^ 53 ->
  exists zs, map value (chartData l) = map of_Z zs
             /\ Zsum zs = sum_units units l
             /\ Zsum_abs zs <= sum_abs units l.
Proof.
  induction l as [|e l IH] using rev_ind; intros Hwhole Hbound.
  { exists []. by repeat split. }
  assert (Hsplit : sum_units units (l ++ [e]) = sum_units units l + units e
                   /\ sum_abs units (l ++ [e]) = sum_abs units l + Z.abs (units e)).
  { clear. induction l as [|a l [IH1 IH2]]; simpl; [lia|]. simpl in *. lia. }
  destruct Hsplit as [Hs Ha]. rewrite Hs, Ha in *.
  pose proof (sum_abs_nonneg units l) as Hnn.
  destruct IH as (zs & Hvalues & Hsum & Habs).
  { intros e' He'. apply Hwhole, in_or_app. by left. }
  { lia. }
  assert (He : parseFloat (get e "amount") = of_Z (units e)).
  { apply Hwhole, in_or_app. right. by left. }
  rewrite chartData_snoc. unfold chartStep. rewrite He.
  assert (Hnum : isNaN (of_Z (units e)) = false) by apply binary_normalize_not_NaN.
  rewrite Hnum.
  destruct (list_find _ (chartData l)) as [[i x]|] eqn:Hfind.
  - apply list_find_Some in Hfind as (Hi & _ & _).
    assert (Hzi : exists z, zs !! i = Some z /\ value x = of_Z z).
    { assert (Hv : map value (chartData l) !! i = Some (value x))
        by (by rewrite lookup_map, Hi).
      rewrite Hvalues, lookup_map in Hv.
      destruct (zs !! i) as [z|]; [|done]. injection Hv as Hv. by exists z. }
    destruct Hzi as (z & Hz & Hvx).
    destruct (Zsum_insert zs i z (z + units e) Hz) as (H1 & H2 & H3).
    exists (<[i := z + units e]> zs). split; [|split; [lia|lia]].
    change (map value) with (fmap (M:=list) value).
    change (map of_Z) with (fmap (M:=list) of_Z).
    rewrite !list_fmap_insert. simpl.
    change (fmap (M:=list) value (chartData l)) with (map value (chartData l)).
    rewrite Hvalues, Hvx, add_of_Z by lia. done.
  - exists (zs ++ [units e]). rewrite !map_app, Hvalues, Zsum_app, Zsum_abs_app.
    simpl. split; [done|]. lia.
Qed.

(** X12. With whole amounts whose absolute values sum to less than
    [2 ^ 53], the values of the chart add up to the total of the same
    records. *)
Theorem chartData_adds_up (filtered : list expense) (units : expense -> Z) :
  (forall e, In e filtered -> parseFloat (get e "amount") = of_Z (units e)) ->
  sum_abs units filtered < 2 ^ 53 ->
  fold_left add (map value (chartData filtered)) zero = totalExpenses filtered.
Proof.
  intros Hwhole Hbound.
  destruct (chartData_ledger units filtered Hwhole Hbound) as (zs & Hvalues & Hsum & Habs).
  rewrite Hvalues. change zero with (of_Z 0).
  rewrite sum_of_whole by (simpl; lia).
  rewrite (totals_exact units filtered); [f_equal; lia| |done].
  intros e He. rewrite amount_or_zero; [by apply Hwhole|].
  rewrite (Hwhole e He). apply binary_normalize_not_NaN.
Qed.

Lemma chartData_adds_up_witness :
  let filtered := [record 1 "Power" "60" "2025-01-01" "Utilities" false;
                   record 2 "Rent" "800" "2025-01-01" "Rent/Mortgage" false;
                   record 3 "Gas" "40" "2025-01-04" "Utilities" true] in
  fold_left add (map value (chartData filtered)) zero = totalExpenses filtered.
Proof.
  intros filtered.
  apply (chartData_adds_up filtered
           (fun e => match truncate (parseFloat (get e "amount")) with
                     | Some z => z
                     | None => 0
                     end)).
  - intros e [<-|[<-|[<-|[]]]]; reflexivity.
  - reflexivity.
Defined.

(** ** The form *)

(** X13. The three ways a submission ends. A missing field gives the first
    message, whatever the amount; with the four fields present an
    amount that reads as a number not above zero gives the second; in
    both cases the state of [App] is untouched. The message is empty
    exactly when the four fields are present and the amount does not
    read as a number at or below zero. *)
Theorem handleSubmit_verdict (now : Z) (existingExpense : option expense)
    (f : FormState) (st : AppState) :
  let out := handleSubmit now existingExpense f st in
  let present := ToBoolean (name f) && ToBoolean (amount f)
                 && ToBoolean (dueDate f) && ToBoolean (category f) in
  (present = false -> out = (setError "All fields are required." f, st))
  /\ (present = true -> leb (parseFloat (amount f)) zero = true ->
      out = (setError "Amount must be greater than zero." f, st))
  /\ (error (fst out) = ""%string
      <-> present = true /\ leb (parseFloat (amount f)) zero = false)
  /\ (error (fst out) <> ""%string -> snd out = st)
  /\ name (fst out) = name f /\ amount (fst out) = amount f
  /\ dueDate (fst out) = dueDate f /\ category (fst out) = category f.
Proof.
  unfold handleSubmit.
  destruct (ToBoolean (name f)), (ToBoolean (amount f)), (ToBoolean (dueDate f)),
    (ToBoolean (category f)); simpl;
    try (repeat split; (done || intros [? ?]; done)).
  destruct (leb (parseFloat (amount f)) zero); simpl.
  - repeat split; (done || intros [? ?]; done).
  - destruct existingExpense; repeat split; done.
Qed.

Lemma handleSubmit_verdict_witness :
  handleSubmit 0 None (setName "" rent_form) (initialState [])
  = (setError "All fields are required." (setName "" rent_form), initialState []).
Proof.
  apply (proj1 (handleSubmit_verdict 0 None (setName "" rent_form) (initialState []))).
  reflexivity.
Defined.

(** X14. An accepted new expense joins the end of the collection with the
    four fields of the form, the timestamp as its id and [paid] set to
    false, and the form is closed. *)
Theorem handleSubmit_adds (now : Z) (f : FormState) (st : AppState) :
  error (fst (handleSubmit now None f st)) = ""%string ->
  exists e,
    expenses (snd (handleSubmit now None f st)) = expenses st ++ [e]
    /\ get e "name" = name f /\ get e "amount" = amount f
    /\ get e "dueDate" = dueDate f /\ get e "category" = category f
    /\ get e "id" = VNum (of_Z now) /\ get e "paid" = VBool false
    /\ isFormOpen (snd (handleSubmit now None f st)) = false.
Proof.
  intros Hok. rewrite (handleSubmit_accepted _ _ _ _ Hok). simpl.
  eexists. split; [done|].
  repeat split; unfold get;
    rewrite ?lookup_insert_eq, ?lookup_insert_ne, ?expenseData_lookup by done; done.
Qed.

Lemma handleSubmit_adds_witness :
  exists e,
    expenses (snd (handleSubmit 1735689600000 None rent_form (initialState []))) = [e]
    /\ get e "name" = VStr "Rent" /\ get e "paid" = VBool false.
Proof.
  destruct (handleSubmit_adds 1735689600000 rent_form (initialState []) eq_refl)
    as (e & Hexp & Hname & _ & _ & _ & _ & Hpaid & _).
  exists e. split; [exact Hexp|]. split; [exact Hname | exact Hpaid].
Defined.

Lemma truthy_present (e : expense) (k : string) :
  ToBoolean (get e k) = true -> e !! k = Some (get e k).
Proof. unfold get. by destruct (e !! k). Qed.

(** The form opened on a record with its four fields present shows
    those fields, and the record it would hand to [onUpdate] is that
    very record. *)
Lemma initialForm_spread (existing : expense) (categories : list string) :
  ToBoolean (get existing "name") = true ->
  ToBoolean (get existing "amount") = true ->
  ToBoolean (get existing "dueDate") = true ->
  ToBoolean (get existing "category") = true ->
  expenseData (initialForm (Some existing) categories) ∪ existing = existing.
Proof.
  intros Hn Ha Hd Hc. apply map_eq. intros k.
  rewrite spread_lookup, expenseData_lookup. unfold initialForm, or_else. simpl.
  rewrite Hn, Ha, Hd, Hc.
  repeat (case_decide; [subst; symmetry; by apply truthy_present|]). done.
Qed.

(** X15. Opening a record in the form and saving it untouched leaves the
    collection as it was, provided the record has its four fields, an
    amount that passes the check, and an id no other record has. *)
Theorem edit_and_save_untouched (now : Z) (existing : expense)
    (categories : list string) (st : AppState) (i : nat) :
  expenses st !! i = Some existing ->
  unique_ids (expenses st) ->
  ToBoolean (get existing "name") = true ->
  ToBoolean (get existing "amount") = true ->
  ToBoolean (get existing "dueDate") = true ->
  ToBoolean (get existing "category") = true ->
  leb (parseFloat (get existing "amount")) zero = false ->
  let out := handleSubmit now (Some existing)
               (initialForm (Some existing) categories) (handleEdit existing st) in
  error (fst out) = ""%string
  /\ expenses (snd out) = expenses st
  /\ isFormOpen (snd out) = false
  /\ editingExpense (snd out) = None.
Proof.
  intros Hi Hu Hn Ha Hd Hc Hpos out.
  assert (Hout : out = (setError "" (initialForm (Some existing) categories),
                        updateExpense existing (handleEdit existing st))).
  { subst out. set (f := initialForm (Some existing) categories).
    assert (Hfn : name f = get existing "name")
      by (unfold f, initialForm, or_else; simpl; by rewrite Hn).
    assert (Hfa : amount f = get existing "amount")
      by (unfold f, initialForm, or_else; simpl; by rewrite Ha).
    assert (Hfd : dueDate f = get existing "dueDate")
      by (unfold f, initialForm, or_else; simpl; by rewrite Hd).
    assert (Hfc : category f = get existing "category")
      by (unfold f, initialForm, or_else; simpl; by rewrite Hc).
    unfold handleSubmit. rewrite Hfn, Hfa, Hfd, Hfc, Hn, Ha, Hd, Hc, Hpos.
    cbn [negb orb]. unfold f. by rewrite initialForm_spread. }
  rewrite Hout. split; [done|]. split; [|done]. simpl.
  apply list_eq. intros j. rewrite lookup_map.
  destruct (expenses st !! j) as [e|] eqn:Hj; [|done]. simpl. f_equal.
  destruct (decide (j = i)) as [->|Hji].
  - rewrite Hi in Hj. injection Hj as <-. by destruct (strict_eq _ _).
  - by rewrite (Hu j i e existing Hji Hj Hi).
Qed.

Lemma edit_and_save_untouched_witness :
  let gym := record 2 "Gym" "30" "2025-01-05" "Other" true in
  let st := initialState [record 1 "Rent" "1000" "2025-01-01" "Rent/Mortgage" false; gym] in
  expenses (snd (handleSubmit 0 (Some gym) (initialForm (Some gym) ["Utilities"%string])
                   (handleEdit gym st)))
  = expenses st.
Proof.
  intros gym st.
  assert (Hu : unique_ids (expenses st)).
  { apply distinct_pairwise. simpl. repeat split; repeat constructor. }
  apply (edit_and_save_untouched 0 gym ["Utilities"%string] st 1 eq_refl Hu
           eq_refl eq_refl eq_refl eq_refl eq_refl).
Defined.

(** ** Sorting *)

Lemma insert_sorted_perm {A : Type} (le : A -> A -> bool) (x : A) (l : list A) :
  insert_sorted le x l ≡ₚ x :: l.
Proof.
  induction l as [|y r IH]; simpl; [done|].
  destruct (le x y); [done|]. rewrite IH. apply Permutation_swap.
Qed.

Lemma Array_sort_perm {A : Type} (le : A -> A -> bool) (l : list A) :
  Array_sort le l ≡ₚ l.
Proof.
  induction l as [|x r IH]; simpl; [done|].
  by rewrite insert_sorted_perm, IH.
Qed.

Section Sorted.

Context {A : Type} (le : A -> A -> bool) (R : A -> A -> Prop) (P : A -> Prop).
Hypothesis R_trans : forall a b c, R a b -> R b c -> R a c.
Hypothesis le_true : forall a b, P a -> P b -> le a b = true -> R a b.
Hypothesis le_false : forall a b, P a -> P b -> le a b = false -> R b a.

Lemma insert_sorted_sorted (x : A) (l : list A) :
  P x -> Forall P l -> StronglySorted R l -> StronglySorted R (insert_sorted le x l).
Proof.
  intros Hx. induction l as [|y r IH]; intros HP Hs; simpl.
  - constructor; constructor.
  - apply Forall_cons in HP as [Hy Hr].
    apply StronglySorted_inv in Hs as [Hsr Hyr].
    destruct (le x y) eqn:Hle.
    + constructor; [by constructor|].
      pose proof (le_true x y Hx Hy Hle) as Hxy.
      constructor; [done|]. eapply List.Forall_impl; [|exact Hyr].
      intros z Hz. by apply (R_trans x y z).
    + constructor; [by apply IH|].
      apply List.Forall_forall. intros z Hz.
      apply (Permutation_in _ (insert_sorted_perm le x r)) in Hz.
      destruct Hz as [<-|Hz]; [by apply le_false|].
      rewrite List.Forall_forall in Hyr. by apply Hyr.
Qed.

Lemma Array_sort_sorted (l : list A) :
  Forall P l -> StronglySorted R (Array_sort le l).
Proof.
  induction l as [|x r IH]; intros HP; simpl; [constructor|].
  apply Forall_cons in HP as [Hx Hr].
  apply insert_sorted_sorted; [done| |by apply IH].
  by rewrite Array_sort_perm.
Qed.

End Sorted.

(** X16. The rows of the list are the records it was given, rearranged;
    when every due date is valid they are in ascending order of due
    date. *)
Theorem sortedByDueDate_ascending (h : DateHost) (l : list expense) :
  sortedByDueDate h l ≡ₚ l
  /\ ((forall e, In e l -> newDate h (get e "dueDate") <> None) ->
      StronglySorted
        (fun a b => exists x y, newDate h (get a "dueDate") = Some x
                                /\ newDate h (get b "dueDate") = Some y /\ x <= y)
        (sortedByDueDate h l)).
Proof.
  split; [apply Array_sort_perm|].
  intros Hvalid. unfold sortedByDueDate.
  apply (Array_sort_sorted _ _ (fun e => newDate h (get e "dueDate") <> None)).
  - intros a b c (x & y & Ha & Hb & Hxy) (y' & z & Hb' & Hc & Hyz).
    exists x, z. rewrite Hb in Hb'. injection Hb' as <-. split; [done|]. split; [done|lia].
  - intros a b Ha Hb Hle.
    destruct (newDate h (get a "dueDate")) as [x|]; [|done].
    destruct (newDate h (get b "dueDate")) as [y|]; [|done].
    exists x, y. split; [done|]. split; [done|]. by apply Z.leb_le.
  - intros a b Ha Hb Hle.
    destruct (newDate h (get a "dueDate")) as [x|]; [|done].
    destruct (newDate h (get b "dueDate")) as [y|]; [|done].
    exists y, x. split; [done|]. split; [done|]. apply Z.leb_gt in Hle. lia.
  - apply Forall_forall. intros e He. by apply Hvalid, list_elem_of_In.
Qed.

Lemma sortedByDueDate_witness :
  let march := record 1 "Power" "60" "2025-03-01" "Utilities" false in
  let november := record 2 "Gas" "40" "2024-11-01" "Utilities" false in
  StronglySorted
    (fun a b => exists x y, newDate utc_host (get a "dueDate") = Some x
                            /\ newDate utc_host (get b "dueDate") = Some y /\ x <= y)
    (sortedByDueDate utc_host [march; november]).
Proof.
  intros march november.
  apply (proj2 (sortedByDueDate_ascending utc_host [march; november])).
  intros e [<-|[<-|[]]]; discriminate.
Defined.

Lemma insert_sorted_filter {A : Type} (le : A -> A -> bool) (p : A -> bool) (x : A)
    (l : list A) :
  (forall y, p x = true -> le x y = false -> p y = false) ->
  List.filter p (insert_sorted le x l) = List.filter p (x :: l).
Proof.
  intros Hpass. induction l as [|y r IH]; [done|].
  cbn [insert_sorted]. destruct (le x y) eqn:Hle; [done|].
  cbn [List.filter] in *. rewrite IH.
  destruct (p x) eqn:Hx; [|done]. by rewrite (Hpass y).
Qed.

Lemma Array_sort_filter {A : Type} (le : A -> A -> bool) (p : A -> bool) (l : list A) :
  (forall x y, p x = true -> le x y = false -> p y = false) ->
  List.filter p (Array_sort le l) = List.filter p l.
Proof.
  intros Hpass. induction l as [|x r IH]; [done|].
  cbn [Array_sort]. rewrite insert_sorted_filter by (by apply Hpass).
  cbn [List.filter]. by rewrite IH.
Qed.

(** X17. The sort is stable: when every due date is valid, the records due
    on one date stand in the rows in the order they had before. *)
Theorem sortedByDueDate_stable (h : DateHost) (l : list expense) (d : Z) :
  (forall e, In e l -> newDate h (get e "dueDate") <> None) ->
  List.filter (fun e => bool_decide (newDate h (get e "dueDate") = Some d))
    (sortedByDueDate h l)
  = List.filter (fun e => bool_decide (newDate h (get e "dueDate") = Some d)) l.
Proof.
  intros _. apply Array_sort_filter. intros x y Hx Hle.
  apply bool_decide_eq_true in Hx. rewrite Hx in Hle.
  destruct (newDate h (get y "dueDate")) as [dy|]; [|done].
  apply Z.leb_gt in Hle. apply bool_decide_eq_false. intros [= ->]. lia.
Qed.

Lemma sortedByDueDate_stable_witness :
  let march := record 1 "Power" "60" "2025-03-01" "Utilities" false in
  let november := record 2 "Gas" "40" "2024-11-01" "Utilities" false in
  let also_march := record 3 "Water" "20" "2025-03-01" "Utilities" false in
  List.filter (fun e => bool_decide (newDate utc_host (get e "dueDate") = Some 1740787200000))
    (sortedByDueDate utc_host [march; november; also_march])
  = [march; also_march].
Proof.
  intros march november also_march.
  apply (sortedByDueDate_stable utc_host [march; november; also_march] 1740787200000).
  intros e [<-|[<-|[<-|[]]]]; discriminate.
Defined.

Example sortedByDueDate_order :
  let march := record 1 "Power" "60" "2025-03-01" "Utilities" false in
  let november := record 2 "Gas" "40" "2024-11-01" "Utilities" false in
  let also_march := record 3 "Water" "20" "2025-03-01" "Utilities" false in
  sortedByDueDate utc_host [march; november; also_march]
  = [november; march; also_march].
Proof. reflexivity. Qed.

(** ** The rows *)

(** X18. A row is red exactly when the record is not paid and its due date
    is a valid date before now; a paid row is green whatever its date;
    the border has the colour of the background. *)
Theorem row_colours (h : DateHost) (now : Z) (e : expense) :
  (itemBg h now e = "bg-red-50"%string
   <-> ToBoolean (get e "paid") = false
       /\ exists t, newDate h (get e "dueDate") = Some t /\ t < now)
  /\ (itemBg h now e = "bg-green-50"%string <-> ToBoolean (get e "paid") = true)
  /\ (itemBg h now e = "bg-red-50"%string
      <-> borderColor h now e = "border-red-300"%string)
  /\ (itemBg h now e = "bg-green-50"%string
      <-> borderColor h now e = "border-green-300"%string)
  /\ (ToBoolean (get e "paid") = true <-> toggleLabel e = "Mark as Unpaid"%string).
Proof.
  unfold itemBg, borderColor, toggleLabel, isPastDue.
  destruct (ToBoolean (get e "paid")); simpl;
    [|destruct (newDate h (get e "dueDate")) as [t|]; simpl;
      [destruct (Z.ltb_spec t now)|]];
    repeat split; try done;
    try (intros [? (? & ? & ?)]; simplify_eq; lia);
    try (eexists; by split).
Qed.

(** ** The string of an integer reads back as that integer *)

Lemma digit_char (m : N) :
  (m < 10)%N ->
  is_digit (ascii_of_N (48 + m)) = true /\ digit_value (ascii_of_N (48 + m)) = m.
Proof.
  intros Hm.
  assert (H : (m = 0 \/ m = 1 \/ m = 2 \/ m = 3 \/ m = 4 \/ m = 5 \/ m = 6 \/ m = 7
              \/ m = 8 \/ m = 9)%N) by lia.
  destruct H as [->|[->|[->|[->|[->|[->|[->|[->|[->| ->]]]]]]]]]; by split.
Qed.

Lemma digits_value_snoc (l : list ascii) (c : ascii) :
  digits_value (l ++ [c]) = (digits_value l * 10 + digit_value c)%N.
Proof. unfold digits_value. by rewrite fold_left_app. Qed.

Lemma decimal_digits_acc (fuel : nat) (n : N) (acc : list ascii) :
  decimal_digits fuel n acc = decimal_digits fuel n [] ++ acc.
Proof.
  revert n acc. induction fuel as [|fuel IH]; intros n acc; simpl; [done|].
  destruct (n <? 10)%N; [done|].
  rewrite (IH _ (_ :: acc)), (IH _ [_]). by rewrite <- app_assoc.
Qed.

Lemma decimal_digits_read_back (fuel : nat) (n : N) :
  (n < 10 ^ N.of_nat (S fuel))%N ->
  digits_value (decimal_digits (S fuel) n []) = n
  /\ forallb is_digit (decimal_digits (S fuel) n []) = true
  /\ decimal_digits (S fuel) n [] <> [].
Proof.
  revert n. induction fuel as [|fuel IH]; intros n Hn;
    pose proof (N.mod_upper_bound n 10 ltac:(done)) as Hmod;
    destruct (digit_char (n mod 10) Hmod) as [Hd Hv].
  - assert (Hsmall : (n < 10)%N) by (simpl in Hn; lia).
    cbn [decimal_digits]. rewrite N.mod_small in * by done.
    assert (Hone : (if (n <? 10)%N then [ascii_of_N (48 + n)] else [ascii_of_N (48 + n)])
                   = [ascii_of_N (48 + n)]) by (by destruct (n <? 10)%N).
    rewrite Hone. unfold digits_value. cbn [fold_left forallb]. rewrite Hd, Hv.
    by repeat split.
  - change (decimal_digits (S (S fuel)) n [])
      with (if (n <? 10)%N then [ascii_of_N (48 + n mod 10)]
            else decimal_digits (S fuel) (n / 10) [ascii_of_N (48 + n mod 10)]).
    destruct (N.ltb_spec n 10) as [Hsmall|Hbig].
    + rewrite N.mod_small in * by done.
      unfold digits_value. cbn [fold_left forallb]. rewrite Hd, Hv. by repeat split.
    + rewrite decimal_digits_acc.
      destruct (IH (n / 10)%N) as (Hval & Hall & Hne).
      { rewrite Nat2N.inj_succ, N.pow_succ_r' in Hn.
        apply N.Div0.div_lt_upper_bound. lia. }
      rewrite digits_value_snoc, Hval, Hv, forallb_app, Hall.
      cbn [forallb]. rewrite Hd.
      split; [|split; [done|by destruct (decimal_digits (S fuel) (n / 10) [])]].
      pose proof (N.div_mod n 10 ltac:(done)). lia.
Qed.

Lemma log2_fuel (n : N) : (n < 10 ^ N.of_nat (S (N.to_nat (N.log2 n))))%N.
Proof.
  rewrite Nat2N.inj_succ, N2Nat.id.
  destruct n as [|p]; [done|].
  pose proof (N.log2_spec (N.pos p) ltac:(done)) as [_ Hlt].
  eapply N.lt_le_trans; [exact Hlt|].
  apply N.pow_le_mono_l. lia.
Qed.

Lemma take_digits_all (l : list ascii) :
  forallb is_digit l = true -> take_digits l = (l, []).
Proof.
  induction l as [|c l IH]; simpl; [done|].
  intros [Hc Hl]%andb_true_iff. by rewrite Hc, IH.
Qed.

Lemma digit_is_plain (c : ascii) :
  is_digit c = true ->
  is_space c = false
  /\ (Ascii.eqb c "x" || Ascii.eqb c "X") = false
  /\ Ascii.eqb c "A" = false
  /\ forall r, take_sign (c :: r) = (false, c :: r).
Proof.
  intros H.
  destruct c as [[] [] [] [] [] [] [] []]; vm_compute in H; try discriminate H;
    by repeat split.
Qed.

Lemma parseInt_digits (neg : bool) (ds : list ascii) :
  ds <> [] -> forallb is_digit ds = true ->
  match ds with
  | "0"%char :: x :: r' =>
      if (Ascii.eqb x "x" || Ascii.eqb x "X")%bool then
        option_map (fun n => cond_Zopp neg (Z.of_N n)) (take_hex None r')
      else Some (cond_Zopp neg (Z.of_N (digits_value (fst (take_digits ds)))))
  | _ =>
      match fst (take_digits ds) with
      | [] => None
      | ds' => Some (cond_Zopp neg (Z.of_N (digits_value ds')))
      end
  end = Some (cond_Zopp neg (Z.of_N (digits_value ds))).
Proof.
  intros Hne Hall. pose proof (take_digits_all ds Hall) as Htake.
  destruct ds as [|c r]; [done|].
  assert (Hdefault : match fst (take_digits (c :: r)) with
                     | [] => None
                     | ds' => Some (cond_Zopp neg (Z.of_N (digits_value ds')))
                     end = Some (cond_Zopp neg (Z.of_N (digits_value (c :: r)))))
    by (by rewrite Htake).
  destruct r as [|x r'].
  - destruct c as [[] [] [] [] [] [] [] []]; exact Hdefault.
  - assert (Hx : (Ascii.eqb x "x" || Ascii.eqb x "X") = false).
    { simpl in Hall. apply andb_true_iff in Hall as [_ [Hx _]%andb_true_iff].
      by apply digit_is_plain. }
    destruct c as [[] [] [] [] [] [] [] []]; try exact Hdefault.
    rewrite Hx, Htake. done.
Qed.

(** [parseInt] reads the string of an integer back as that integer. *)
Lemma parseInt_ToString (z : Z) : parseInt (ToString_integer (Some z)) = Some z.
Proof.
  unfold ToString_integer, decimal, parseInt.
  destruct (decimal_digits_read_back _ _ (log2_fuel (Z.abs_N z))) as (Hval & Hall & Hne).
  set (ds := decimal_digits _ _ _) in *.
  rewrite list_ascii_of_string_of_list_ascii.
  destruct ds as [|c r] eqn:Hds; [done|].
  assert (Hc : is_digit c = true) by (simpl in Hall; by apply andb_true_iff in Hall as [? _]).
  destruct (digit_is_plain c Hc) as (Hspace & _ & _ & Hsign).
  destruct (Z.ltb_spec z 0) as [Hneg|Hpos].
  - change (skip_space ("-"%char :: c :: r)) with ("-"%char :: c :: r).
    change (take_sign ("-"%char :: c :: r)) with (true, c :: r).
    cbv iota beta. rewrite (parseInt_digits true (c :: r)) by done.
    rewrite Hval. simpl. f_equal. lia.
  - cbn [skip_space]. rewrite Hspace, Hsign.
    cbv iota beta. rewrite (parseInt_digits false (c :: r)) by done.
    rewrite Hval. simpl. f_equal. lia.
Qed.

Lemma ToString_is_not_All (y : option Z) :
  String.eqb (ToString_integer y) "All" = false.
Proof.
  destruct y as [z|]; [|done]. unfold ToString_integer, decimal.
  destruct (decimal_digits_read_back _ _ (log2_fuel (Z.abs_N z))) as (_ & Hall & Hne).
  destruct (decimal_digits _ _ _) as [|c r]; [done|].
  destruct (z <? 0); [done|]. simpl in *.
  apply andb_true_iff in Hall as [Hc _].
  destruct (digit_is_plain c Hc) as (_ & _ & HA & _). by rewrite HA.
Qed.

(** ** The year and month dropdowns *)

Lemma Set_values_from (l seen : list (option Z)) :
  let r := fold_left (fun seen y => if decide (y ∈ seen) then seen else seen ++ [y]) l seen in
  (forall y, y ∈ r <-> y ∈ seen \/ y ∈ l) /\ (NoDup seen -> NoDup r).
Proof.
  revert seen. induction l as [|x l IH]; intros seen; cbn [fold_left].
  - split; [|done]. intros y. rewrite elem_of_nil. tauto.
  - destruct (IH (if decide (x ∈ seen) then seen else seen ++ [x])) as [Hin Hnd].
    split.
    + intros y. rewrite Hin, elem_of_cons.
      destruct (decide (x ∈ seen)) as [Hx|Hx].
      * split; [tauto|]. intros [?|[->|?]]; tauto.
      * rewrite elem_of_app, list_elem_of_singleton. tauto.
    + intros Hseen. apply Hnd. destruct (decide (x ∈ seen)) as [Hx|Hx]; [done|].
      apply NoDup_app. split; [done|]. split; [|apply NoDup_singleton].
      intros y Hy ->%list_elem_of_singleton. done.
Qed.

Lemma Set_values_elem_of (l : list (option Z)) (y : option Z) :
  y ∈ Set_values l <-> y ∈ l.
Proof.
  unfold Set_values. rewrite (proj1 (Set_values_from l [])), elem_of_nil. tauto.
Qed.

Lemma Set_values_NoDup (l : list (option Z)) : NoDup (Set_values l).
Proof. apply (proj2 (Set_values_from l [])). constructor. Qed.

(** X19. The year dropdown offers [All] first, and then each calendar year
    in which some record of the whole collection falls, once. *)
Theorem availableYears_offer (h : DateHost) (st : AppState) :
  exists ys,
    availableYears h st = All :: map Year ys
    /\ NoDup ys
    /\ forall y, y ∈ ys <-> exists e, e ∈ expenses st /\ dueYear h e = y.
Proof.
  eexists. split; [reflexivity|]. split.
  - rewrite Array_sort_perm. apply Set_values_NoDup.
  - intros y. rewrite Array_sort_perm, Set_values_elem_of, list_elem_of_fmap.
    split; intros (e & H1 & H2); exists e; done.
Qed.

Lemma sorted_years (ys : list (option Z)) :
  Forall (fun y => y <> None) ys -> NoDup ys ->
  StronglySorted (fun a b => exists x y, a = Some x /\ b = Some y /\ y <= x) ys ->
  exists zs, ys = map Some zs /\ StronglySorted (fun a b => b < a) zs.
Proof.
  induction ys as [|[z|] ys IH]; intros Hv Hnd Hs.
  - exists []. split; [done|constructor].
  - apply Forall_cons in Hv as [_ Hv]. apply NoDup_cons in Hnd as [Hz Hnd].
    apply StronglySorted_inv in Hs as [Hs Hall].
    destruct (IH Hv Hnd Hs) as (zs & -> & Hzs).
    exists (z :: zs). split; [done|]. constructor; [done|].
    apply List.Forall_forall. intros w Hw.
    rewrite List.Forall_forall in Hall.
    destruct (Hall (Some w)) as (x & y & Hx & Hy & Hle); [by apply in_map|].
    simplify_eq. destruct (decide (y = x)) as [->|Hne]; [|lia].
    exfalso. apply Hz, list_elem_of_In. by apply in_map.
  - by apply Forall_cons in Hv as [? _].
Qed.

(** X20. When every due date of the collection is a valid date, the years
    after [All] are in strictly descending order. *)
Theorem availableYears_descending (h : DateHost) (st : AppState) :
  (forall e, e ∈ expenses st -> newDate h (get e "dueDate") <> None) ->
  exists zs,
    availableYears h st = All :: map (fun z => Year (Some z)) zs
    /\ StronglySorted (fun a b => b < a) zs.
Proof.
  intros Hvalid. unfold availableYears.
  set (le := fun a b : option Z => match a, b with Some x, Some y => y <=? x | _, _ => true end).
  set (ys := Set_values _).
  assert (Hsome : Forall (fun y => y <> None) ys).
  { apply Forall_forall. intros y Hy. unfold ys in Hy.
    apply (proj1 (Set_values_elem_of _ _)) in Hy.
    apply list_elem_of_fmap in Hy as (e & -> & He).
    specialize (Hvalid e He). unfold getFullYear.
    by destruct (newDate h (get e "dueDate")). }
  destruct (sorted_years (Array_sort le ys)) as (zs & Hzs & Hsorted).
  - by rewrite Array_sort_perm.
  - rewrite Array_sort_perm. apply Set_values_NoDup.
  - apply (Array_sort_sorted le _ (fun y => y <> None)); [| | |done].
    + intros a b c (x & y & -> & -> & Hxy) (y' & z & Hy & -> & Hyz).
      simplify_eq. exists x, z. split; [done|]. split; [done|lia].
    + intros [x|] [y|] Ha Hb Hle; try done.
      exists x, y. split; [done|]. split; [done|]. by apply Z.leb_le.
    + intros [x|] [y|] Ha Hb Hle; try done.
      exists y, x. split; [done|]. split; [done|]. apply Z.leb_gt in Hle. lia.
  - exists zs. rewrite Hzs, map_map. done.
Qed.

Lemma availableYears_descending_witness :
  let st := initialState [record 1 "Power" "60" "2024-11-01" "Utilities" false;
                          record 2 "Gas" "40" "2025-03-01" "Utilities" false;
                          record 3 "Water" "20" "2024-01-15" "Utilities" true] in
  exists zs,
    availableYears utc_host st = All :: map (fun z => Year (Some z)) zs
    /\ StronglySorted (fun a b => b < a) zs.
Proof.
  intros st. apply (availableYears_descending utc_host st).
  intros e He. repeat (apply elem_of_cons in He as [->|He]); try discriminate.
  by apply elem_of_nil in He.
Defined.

Lemma same_number_None (a : option Z) : same_number a None = false.
Proof. by destruct a. Qed.

Lemma shown_selected (h : DateHost) (st : AppState) (category : string)
    (m : option nat) (c : choice) (e : expense) :
  shown h (setFilters category (month_value m) (option_value c) st) e
  = selected h category m c e.
Proof.
  unfold shown, selected, dueYear, dueMonth.
  cbn [categoryFilter yearFilter monthFilter setFilters].
  destruct (ToBoolean (get e "dueDate")); [|done]. cbn [negb andb].
  f_equal; [f_equal|].
  - destruct c as [|[y|]]; [done| |].
    + cbn [option_value]. by rewrite ToString_is_not_All, parseInt_ToString.
    + cbn [option_value]. rewrite ToString_is_not_All.
      change (parseInt (ToString_integer None)) with (@None Z).
      by rewrite same_number_None.
  - destruct m as [index|]; [|done].
    cbn [month_value]. by rewrite ToString_is_not_All, parseInt_ToString.
Qed.

(** X21. Choosing an option of the year dropdown and an option of the month
    dropdown shows the records with a truthy due date in that year and
    that month; the option that reads [NaN] shows nothing. *)
Theorem dropdowns_select (h : DateHost) (st : AppState) (category : string)
    (m : option nat) (c : choice) :
  filteredExpenses h (setFilters category (month_value m) (option_value c) st)
  = List.filter (selected h category m c) (expenses st).
Proof.
  unfold filteredExpenses. cbn [expenses setFilters].
  apply filter_ext. intros e. apply shown_selected.
Qed.

(** X22. A record with a truthy due date that is a valid date has its year
    among the offered ones, and choosing that year shows the record
    together with only records of that year. *)
Theorem offered_year_shows (h : DateHost) (st : AppState) (e : expense) (y : Z) :
  e ∈ expenses st ->
  ToBoolean (get e "dueDate") = true ->
  dueYear h e = Some y ->
  let view := filteredExpenses h (setFilters "All" "All" (option_value (Year (Some y))) st) in
  Year (Some y) ∈ availableYears h st
  /\ e ∈ view
  /\ forall e', e' ∈ view -> dueYear h e' = Some y.
Proof.
  intros He Hdue Hy view.
  assert (Hview : forall e', e' ∈ view
            <-> e' ∈ expenses st /\ ToBoolean (get e' "dueDate") = true
                /\ dueYear h e' = Some y).
  { intros e'. unfold view, filteredExpenses. cbn [expenses setFilters].
    rewrite list_elem_of_In, filter_In, <- list_elem_of_In.
    rewrite (shown_selected h st "All" None (Year (Some y))).
    unfold selected. cbn [String.eqb Ascii.eqb orb]. rewrite !andb_true_r.
    rewrite andb_true_iff.
    unfold same_number. destruct (dueYear h e') as [x|].
    - rewrite Z.eqb_eq. split; intros (? & ? & ?); repeat split; congruence.
    - split; [intros (? & ? & ?); done|intros (? & ? & ?); done]. }
  split; [|split].
  - unfold availableYears. apply elem_of_cons. right.
    apply list_elem_of_fmap. exists (Some y). split; [done|].
    rewrite Array_sort_perm, Set_values_elem_of, list_elem_of_fmap.
    by exists e.
  - by apply Hview.
  - intros e' He'. by apply Hview in He' as (_ & _ & ?).
Qed.

Lemma offered_year_shows_witness :
  let march := record 1 "Power" "60" "2025-03-01" "Utilities" false in
  let november := record 2 "Gas" "40" "2024-11-01" "Utilities" false in
  let st := initialState [march; november] in
  let view := filteredExpenses utc_host
                (setFilters "All" "All" (option_value (Year (Some 2025))) st) in
  Year (Some 2025) ∈ availableYears utc_host st
  /\ march ∈ view
  /\ forall e', e' ∈ view -> dueYear utc_host e' = Some 2025.
Proof.
  intros march november st.
  apply (offered_year_shows utc_host st march 2025).
  - apply list_elem_of_here.
  - reflexivity.
  - reflexivity.
Defined.

(** ** Every month has its option *)

Lemma MonthFromTime_range (t : Z) : 0 <= MonthFromTime t <= 11.
Proof.
  unfold MonthFromTime, civil_of_days, msPerDay. cbv zeta.
  set (z := t / 86400000 + 719468).
  set (era := z / 146097).
  set (doe := z - era * 146097).
  assert (Hdoe : 0 <= doe <= 146096) by (unfold doe, era; Z.div_mod_to_equations; lia).
  clearbody doe. clear era z.
  set (yoe := (doe - doe / 1460 + doe / 36524 - doe / 146096) / 365).
  set (doy := doe - (365 * yoe + yoe / 4 - yoe / 100)).
  assert (Hdoy : 0 <= doy <= 365) by (unfold doy, yoe; Z.div_mod_to_equations; lia).
  clearbody doy.
  set (mp := (5 * doy + 2) / 153).
  assert (Hmp : 0 <= mp <= 11) by (unfold mp; Z.div_mod_to_equations; lia).
  clearbody mp.
  destruct (Z.ltb_spec mp 10); lia.
Qed.

(** X23. A record with a valid due date that is shown under [All Months]
    is shown under exactly one of the twelve months of the dropdown,
    the other filters being left as they are. *)
Theorem one_month_each (h : DateHost) (st : AppState) (category : string) (c : choice)
    (e : expense) :
  newDate h (get e "dueDate") <> None ->
  e ∈ filteredExpenses h (setFilters category (month_value None) (option_value c) st) ->
  exists index month,
    months !! index = Some month
    /\ forall i, e ∈ filteredExpenses h
                     (setFilters category (month_value (Some i)) (option_value c) st)
                 <-> i = index.
Proof.
  intros Hvalid Hin.
  unfold filteredExpenses in *. cbn [expenses setFilters] in *.
  apply list_elem_of_In, filter_In in Hin as [Hin Hshown].
  rewrite shown_selected in Hshown.
  destruct (newDate h (get e "dueDate")) as [t|] eqn:Hdate; [|done].
  pose proof (MonthFromTime_range (t + LocalTZA h t)) as Hrange.
  set (k := MonthFromTime (t + LocalTZA h t)) in *.
  assert (Hmonth : dueMonth h e = Some k) by (unfold dueMonth; by rewrite Hdate).
  destruct (lookup_lt_is_Some_2 months (Z.to_nat k)) as [month Hlookup];
    [change (length months) with 12%nat; lia|].
  exists (Z.to_nat k), month. split; [done|]. intros i.
  rewrite list_elem_of_In, filter_In, shown_selected.
  unfold selected in *. rewrite Hmonth. cbn [same_number].
  rewrite andb_true_r in Hshown. rewrite Hshown. cbn [andb].
  rewrite Z.eqb_eq. split; [intros [_ ?]; lia|intros ->; split; [done|lia]].
Qed.

Lemma one_month_each_witness :
  let march := record 1 "Power" "60" "2025-03-01" "Utilities" false in
  let st := initialState [march] in
  exists index month,
    months !! index = Some month
    /\ forall i, march ∈ filteredExpenses utc_host
                     (setFilters "All" (month_value (Some i)) (option_value All) st)
                 <-> i = index.
Proof.
  intros march st. apply (one_month_each utc_host st "All" All march).
  - discriminate.
  - apply list_elem_of_here.
Defined.

(** ** What the cards and the rows show *)

Lemma decimal_digits_enough (f1 f2 : nat) (n : N) (acc : list ascii) :
  (n < 10 ^ N.of_nat (S f1))%N -> (n < 10 ^ N.of_nat (S f2))%N ->
  decimal_digits (S f1) n acc = decimal_digits (S f2) n acc.
Proof.
  revert f2 n acc. induction f1 as [|f1 IH]; intros f2 n acc H1 H2.
  - assert (Hsmall : (n <? 10)%N = true) by (apply N.ltb_lt; simpl in H1; lia).
    cbn [decimal_digits]. rewrite Hsmall. done.
  - change (decimal_digits (S (S f1)) n acc)
      with (if (n <? 10)%N then ascii_of_N (48 + n mod 10) :: acc
            else decimal_digits (S f1) (n / 10) (ascii_of_N (48 + n mod 10) :: acc)).
    change (decimal_digits (S f2) n acc)
      with (if (n <? 10)%N then ascii_of_N (48 + n mod 10) :: acc
            else decimal_digits f2 (n / 10) (ascii_of_N (48 + n mod 10) :: acc)).
    destruct (N.ltb_spec n 10) as [Hsmall|Hbig]; [done|].
    destruct f2 as [|f2]; [simpl in H2; lia|].
    apply IH.
    + rewrite (Nat2N.inj_succ (S f1)), N.pow_succ_r' in H1.
      apply N.Div0.div_lt_upper_bound. lia.
    + rewrite (Nat2N.inj_succ (S f2)), N.pow_succ_r' in H2.
      apply N.Div0.div_lt_upper_bound. lia.
Qed.

Lemma decimal_mul10 (n : N) : (0 < n)%N -> decimal (10 * n) = decimal n ++ ["0"%char].
Proof.
  intros Hn. unfold decimal.
  pose proof (log2_fuel (10 * n)) as Hfuel.
  destruct (N.to_nat (N.log2 (10 * n))) as [|f] eqn:Hf.
  { simpl in Hfuel. lia. }
  change (decimal_digits (S (S f)) (10 * n) [])
    with (if (10 * n <? 10)%N then [ascii_of_N (48 + (10 * n) mod 10)]
          else decimal_digits (S f) (10 * n / 10) [ascii_of_N (48 + (10 * n) mod 10)]).
  destruct (N.ltb_spec (10 * n) 10) as [Hsmall|_]; [lia|].
  rewrite (N.mul_comm 10 n), N.Div0.mod_mul, N.div_mul by done.
  rewrite decimal_digits_acc. f_equal.
  apply decimal_digits_enough; [|apply log2_fuel].
  rewrite (Nat2N.inj_succ (S f)), N.pow_succ_r' in Hfuel. lia.
Qed.

Lemma decimal_nonempty (n : N) : decimal n <> [].
Proof. apply (decimal_digits_read_back _ _ (log2_fuel n)). Qed.

Lemma fixed_point_hundreds (n : N) :
  fixed_point 2 (100 * n) = decimal n ++ [("."%char); "0"%char; "0"%char].
Proof.
  unfold fixed_point. cbn [Nat.eqb].
  destruct (N.eq_dec n 0%N) as [->|Hn]; [done|].
  replace (100 * n)%N with (10 * (10 * n))%N by lia.
  rewrite !decimal_mul10 by lia.
  pose proof (decimal_nonempty n) as Hne.
  destruct (decimal n) as [|d ds] eqn:Hd; [done|].
  rewrite <- Hd. clear Hne.
  assert (Hlen : (1 <= length (decimal n))%nat) by (rewrite Hd; simpl; lia).
  rewrite !length_app. cbn [length].
  destruct (Nat.leb_spec (length (decimal n) + 1 + 1) 2) as [Hle|_]; [lia|].
  rewrite <- app_assoc, !length_app. cbn [length].
  replace (length (decimal n) + (1 + 1) - 2)%nat with (length (decimal n) + 0)%nat by lia.
  rewrite take_app_add, drop_app_add. cbn [take drop app].
  by rewrite app_nil_r.
Qed.

Lemma string_of_app (l1 l2 : list ascii) :
  string_of_list_ascii (l1 ++ l2) = string_of_list_ascii l1 +:+ string_of_list_ascii l2.
Proof. induction l1 as [|c l1 IH]; simpl; [done|]. by rewrite IH. Qed.

Lemma nearest_scaled_whole (p q : positive) :
  nearest_scaled (Z.to_pos (Z.pos p * 2 ^ Z.pos q)) (Z.neg q) 2 = (100 * Npos p)%N.
Proof.
  unfold nearest_scaled.
  assert (Hpow : 0 < 2 ^ Z.pos q) by (apply Z.pow_pos_nonneg; lia).
  assert (Hm : Npos (Z.to_pos (Z.pos p * 2 ^ Z.pos q)) = (Npos p * 2 ^ Npos q)%N).
  { apply N2Z.inj. rewrite N2Z.inj_mul, N2Z.inj_pow. cbn [Z.of_N].
    rewrite Z2Pos.id by lia. done. }
  rewrite Hm. change (10 ^ N.of_nat 2)%N with 100%N.
  assert (Hpos : (0 < 2 ^ Npos q)%N) by (apply N.neq_0_lt_0, N.pow_nonzero; lia).
  generalize dependent (2 ^ Npos q)%N. intros t _ Ht.
  replace (2 * (Npos p * t) * 100 + t)%N with (t + 100 * Npos p * (2 * t))%N by lia.
  rewrite N.div_add by lia. rewrite N.div_small by lia. lia.
Qed.

Lemma toFixed_of_whole (s : bool) (p : positive) :
  Z.pos p < 2 ^ 53 ->
  toFixed 2 (whole s p)
  = string_of_list_ascii
      ((if s then ["-"%char] else []) ++ decimal (Npos p) ++ ["."%char; "0"%char; "0"%char]).
Proof.
  intros Hp. pose proof (digits_of_small p Hp) as Hd.
  unfold whole, toFixed.
  destruct (Z.pos (digits2_pos p) - 53) as [|q|q] eqn:He; [|lia|].
  - replace (53 - Z.pos (digits2_pos p)) with 0 by lia.
    rewrite Z.pow_0_r, Z.mul_1_r. cbn [Z.to_pos Z.to_N].
    rewrite N.pow_0_r, N.mul_1_r.
    destruct (N.leb_spec (10 ^ 21) (Npos p)) as [Hbig|_].
    { exfalso. assert (Z.of_N (10 ^ 21) <= Z.of_N (Npos p)) by lia.
      cbn [Z.of_N] in *. change (Z.of_N (10 ^ 21)) with (10 ^ 21) in *. lia. }
    unfold nearest_scaled. rewrite N.pow_0_r, N.mul_1_r.
    change (10 ^ N.of_nat 2)%N with 100%N.
    rewrite (N.mul_comm (Npos p) 100), fixed_point_hundreds.
    by destruct s.
  - replace (53 - Z.pos (digits2_pos p)) with (Z.pos q) by lia.
    rewrite nearest_scaled_whole, fixed_point_hundreds.
    by destruct s.
Qed.

(** [toFixed(2)] of a whole number is its decimal text followed by
    two zeros. *)
Lemma toFixed_whole (z : Z) :
  Z.abs z < 2 ^ 53 -> toFixed 2 (of_Z z) = ToString_integer (Some z) +:+ ".00".
Proof.
  intros Hz. rewrite of_Z_whole by done.
  destruct z as [|p|p]; [done| |].
  - rewrite toFixed_of_whole by lia. unfold ToString_integer.
    cbn [Z.ltb Z.compare Z.abs_N app]. by rewrite string_of_app.
  - rewrite toFixed_of_whole by lia. unfold ToString_integer.
    cbn [Z.ltb Z.compare Z.abs_N app].
    change ("-"%char :: decimal (N.pos p) ++ ["."%char; "0"%char; "0"%char])
      with (("-"%char :: decimal (N.pos p)) ++ ["."%char; "0"%char; "0"%char]).
    by rewrite string_of_app.
Qed.

(** X24. With whole amounts whose absolute values sum to less than
    [2 ^ 53], the three cards show the exact sums, each followed by
    two zeros: the total, the sum of the paid records, and their
    difference. *)
Theorem Summary_of_whole_amounts (filtered : list expense) (units : expense -> Z) :
  (forall e, In e filtered ->
     parseFloat (or_else (get e "amount") (VNum zero)) = of_Z (units e)) ->
  sum_abs units filtered < 2 ^ 53 ->
  let paid := List.filter (fun exp => ToBoolean (get exp "paid")) filtered in
  let text := fun z => "$" +:+ ToString_integer (Some z) +:+ ".00" in
  Summary (totalExpenses filtered) (paidExpenses filtered) (unpaidExpenses filtered)
  = [("Total Expenses"%string, text (sum_units units filtered));
     ("Paid"%string, text (sum_units units paid));
     ("Remaining"%string, text (sum_units units filtered - sum_units units paid))].
Proof.
  intros Hwhole Hbound paid text.
  pose proof (sum_units_bound units filtered) as Hb1.
  pose proof (sum_units_bound units paid) as Hb2.
  pose proof (sum_abs_filter units (fun exp => ToBoolean (get exp "paid")) filtered) as Hb3.
  pose proof (sum_units_bound units
                (List.filter (fun e => negb (ToBoolean (get e "paid"))) filtered)) as Hb4.
  pose proof (sum_abs_filter units (fun e => negb (ToBoolean (get e "paid"))) filtered)
    as Hb5.
  pose proof (sum_units_split units (fun exp => ToBoolean (get exp "paid")) filtered)
    as Hsplit.
  cbv beta in Hsplit. fold paid in Hb3, Hsplit.
  assert (Htotal : totalExpenses filtered = of_Z (sum_units units filtered))
    by by apply totals_exact.
  assert (Hpaid : paidExpenses filtered = of_Z (sum_units units paid)).
  { change (paidExpenses filtered) with (totalExpenses paid). apply totals_exact; [|lia].
    intros e [He _]%filter_In. by apply Hwhole. }
  unfold Summary, SummaryCard, unpaidExpenses. rewrite Htotal, Hpaid.
  rewrite sub_of_Z by lia. rewrite !toFixed_whole by lia. done.
Qed.

Lemma Summary_witness :
  let filtered := [record 1 "Rent" "1000" "2025-01-01" "Rent/Mortgage" false;
                   record 2 "Gym" "30" "2025-01-05" "Other" true;
                   record 3 "Power" "250" "2025-01-09" "Utilities" true] in
  Summary (totalExpenses filtered) (paidExpenses filtered) (unpaidExpenses filtered)
  = [("Total Expenses"%string, "$1280.00"%string);
     ("Paid"%string, "$280.00"%string);
     ("Remaining"%string, "$1000.00"%string)].
Proof.
  intros filtered.
  apply (Summary_of_whole_amounts filtered
           (fun e => match truncate (parseFloat (get e "amount")) with
                     | Some z => z
                     | None => 0
                     end)).
  - intros e [<-|[<-|[<-|[]]]]; reflexivity.
  - reflexivity.
Defined.

(** X25. A row shows a whole amount followed by two zeros, and [$NaN] for
    an amount that does not read as a number; a missing or empty
    amount shows as [$NaN] in its row while it counts as zero in the
    total. *)
Theorem amountText_of_a_row (e : expense) :
  (forall z, Z.abs z < 2 ^ 53 -> parseFloat (get e "amount") = of_Z z ->
     amountText e = "$" +:+ ToString_integer (Some z) +:+ ".00")
  /\ (isNaN (parseFloat (get e "amount")) = true -> amountText e = "$NaN"%string)
  /\ (get e "amount" = VUndefined \/ get e "amount" = VStr "" ->
      amountText e = "$NaN"%string
      /\ parseFloat (or_else (get e "amount") (VNum zero)) = zero).
Proof.
  unfold amountText. split; [|split].
  - intros z Hz ->. by rewrite toFixed_whole.
  - intros Hnan. by destruct (parseFloat (get e "amount")).
  - by intros [-> | ->].
Qed.
